(** * A shallow embedding of the GainSpan S2W protocol engine (GSCore.cpp)

    Bytes are [Z] values in [0, 255]; buffers are [list Z]; indices and
    lengths are [nat].  Fixed-size C arrays are lists of their size,
    updated with stdpp's list [insert], which leaves the list unchanged
    on an index past its end (the C++ code writes past the array there). *)

From Stdlib Require Import ZArith Lia Ascii String.
From stdpp Require Import base list.
Import ListNotations.

Local Open Scope Z_scope.

(** ASCII code of a character. *)
Definition chr (a : ascii) : Z := Z.of_nat (nat_of_ascii a).

(** The bytes of a string literal. *)
Fixpoint bytes (s : string) : list Z :=
  match s with
  | EmptyString => []
  | String a s' => chr a :: bytes s'
  end.

(** Byte at position [i] of a buffer; reading past the data yields a NUL. *)
Definition byte_at (buf : list Z) (i : nat) : Z := nth i buf 0.

(** [memcpy(&dst[i], bs, n)] into a fixed-size array. *)
Fixpoint write_bytes (i : nat) (bs : list Z) (l : list Z) : list Z :=
  match bs with
  | [] => l
  | b :: bs' => write_bytes (S i) bs' (<[i := b]> l)
  end.

(** ** Static helpers: [GSCore::parseNumber] *)
Module Parse.

(** Value of one digit character as the inner loop of
    [parseNumber(uint16_t*, ...)] computes it, or [None] on a byte that is
    neither a digit nor a letter. *)
Definition digit_value (c : Z) : option Z :=
  if (chr "0"%char <=? c) && (c <=? chr "9"%char) then Some (c - chr "0"%char)
  else if (chr "a"%char <=? c) && (c <=? chr "z"%char) then Some (10 + (c - chr "a"%char))
  else if (chr "A"%char <=? c) && (c <=? chr "Z"%char) then Some (10 + (c - chr "A"%char))
  else None.

(** The [while (len--)] loop of [parseNumber(uint16_t*, ...)]; [result]
    is a [uint16_t], so products and sums wrap modulo 2^16. *)
Fixpoint parse_loop (base : Z) (buf : list Z) (len : nat) (result : Z) : option Z :=
  match len with
  | O => Some result
  | S len' =>
      if result >? 65535 / 10 then None
      else
        let r := (result * base) mod 65536 in
        match digit_value (hd 0 buf) with
        | None => None
        | Some d => parse_loop base (tl buf) len' ((r + d) mod 65536)
        end
  end.

(** [GSCore::parseNumber(uint16_t *out, buf, len, base)]: [Some v] when it
    returns true and stores [v]. *)
Definition parseNumber16 (buf : list Z) (len : nat) (base : Z) : option Z :=
  if (base <? 2) || (36 <? base) then None else parse_loop base buf len 0.

(** [GSCore::parseNumber(uint8_t *out, buf, len, base)]. *)
Definition parseNumber8 (buf : list Z) (len : nat) (base : Z) : option Z :=
  match parseNumber16 buf len base with
  | None => None
  | Some tmp => if tmp >? 255 then None else Some tmp
  end.

End Parse.

(** ** Synchronous responses: [GSCore::processResponseLine] *)
Module Response.
Import Parse.

(** Modelled from the spec: the [GSResponse] enumeration of GSCore.h
    (not among the sources).  The spec fixes the non-verbose reply codes
    "0".."18" (the static_assert of processResponseLine requires
    [GS_RESPONSE_MAX == 18]), the argument-free codes SUCCESS .. ENOIP,
    SOCK_FAIL and CON_SUCCESS, and the async-only codes; the numbering is
    the module's numeric reply codes, 0 = SUCCESS, 3 = SOCK_FAIL,
    7 = CON_SUCCESS, 9 = LINK_LOST, 15 = ENOIP. *)
Inductive GSResponse :=
  | GS_SUCCESS | GS_FAILURE | GS_EINVAL | GS_SOCK_FAIL | GS_ENOCID
  | GS_EBADCID | GS_ENOTSUP | GS_CON_SUCCESS | GS_ECIDCLOSE | GS_LINK_LOST
  | GS_DISASSO_EVT | GS_STBY_TMR_EVT | GS_STBY_ALM_EVT | GS_DPSLEEP_EVT
  | GS_BOOT_UNEXPEC | GS_ENOIP | GS_BOOT_INTERNAL | GS_BOOT_EXTERNAL
  | GS_NWCONN_SUCCESS
  | GS_UNKNOWN_RESPONSE | GS_UNRECOVERABLE_ERROR.

(** The cast [(GSResponse)n] for the codes 0..18. *)
Definition response_of_code (n : Z) : GSResponse :=
  match n with
  | 0 => GS_SUCCESS | 1 => GS_FAILURE | 2 => GS_EINVAL | 3 => GS_SOCK_FAIL
  | 4 => GS_ENOCID | 5 => GS_EBADCID | 6 => GS_ENOTSUP | 7 => GS_CON_SUCCESS
  | 8 => GS_ECIDCLOSE | 9 => GS_LINK_LOST | 10 => GS_DISASSO_EVT
  | 11 => GS_STBY_TMR_EVT | 12 => GS_STBY_ALM_EVT | 13 => GS_DPSLEEP_EVT
  | 14 => GS_BOOT_UNEXPEC | 15 => GS_ENOIP | 16 => GS_BOOT_INTERNAL
  | 17 => GS_BOOT_EXTERNAL | 18 => GS_NWCONN_SUCCESS
  | _ => GS_UNKNOWN_RESPONSE
  end.

(** [GSCore::processResponseLine(buf, len, connect_cid)].  The pointer
    [connect_cid] is [None] for NULL and [Some v] for a pointer to [v];
    the result pairs the response with the pointed-to value afterwards.
    The async-only codes all end in [return GS_UNKNOWN_RESPONSE] (their
    case labels sit inside an [if] that a [switch] jumps past). *)
Definition processResponseLine (buf : list Z) (connect_cid : option Z)
    : GSResponse * option Z :=
  let len := length buf in
  let b0 := byte_at buf 0 in
  let b1 := byte_at buf 1 in
  let head :=
    if (2 <=? len)%nat && (b0 =? chr "1"%char)
       && (chr "0"%char <=? b1) && (b1 <=? chr "8"%char)
    then Some (drop 2 buf, response_of_code (10 + (b1 - chr "0"%char)))
    else if (1 <=? len)%nat && (chr "0"%char <=? b0) && (b0 <=? chr "9"%char)
    then Some (drop 1 buf, response_of_code (b0 - chr "0"%char))
    else if (len =? 2)%nat && (b0 =? chr "O"%char) && (b1 =? chr "K"%char)
    then Some (drop 2 buf, GS_SUCCESS)
    else None in
  match head with
  | None => (GS_UNKNOWN_RESPONSE, connect_cid)
  | Some (args, code) =>
      let arg_len := length args in
      if negb (arg_len =? 0)%nat && negb (byte_at args 0 =? chr " "%char)
      then (GS_UNKNOWN_RESPONSE, connect_cid)
      else
        match code with
        | GS_SUCCESS | GS_FAILURE | GS_EINVAL | GS_ENOCID | GS_EBADCID
        | GS_ENOTSUP | GS_LINK_LOST | GS_ENOIP =>
            if (arg_len =? 0)%nat then (code, connect_cid)
            else (GS_UNKNOWN_RESPONSE, connect_cid)
        | GS_SOCK_FAIL =>
            if (arg_len =? 2)%nat then (code, connect_cid)
            else (GS_UNKNOWN_RESPONSE, connect_cid)
        | GS_CON_SUCCESS =>
            if negb (arg_len =? 2)%nat then (GS_UNKNOWN_RESPONSE, connect_cid)
            else
              match connect_cid with
              | None => (GS_UNKNOWN_RESPONSE, connect_cid)
              | Some _ =>
                  match parseNumber8 (drop 1 args) 1 16 with
                  | None => (GS_UNKNOWN_RESPONSE, connect_cid)
                  | Some v => (code, Some v)
                  end
              end
        | _ => (GS_UNKNOWN_RESPONSE, connect_cid)
        end
  end.

End Response.

(** ** [GSCore::parseIpAddress] *)
Module Ip.

(** The digit branch of the loop body: [ip[i] *= 10; ip[i] += d]
    on a [uint8_t] octet [v], after the range check; [None] is
    [return false]. *)
Definition octet_digit (c : Z) (v : Z) : option Z :=
  if (100 <=? v) || ((v =? 25) && (chr "5"%char <? c)) then None
  else Some (((v * 10) mod 256 + (c - chr "0"%char)) mod 256).

(** One iteration of the loop body on the character [c], with octet
    index [i] and octets [ip]; [None] is [return false]. *)
Definition ip_step (c : Z) (i : nat) (ip : list Z) : option (nat * list Z) :=
  if c =? chr "."%char then
    let i' := S i in
    if (4 <=? i')%nat then None else Some (i', <[i' := 0]> ip)
  else if (c <? chr "0"%char) || (chr "9"%char <? c) then None
  else
    match octet_digit c (byte_at ip i) with
    | None => None
    | Some v => Some (i, <[i := v]> ip)
    end.

(** The [for (p = str; *p && (end == NULL || p < end); ++p)] loop;
    [bound] is [None] for [end == NULL] and [Some k] when [k] characters
    are left before [end].  The end of the list plays the role of the
    terminating NUL. *)
Fixpoint ip_loop (s : list Z) (bound : option nat) (i : nat) (ip : list Z)
    : bool * list Z :=
  match s with
  | [] => (true, ip)
  | c :: s' =>
      if c =? 0 then (true, ip)
      else
        match bound with
        | Some O => (true, ip)
        | _ =>
            match ip_step c i ip with
            | None => (false, ip)
            | Some (i', ip') => ip_loop s' (option_map pred bound) i' ip'
            end
        end
  end.

(** [GSCore::parseIpAddress(ip, str, len)]: whether it returns true, and
    the four octets it leaves in [*ip]. *)
Definition parseIpAddress (str : list Z) (len : nat) : bool * list Z :=
  ip_loop str (if (len =? 0)%nat then None else Some len) 0 [0; 0; 0; 0].

End Ip.

(** ** The engine state: connection table, association and events *)
Module Engine.
Import Parse Response.

(** One entry of the [connections] array. *)
Record Connection := mkConnection {
  connected : bool;
  error : bool;
  ssl : bool;
  remote_ip : Z;
  remote_port : Z;
  local_port : Z
}.

(** Modelled from the spec: MAX_CID of GSCore.h; the connection table
    has the 16 entries [0..=MAX_CID]. *)
Definition MAX_CID : nat := 15.

(** Modelled from the spec: INVALID_CID of GSCore.h, the "no connection"
    value of [ncm_auto_cid], outside [0..=MAX_CID]. *)
Definition INVALID_CID : nat := 255.

(** Modelled from the spec: the event bits of GSCore.h, one bit each for
    ASSOCIATED, DISASSOCIATED, NCM_CONNECTED and NCM_DISCONNECTED. *)
Definition EVENT_ASSOCIATED : Z := Z.shiftl 1 0.
Definition EVENT_DISASSOCIATED : Z := Z.shiftl 1 1.
Definition EVENT_NCM_CONNECTED : Z := Z.shiftl 1 2.
Definition EVENT_NCM_DISCONNECTED : Z := Z.shiftl 1 3.

(** The part of the [GSCore] object the async dispatcher reads and
    writes; the array [connections] is a function on CIDs.  The C array
    [connections[MAX_CID + 1]] has the entries [0..=MAX_CID] only: the
    values this function takes above MAX_CID have no counterpart in the
    C object, where such an index is an out-of-bounds access. *)
Record Engine := mkEngine {
  connections : nat -> Connection;
  associated : bool;
  events : Z;
  ncm_auto_cid : nat;
  initializing : bool
}.

(** [this->events & flag] tested as a condition. *)
Definition has_event (ev : Z) (flag : Z) : bool := negb (Z.land ev flag =? 0).

Definition set_connection (e : Engine) (cid : nat) (c : Connection) : Engine :=
  {| connections := fun j => if (j =? cid)%nat then c else connections e j;
     associated := associated e; events := events e;
     ncm_auto_cid := ncm_auto_cid e; initializing := initializing e |}.

Definition set_events (e : Engine) (ev : Z) : Engine :=
  {| connections := connections e; associated := associated e; events := ev;
     ncm_auto_cid := ncm_auto_cid e; initializing := initializing e |}.

Definition set_associated (e : Engine) (b : bool) : Engine :=
  {| connections := connections e; associated := b; events := events e;
     ncm_auto_cid := ncm_auto_cid e; initializing := initializing e |}.

Definition set_ncm_auto_cid (e : Engine) (cid : nat) : Engine :=
  {| connections := connections e; associated := associated e;
     events := events e; ncm_auto_cid := cid; initializing := initializing e |}.

(** [this->connections[cid].error = true]. *)
Definition set_error (e : Engine) (cid : nat) : Engine :=
  let c := connections e cid in
  set_connection e cid
    {| connected := connected c; error := true; ssl := ssl c;
       remote_ip := remote_ip c; remote_port := remote_port c;
       local_port := local_port c |}.

(** [GSCore::processDisconnect]. *)
Definition processDisconnect (cid : nat) (e : Engine) : Engine :=
  let c := connections e cid in
  if negb (connected c) then e
  else
    let e1 := set_connection e cid
                {| connected := false; error := error c; ssl := false;
                   remote_ip := remote_ip c; remote_port := remote_port c;
                   local_port := local_port c |} in
    if (cid =? ncm_auto_cid e1)%nat then
      let e2 := set_ncm_auto_cid e1 INVALID_CID in
      if has_event (events e2) EVENT_NCM_CONNECTED
      then set_events e2 (Z.land (events e2) (Z.lnot EVENT_NCM_CONNECTED))
      else set_events e2 (Z.lor (events e2) EVENT_NCM_DISCONNECTED)
    else e1.

(** [GSCore::processConnect]. *)
Definition processConnect (cid : nat) (rip rport lport : Z) (ncm : bool)
    (e : Engine) : Engine :=
  let e1 := if connected (connections e cid) then processDisconnect cid e else e in
  let e2 := if ncm
            then set_events (set_ncm_auto_cid e1 cid)
                   (Z.lor (events e1) EVENT_NCM_CONNECTED)
            else e1 in
  let c := connections e2 cid in
  set_connection e2 cid
    {| connected := true; error := false; ssl := ssl c;
       remote_ip := rip; remote_port := rport; local_port := lport |}.

(** The loop [for (cid = first; ...; ++cid)] of processDisassociation
    over [n] entries. *)
Fixpoint disconnect_all (n : nat) (cid : nat) (e : Engine) : Engine :=
  match n with
  | O => e
  | S n' =>
      let e' := if connected (connections e cid)
                then processDisconnect cid (set_error e cid) else e in
      disconnect_all n' (S cid) e'
  end.

(** [GSCore::processDisassociation]. *)
Definition processDisassociation (e : Engine) : Engine :=
  if negb (associated e) then e
  else
    let ev := if has_event (events e) EVENT_ASSOCIATED
              then Z.land (events e) (Z.lnot EVENT_ASSOCIATED)
              else Z.lor (events e) EVENT_DISASSOCIATED in
    let e1 := set_associated (set_events e ev) false in
    disconnect_all (S MAX_CID) 0 e1.

(** [GSCore::processAssociation]. *)
Definition processAssociation (e : Engine) : Engine :=
  let e1 := if associated e then processDisassociation e else e in
  let e2 := set_associated e1 true in
  set_events e2 (Z.lor (events e2) EVENT_ASSOCIATED).

(** [enum GSAsync] of GSCore.cpp: the hex subtypes 0x0..0xC of the
    <ESC>A messages, [GS_ASYNC_MAX = GS_ASYNC_NWCONN_SUCCESS]. *)
Definition GS_ASYNC_SOCK_FAIL : Z := 0.
Definition GS_ASYNC_CON_SUCCESS : Z := 1.
Definition GS_ASYNC_ECIDCLOSE : Z := 2.
Definition GS_ASYNC_DISASSO_EVT : Z := 3.
Definition GS_ASYNC_STBY_TMR_EVT : Z := 4.
Definition GS_ASYNC_STBY_ALM_EVT : Z := 5.
Definition GS_ASYNC_DPSLEEP_EVT : Z := 6.
Definition GS_ASYNC_BOOT_UNEXPEC : Z := 7.
Definition GS_ASYNC_ENOIP : Z := 8.
Definition GS_ASYNC_BOOT_INTERNAL : Z := 9.
Definition GS_ASYNC_BOOT_EXTERNAL : Z := 10.
Definition GS_ASYNC_FAILURE : Z := 11.
Definition GS_ASYNC_NWCONN_SUCCESS : Z := 12.
Definition GS_ASYNC_MAX : Z := GS_ASYNC_NWCONN_SUCCESS.

(** The value of the synchronous [GS_SOCK_FAIL] code, which processAsync
    compares [rx_async_subtype] with. *)
Definition GS_SOCK_FAIL_code : Z := 3.

(** [GSCore::processAsync]: [rx_async] holds the [rx_async_len] payload
    bytes [payload], and [subtype] is [rx_async_subtype].  Returns the
    boolean result and the engine afterwards. *)
Definition processAsync (payload : list Z) (subtype : Z) (e : Engine)
    : bool * Engine :=
  if subtype >? GS_ASYNC_MAX then (false, e)
  else if (length payload <? 1)%nat then (false, e)
  else
    match parseNumber8 payload 1 16 with
    | None => (false, e)
    | Some st =>
      if negb (st =? subtype) then (false, e)
      else
        let args := drop 1 payload in
        let arg_len := length args in
        if negb (arg_len =? 0)%nat && negb (byte_at args 0 =? chr " "%char)
        then (false, e)
        else
          if subtype =? GS_ASYNC_CON_SUCCESS then
            if (arg_len <? 2)%nat then (false, e)
            else if (arg_len =? 2)%nat then
              match parseNumber8 (drop 1 args) 1 16 with
              | None => (false, e)
              | Some cid => (true, processConnect (Z.to_nat cid) 0 0 0 true e)
              end
            else (false, e)
          else if (subtype =? GS_ASYNC_SOCK_FAIL) || (subtype =? GS_ASYNC_ECIDCLOSE) then
            if negb (arg_len =? 2)%nat then (false, e)
            else
              match parseNumber8 (drop 1 args) 1 16 with
              | None => (false, e)
              | Some cid =>
                  let e1 := if subtype =? GS_SOCK_FAIL_code
                            then set_error e (Z.to_nat cid) else e in
                  (true, processDisconnect (Z.to_nat cid) e1)
              end
          else if (0 <? arg_len)%nat then (false, e)
          else if subtype =? GS_ASYNC_FAILURE then (false, e)
          else if subtype =? GS_ASYNC_DISASSO_EVT then (true, processDisassociation e)
          else if (subtype =? GS_ASYNC_STBY_TMR_EVT) || (subtype =? GS_ASYNC_STBY_ALM_EVT)
                  || (subtype =? GS_ASYNC_DPSLEEP_EVT) then (false, e)
          else if (subtype =? GS_ASYNC_BOOT_UNEXPEC) || (subtype =? GS_ASYNC_BOOT_INTERNAL)
                  || (subtype =? GS_ASYNC_BOOT_EXTERNAL) then (initializing e, e)
          else if subtype =? GS_ASYNC_NWCONN_SUCCESS then (true, processAssociation e)
          else if subtype =? GS_ASYNC_ENOIP then (true, processDisassociation e)
          else (false, e)
    end.

End Engine.

(** ** The receive ring buffer and its frame queue *)
Module Ring.
Import Engine.

(** [GSCore::RXFrame]: one bulk-data frame header. *)
Record RXFrame := mkRXFrame {
  cid : nat;
  length : Z;
  udp_server : bool;
  ip : list Z;
  port : Z
}.

(** [RXFrame()], the empty frame returned when no frame is available. *)
Definition no_frame : RXFrame := mkRXFrame 0 0 false [0; 0; 0; 0] 0.

(** Modelled from the spec: the conversion of an [RXFrame] to [bool]
    (GSCore.h); a frame is live while it has bytes left, and "reaching
    zero ... the frame is retired". *)
Definition frame_valid (f : RXFrame) : bool := negb (length f =? 0).

Definition set_length (f : RXFrame) (l : Z) : RXFrame :=
  mkRXFrame (cid f) l (udp_server f) (ip f) (port f).

(** The part of the [GSCore] object the ring buffer touches. *)
Record RxState := mkRxState {
  rx_data : list Z;
  rx_data_head : nat;
  rx_data_tail : nat;
  head_frame : RXFrame;
  tail_frame : RXFrame;
  eng : Engine
}.

Definition with_data (s : RxState) (d : list Z) (h : nat) : RxState :=
  mkRxState d h (rx_data_tail s) (head_frame s) (tail_frame s) (eng s).
Definition with_head (s : RxState) (h : nat) : RxState :=
  mkRxState (rx_data s) h (rx_data_tail s) (head_frame s) (tail_frame s) (eng s).
Definition with_tail (s : RxState) (t : nat) (tf : RXFrame) : RxState :=
  mkRxState (rx_data s) (rx_data_head s) t (head_frame s) tf (eng s).
Definition with_eng (s : RxState) (e : Engine) : RxState :=
  mkRxState (rx_data s) (rx_data_head s) (rx_data_tail s) (head_frame s)
    (tail_frame s) e.

Section RingBuffer.

(** [sizeof(rx_data)], a power of two. *)
Variable RX_DATA_SIZE : nat.
(** [sizeof(RXFrame)]. *)
Variable FRAME_SIZE : nat.
(** One more than [max_for_type(rx_data_index_t)]: the cursors wrap there. *)
Variable RX_INDEX_LIMIT : nat.
(** The raw bytes of a frame header, as [memcpy] copies them, and back. *)
Variable frame_bytes : RXFrame -> list Z.
Variable frame_of_bytes : list Z -> RXFrame.

(** [GSCore::loadFrameHeader(&tail_frame)]. *)
Definition loadFrameHeader (s : RxState) : RxState :=
  let t := if (RX_DATA_SIZE - rx_data_tail s <? FRAME_SIZE)%nat
           then 0%nat else rx_data_tail s in
  let f := frame_of_bytes (take FRAME_SIZE (drop t (rx_data s))) in
  with_tail s ((t + FRAME_SIZE) mod RX_INDEX_LIMIT) f.

(** [GSCore::getFrameHeader(ANY_CID)], for a buffer that holds bytes or
    a tail frame that does.  Not modelled: when the tail frame is used up
    and the ring buffer is empty, the C code polls the module with
    [processIncoming(readRaw())]; here that branch returns [RXFrame()] as
    the poll does when the module has nothing to send.  The statements
    about this function exclude that branch by their hypotheses. *)
Definition getFrameHeader_any (s : RxState) : RXFrame * RxState :=
  if length (tail_frame s) =? 0 then
    if negb (rx_data_tail s =? rx_data_head s)%nat then
      let s' := loadFrameHeader s in (tail_frame s', s')
    else (no_frame, s)
  else (tail_frame s, s).

(** [GSCore::getData()] on a buffer that holds bytes.  Not modelled:
    on an empty buffer the C code reads the module directly with
    [readRaw()] and, for a byte, counts it off both [tail_frame] and
    [head_frame]; here that branch returns -1 and changes nothing, as
    [readRaw()] does when the module has nothing to send.  The statements
    about this function exclude that branch by their hypotheses. *)
Definition getData (s : RxState) : Z * RxState :=
  if negb (rx_data_tail s =? rx_data_head s)%nat then
    let c := byte_at (rx_data s) (rx_data_tail s) in
    let tf := tail_frame s in
    (c, with_tail s ((rx_data_tail s + 1) mod RX_DATA_SIZE)
           (set_length tf ((length tf - 1) mod 65536)))
  else (-1, s).

(** [GSCore::readData(cid_t *cid)]: the byte read (or -1), the CID it
    belonged to, and the state afterwards. *)
Definition readData_any (s : RxState) : Z * nat * RxState :=
  let (f, s1) := getFrameHeader_any s in
  if negb (frame_valid f) then (-1, 0%nat, s1)
  else
    let (c, s2) := getData s1 in
    if 0 <=? c then (c, cid (tail_frame s2), s2) else (c, 0%nat, s2).

(** [GSCore::dropData(num_bytes)]. *)
Fixpoint dropData (num_bytes : nat) (s : RxState) : RxState :=
  match num_bytes with
  | O => s
  | S n =>
      let '(c, id, s1) := readData_any s in
      let s2 := if 0 <=? c then with_eng s1 (set_error (eng s1) id) else s1 in
      dropData n s2
  end.

(** [GSCore::bufferIncomingData(c)]. *)
Definition bufferIncomingData (c : Z) (s : RxState) : RxState :=
  let next_head := ((rx_data_head s + 1) mod RX_DATA_SIZE)%nat in
  let s1 := if (next_head =? rx_data_tail s)%nat then dropData 1 s else s in
  with_data s1 (<[rx_data_head s1 := c]> (rx_data s1)) next_head.

(** [uint8_t free = (rx_data_tail - rx_data_head - 1) % sizeof(rx_data)]:
    the difference is an [int], converted to an unsigned type whose range
    [sizeof(rx_data)] divides. *)
Definition free_space (s : RxState) : nat :=
  Z.to_nat (((Z.of_nat (rx_data_tail s) - Z.of_nat (rx_data_head s) - 1)
             mod Z.of_nat RX_DATA_SIZE) mod 256).

(** [GSCore::bufferFrameHeader(&head_frame)]. *)
Definition bufferFrameHeader (s : RxState) : RxState :=
  if (rx_data_head s =? rx_data_tail s)%nat then
    with_tail s (rx_data_tail s) (head_frame s)
  else
    let s1 :=
      if (RX_DATA_SIZE - FRAME_SIZE <? rx_data_head s)%nat then
        let sa := if (rx_data_head s <? rx_data_tail s)%nat
                  then dropData (rx_data_tail s - rx_data_tail s) s else s in
        let sb := if (rx_data_tail sa =? 0)%nat then dropData 1 sa else sa in
        with_head sb 0
      else s in
    let free := free_space s1 in
    let s2 := if (free <? FRAME_SIZE)%nat then dropData (FRAME_SIZE - free) s1 else s1 in
    with_data s2 (write_bytes (rx_data_head s2) (frame_bytes (head_frame s2)) (rx_data s2))
      ((rx_data_head s2 + FRAME_SIZE) mod RX_INDEX_LIMIT).

(** Bytes between [tail] and [head], going round the ring. *)
Definition ring_used (s : RxState) : nat :=
  ((rx_data_head s + RX_DATA_SIZE - rx_data_tail s) mod RX_DATA_SIZE)%nat.

End RingBuffer.

(** An example layout for tests: a 16-byte ring and a 4-byte frame record
    [cid, length low byte, length high byte, udp_server]. *)
Definition ex_frame_bytes (f : RXFrame) : list Z :=
  [Z.of_nat (cid f); length f mod 256; length f / 256;
   if udp_server f then 1 else 0].
Definition ex_frame_of_bytes (l : list Z) : RXFrame :=
  mkRXFrame (Z.to_nat (byte_at l 0)) (byte_at l 1 + 256 * byte_at l 2)
    (negb (byte_at l 3 =? 0)) [0; 0; 0; 0] 0.

End Ring.

(** ** The SPI link framer: [processSpiSpecial], [readRaw], [writeRaw] *)
Module Spi.

(** The reserved SPI wire values of GSCore.h and the escape mask. *)
Record SpiCodes := mkSpiCodes {
  SPI_SPECIAL_ALL_ONE : Z;
  SPI_SPECIAL_ALL_ZERO : Z;
  SPI_SPECIAL_ACK : Z;
  SPI_SPECIAL_IDLE : Z;
  SPI_SPECIAL_XOFF : Z;
  SPI_SPECIAL_XON : Z;
  SPI_SPECIAL_ESC : Z;
  SPI_ESC_XOR : Z
}.

(** The framer state: two members of [GSCore], the function-static
    [errorcount] of processSpiSpecial, and [unrecoverableError]. *)
Record Framer := mkFramer {
  spi_prev_was_esc : bool;
  spi_xoff : bool;
  errorcount : Z;
  unrecoverableError : bool
}.

(** The transport seen from the engine: the bytes the module will clock
    out ([incoming]) and the bytes written to it so far ([sent]). *)
Record Bus := mkBus { incoming : list Z; sent : list Z }.

(** Which transport [begin] selected. *)
Inductive Transport := TSerial | TSpi | TNone.

Definition set_esc (st : Framer) (b : bool) : Framer :=
  mkFramer b (spi_xoff st) (errorcount st) (unrecoverableError st).
Definition set_xoff (st : Framer) (b : bool) : Framer :=
  mkFramer (spi_prev_was_esc st) b (errorcount st) (unrecoverableError st).
Definition set_errorcount (st : Framer) (n : Z) : Framer :=
  mkFramer (spi_prev_was_esc st) (spi_xoff st) n (unrecoverableError st).
Definition set_unrecoverable (st : Framer) (b : bool) : Framer :=
  mkFramer (spi_prev_was_esc st) (spi_xoff st) (errorcount st) b.

Section Framing.
Variable K : SpiCodes.

(** [GSCore::processSpiSpecial(c)]: the logical byte (or -1) and the
    framer state afterwards. *)
Definition processSpiSpecial (c : Z) (st : Framer) : Z * Framer :=
  if spi_prev_was_esc st then (Z.lxor c (SPI_ESC_XOR K), set_esc st false)
  else
    let st1 := if negb (c =? SPI_SPECIAL_ALL_ONE K) then set_errorcount st 0 else st in
    if c =? SPI_SPECIAL_ALL_ONE K then
      let n := (errorcount st1 + 1) mod 256 in
      if n >? 20 then (-1, set_errorcount (set_unrecoverable st1 true) 0)
      else (-1, set_errorcount st1 n)
    else if c =? SPI_SPECIAL_ALL_ZERO K then (-1, st1)
    else if c =? SPI_SPECIAL_ACK K then (-1, st1)
    else if c =? SPI_SPECIAL_IDLE K then (-1, st1)
    else if c =? SPI_SPECIAL_XOFF K then (-1, set_xoff st1 true)
    else if c =? SPI_SPECIAL_XON K then (-1, set_xoff st1 false)
    else if c =? SPI_SPECIAL_ESC K then (-1, set_esc st1 true)
    else (c, st1).

(** [GSCore::isSpiSpecial(c)]. *)
Definition isSpiSpecial (c : Z) : bool :=
  (c =? SPI_SPECIAL_ALL_ONE K) || (c =? SPI_SPECIAL_ALL_ZERO K)
  || (c =? SPI_SPECIAL_ACK K) || (c =? SPI_SPECIAL_IDLE K)
  || (c =? SPI_SPECIAL_XOFF K) || (c =? SPI_SPECIAL_XON K)
  || (c =? SPI_SPECIAL_ESC K).

(** [GSCore::transferSpi(out)]: one full-duplex byte exchange; a module
    with nothing queued clocks out IDLE. *)
Definition transferSpi (out : Z) (bus : Bus) : Z * Bus :=
  match incoming bus with
  | [] => (SPI_SPECIAL_IDLE K, mkBus [] (sent bus ++ [out]))
  | b :: rest => (b, mkBus rest (sent bus ++ [out]))
  end.

(** The [do { ... } while (c == -1 && --tries > 0)] loop of readRaw. *)
Fixpoint spi_read_loop (tries : nat) (st : Framer) (bus : Bus) : Z * Framer * Bus :=
  let (inb, bus1) := transferSpi (SPI_SPECIAL_IDLE K) bus in
  let (c, st1) := processSpiSpecial inb st in
  match tries with
  | O => (c, st1, bus1)
  | S t' => if (c =? -1) && (0 <? t')%nat then spi_read_loop t' st1 bus1
            else (c, st1, bus1)
  end.

(** [GSCore::readRaw()].  [pin_low] is "a data ready pin is present and
    low"; [tries] is the count readRaw picks (64, or 1 when polled again
    within MINIMUM_POLL_INTERVAL). *)
Definition readRaw (tr : Transport) (pin_low : bool) (tries : nat)
    (st : Framer) (bus : Bus) : Z * Framer * Bus :=
  if unrecoverableError st then (-1, st, bus)
  else
    match tr with
    | TSerial =>
        match incoming bus with
        | [] => (-1, st, bus)
        | b :: rest => (b, st, mkBus rest (sent bus))
        end
    | TSpi => if pin_low then (-1, st, bus) else spi_read_loop tries st bus
    | TNone => (-1, st, bus)
    end.

(** The rest of the engine, which [writeRaw] feeds every received
    logical byte to through [processIncoming]. *)
Variable R : Type.
Variable processIncoming : Z -> R -> R.

(** One wire exchange of writeRaw: [processIncoming(processSpiSpecial(transferSpi(out)))]. *)
Definition exchange (out : Z) (st : Framer) (r : R) (bus : Bus) : Framer * R * Bus :=
  let (inb, bus1) := transferSpi out bus in
  let (c, st1) := processSpiSpecial inb st in
  (st1, processIncoming c r, bus1).

(** The [while (len && tries > 0)] loop of writeRaw on the SPI path; each
    iteration consumes a byte of [buf] or one of [tries], so [fuel =
    length buf + tries] runs it to the end. *)
Fixpoint spi_write_loop (fuel : nat) (buf : list Z) (tries : nat)
    (st : Framer) (r : R) (bus : Bus) : Framer * R * Bus :=
  match fuel with
  | O => (st, r, bus)
  | S f =>
      match buf with
      | [] => (st, r, bus)
      | b :: buf' =>
          if (tries =? 0)%nat then (st, r, bus)
          else if unrecoverableError st then (st, r, bus)
          else if spi_xoff st then
            let '(st1, r1, bus1) := exchange (SPI_SPECIAL_IDLE K) st r bus in
            spi_write_loop f buf (tries - 1) st1 r1 bus1
          else if isSpiSpecial b then
            let '(st1, r1, bus1) := exchange (SPI_SPECIAL_ESC K) st r bus in
            let '(st2, r2, bus2) := exchange (Z.lxor b (SPI_ESC_XOR K)) st1 r1 bus1 in
            spi_write_loop f buf' tries st2 r2 bus2
          else
            let '(st1, r1, bus1) := exchange b st r bus in
            spi_write_loop f buf' tries st1 r1 bus1
      end
  end.

(** [GSCore::writeRaw(buf, len)]. *)
Definition writeRaw (tr : Transport) (buf : list Z) (st : Framer) (r : R) (bus : Bus)
    : Framer * R * Bus :=
  match tr with
  | TSerial =>
      if unrecoverableError st then (st, r, bus)
      else (st, r, mkBus (incoming bus) (sent bus ++ buf))
  | TSpi => spi_write_loop (List.length buf + 1024) buf 1024 st r bus
  | TNone => (st, r, bus)
  end.

End Framing.

(** [GSCore::end()] clears the latch. *)
Definition gs_end (st : Framer) : Framer := set_unrecoverable st false.

(** Feeding wire bytes to processSpiSpecial one after the other. *)
Fixpoint process_wire (K : SpiCodes) (ws : list Z) (st : Framer) : Framer :=
  match ws with
  | [] => st
  | w :: ws' => process_wire K ws' (snd (processSpiSpecial K w st))
  end.

End Spi.

(** ** Reading a reply: the line accumulator of [GSCore::readResponseInternal] *)
Module Reply.
Import Response Engine.

(** The locals of readResponseInternal that survive between bytes, the
    caller's [*connect_cid] and the engine. *)
Record Acc := mkAcc {
  buf : list Z;
  read : nat;
  line_start : nat;
  dropped_data : bool;
  skip_line : bool;
  connect_cid : option Z;
  engine : Engine
}.

(** The result of processing one byte: keep looping, or return a
    response (with [*len] set to the [read] of the state). *)
Inductive Outcome :=
  | Continue (a : Acc)
  | Return (res : GSResponse) (a : Acc).

Definition state_of (o : Outcome) : Acc :=
  match o with Continue a => a | Return _ a => a end.

Definition CR : Z := 13.
Definition LF : Z := 10.

(** [memmove(&buf[line_start - 1], &buf[line_start], read - line_start)]. *)
Definition shift_line_down (b : list Z) (ls rd : nat) : list Z :=
  take (ls - 1) b ++ take (rd - ls) (drop ls b) ++ drop (rd - 1) b.

Section Accumulate.
(** [MAX_RESPONSE_SIZE] of GSCore.h. *)
Variable MAX_RESPONSE_SIZE : nat.
(** The [keep_data] argument, whether a [callback] was given, and the
    initial [*len], the capacity of [buf]. *)
Variable keep_data has_callback : bool.
Variable cap : nat.

(** The body of the [while (true)] loop of readResponseInternal for a
    byte [c] read while [rx_state == GS_RX_IDLE] and [c != 0x1b] (the
    other bytes go to processIncoming and leave these locals alone). *)
Definition reply_step (c : Z) (a : Acc) : Outcome :=
  let rd := read a in
  let ls := line_start a in
  if (c =? CR) || (c =? LF) then
    if (rd - ls =? 0)%nat then Continue a
    else if skip_line a then
      Continue (mkAcc (buf a) ls ls (dropped_data a) false (connect_cid a) (engine a))
    else
      let line := take ((rd - ls) mod 256) (drop ls (buf a)) in
      let '(res, cc) := processResponseLine line (connect_cid a) in
      let e := match res with
               | GS_LINK_LOST => processDisassociation (engine a)
               | _ => engine a
               end in
      let unknown := match res with GS_UNKNOWN_RESPONSE => true | _ => false end in
      if keep_data && negb has_callback && negb (dropped_data a) && unknown then
        let '(b1, r1) := if (rd <? cap)%nat then (<[rd := CR]> (buf a), S rd)
                         else (buf a, rd) in
        let '(b2, r2) := if (r1 <? cap)%nat then (<[r1 := LF]> b1, S r1)
                         else (b1, r1) in
        Continue (mkAcc b2 r2 r2 (dropped_data a) false cc e)
      else
        let a' := mkAcc (buf a) ls ls (dropped_data a) false cc e in
        match res with
        | GS_UNKNOWN_RESPONSE | GS_CON_SUCCESS => Continue a'
        | _ => Return res a'
        end
  else if (rd <? cap)%nat then
    Continue (mkAcc (<[rd := c]> (buf a)) (S rd) ls (dropped_data a)
                (skip_line a) (connect_cid a) (engine a))
  else if (MAX_RESPONSE_SIZE <=? rd - ls)%nat then
    Continue (mkAcc (buf a) rd ls true true (connect_cid a) (engine a))
  else if (0 <? ls)%nat then
    (* [buf[read] = c] with [read == *len] is past the end of [buf] *)
    Continue (mkAcc (<[rd := c]> (shift_line_down (buf a) ls rd)) rd (ls - 1)
                true (skip_line a) (connect_cid a) (engine a))
  else
    Continue (mkAcc (buf a) rd ls true (skip_line a) (connect_cid a) (engine a)).

(** Running the loop over a sequence of such bytes until it returns. *)
Fixpoint reply_run (cs : list Z) (a : Acc) : Outcome :=
  match cs with
  | [] => Continue a
  | c :: cs' =>
      match reply_step c a with
      | Return res a' => Return res a'
      | Continue a' => reply_run cs' a'
      end
  end.

End Accumulate.

(** The bytes kept for the caller: everything before the current line. *)
Definition kept (a : Acc) : list Z := take (line_start a) (buf a).

End Reply.

(** ** Writing a command: [GSCore::writeCommand(fmt, args)] *)
Module Command.

(** [writeCommand] on a command whose formatted text is [s]:
    [vsnprintf(buf, sizeof(buf) - 2, ...)] into the 128-byte [buf] stores
    at most 125 characters and a NUL and returns the full length; the
    result is the bytes handed to writeRaw and whether the truncation
    message was logged. *)
Definition writeCommand (s : list Z) : list Z * bool :=
  let buf0 := repeat 0 128 in
  let n := List.length s in
  let buf1 := write_bytes 0 (take (Nat.min n (128 - 2 - 1)) s ++ [0]) buf0 in
  let '(len, logged) := if (128 - 2 <? n)%nat then ((128 - 2)%nat, true)
                        else (n, false) in
  let buf2 := <[len := 13]> buf1 in
  let buf3 := <[S len := 10]> buf2 in
  (take (S (S len)) buf3, logged).

End Command.

(** ** Notions used by the statements, and concrete states *)
Module Facts.
Import Ip Engine Ring.

(** The characters the [parseIpAddress] loop looks at: up to the first
    NUL, and at most [len] of them when [len] is not 0. *)
Fixpoint scanned (s : list Z) (bound : option nat) : list Z :=
  match s with
  | [] => []
  | c :: s' =>
      if c =? 0 then []
      else match bound with
           | Some O => []
           | _ => c :: scanned s' (option_map pred bound)
           end
  end.

Definition ip_input (str : list Z) (len : nat) : list Z :=
  scanned str (if (len =? 0)%nat then None else Some len).

Definition is_digit (c : Z) : bool := (chr "0"%char <=? c) && (c <=? chr "9"%char).
Definition is_ip_char (c : Z) : bool := is_digit c || (c =? chr "."%char).
Definition count_dots (l : list Z) : nat :=
  List.length (List.filter (fun c => c =? chr "."%char) l).

(** The decimal digits of an octet, without leading zeros. *)
Definition dec_octet (v : Z) : list Z :=
  if v <? 10 then [48 + v]
  else if v <? 100 then [48 + v / 10; 48 + v mod 10]
  else [48 + v / 100; 48 + (v / 10) mod 10; 48 + v mod 10].

(** The dotted quad [a.b.c.d]. *)
Definition dotted (a b c d : Z) : list Z :=
  dec_octet a ++ chr "."%char :: dec_octet b ++ chr "."%char :: dec_octet c
  ++ chr "."%char :: dec_octet d.

(** The octet digit steps of parseIpAddress over a run of digits. *)
Fixpoint octet_fold (ds : list Z) (v : Z) : option Z :=
  match ds with
  | [] => Some v
  | d :: ds' =>
      match octet_digit d v with
      | None => None
      | Some v' => octet_fold ds' v'
      end
  end.

(** A connection entry after [connections[cid].error = true;
    processDisconnect(cid)] on a connected CID. *)
Definition disconnected_with_error (c : Connection) : Connection :=
  mkConnection false true false (remote_ip c) (remote_port c) (local_port c).

Definition conn_idle : Connection := mkConnection false false false 0 0 0.
Definition conn_up : Connection := mkConnection true false false 0 0 0.

(** An engine with no connection and no event. *)
Definition engine0 : Engine := mkEngine (fun _ => conn_idle) false 0 INVALID_CID false.

(** Associated, CIDs 1 and 3 connected, an ASSOCIATED event not yet
    dispatched. *)
Definition engine_c3 : Engine :=
  mkEngine (fun j => if (j =? 1)%nat || (j =? 3)%nat then conn_up else conn_idle)
    true EVENT_ASSOCIATED INVALID_CID false.

(** A full 16-byte ring: the tail frame (CID 1) is used up, the record
    of the next frame (CID 2, 11 bytes) sits at the tail, followed by
    its 11 payload bytes. *)
Definition ring_c2 : RxState :=
  mkRxState ([2; 11; 0; 0] ++ repeat 7 11 ++ [0]) 15 0
    (mkRXFrame 2 11 false [0; 0; 0; 0] 0)
    (mkRXFrame 1 0 false [0; 0; 0; 0] 0) engine0.

(** A 16-byte ring holding 14 bytes of CID 1's frame, wrapped round:
    tail at 15, head at 13; a header for CID 3 has just been parsed. *)
Definition ring_c6 : RxState :=
  mkRxState (map Z.of_nat (seq 100 16)) 13 15
    (mkRXFrame 3 5 false [0; 0; 0; 0] 0)
    (mkRXFrame 1 14 false [0; 0; 0; 0] 0) engine0.

(** The accumulator invariant of readResponseInternal: the current line
    lies between [line_start] and [read], within the [cap] bytes of [buf]. *)
Definition acc_ok (cap : nat) (a : Reply.Acc) : Prop :=
  (Reply.line_start a <= Reply.read a <= cap)%nat /\ List.length (Reply.buf a) = cap.

(** An example set of reserved SPI wire values, for tests: ALL_ONE 0xff,
    ALL_ZERO 0x00, ACK 0xf3, IDLE 0xf5, XOFF 0xfa, XON 0xfd, ESC 0xfb,
    escape mask 0x20. *)
Definition ex_spi_codes : Spi.SpiCodes :=
  Spi.mkSpiCodes 255 0 243 245 250 253 251 32.

(** A framer in its initial state. *)
Definition framer0 : Spi.Framer := Spi.mkFramer false false 0 false.

(** A 5-byte reply buffer holding the kept line "ab\r\n" and the first
    byte "0" of the current line. *)
Definition acc_c7 : Reply.Acc :=
  Reply.mkAcc (bytes "ab" ++ [13; 10] ++ bytes "0") 5 4 false false None engine0.

End Facts.

(** ** Reading bulk data for one connection *)
Module Reading.
Import Engine Ring.

Section Readers.
Variable RX_DATA_SIZE FRAME_SIZE RX_INDEX_LIMIT : nat.
Variable frame_of_bytes : list Z -> RXFrame.

(** [GSCore::getFrameHeader(cid)]; [None] stands for [ANY_CID].  As in
    [getFrameHeader_any], the polling loop [while (tail_frame.length ==
    0) if (!processIncoming(readRaw())) return RXFrame();] run on an empty
    buffer is not modelled: here it returns [RXFrame()] at once, as when
    the module has nothing to send.  The statements about this function
    exclude that branch by their hypotheses. *)
Definition getFrameHeader (want : option nat) (s : RxState) : RXFrame * RxState :=
  if length (tail_frame s) =? 0 then
    if negb (rx_data_tail s =? rx_data_head s)%nat then
      let s1 := loadFrameHeader RX_DATA_SIZE FRAME_SIZE RX_INDEX_LIMIT frame_of_bytes s in
      match want with
      | None => (tail_frame s1, s1)
      | Some c => if (cid (tail_frame s1) =? c)%nat then (tail_frame s1, s1) else (no_frame, s1)
      end
    else (no_frame, s)
  else
    match want with
    | None => (tail_frame s, s)
    | Some c => if (cid (tail_frame s) =? c)%nat then (tail_frame s, s) else (no_frame, s)
    end.





End Readers.

End Reading.

(** ** The receive state machine: [GSCore::processIncoming] *)
Module Incoming.
Import Parse Ip Engine Ring.

(** The [rx_state] values. *)
Inductive RxMode :=
  | GS_RX_IDLE | GS_RX_ESC | GS_RX_ESC_Z | GS_RX_ESC_y_1 | GS_RX_ESC_y_2
  | GS_RX_ESC_y_3 | GS_RX_ESC_A | GS_RX_ASYNC | GS_RX_BULK.

(** The members processIncoming works on: [rx_async] is the fixed-size
    array (a list of its size), [ring] the ring buffer, both frames and
    the engine. *)
Record Rx := mkRx {
  rx_state : RxMode;
  rx_async : list Z;
  rx_async_len : nat;
  rx_async_left : Z;
  rx_async_subtype : Z;
  ring : RxState
}.

Definition with_mode (r : Rx) (m : RxMode) : Rx :=
  mkRx m (rx_async r) (rx_async_len r) (rx_async_left r) (rx_async_subtype r) (ring r).
Definition with_async (r : Rx) (a : list Z) (n : nat) : Rx :=
  mkRx (rx_state r) a n (rx_async_left r) (rx_async_subtype r) (ring r).
Definition with_left (r : Rx) (l : Z) : Rx :=
  mkRx (rx_state r) (rx_async r) (rx_async_len r) l (rx_async_subtype r) (ring r).
Definition with_subtype (r : Rx) (st : Z) : Rx :=
  mkRx (rx_state r) (rx_async r) (rx_async_len r) (rx_async_left r) st (ring r).
Definition with_ring (r : Rx) (s : RxState) : Rx :=
  mkRx (rx_state r) (rx_async r) (rx_async_len r) (rx_async_left r) (rx_async_subtype r) s.

Definition with_head_frame (s : RxState) (f : RXFrame) : RxState :=
  mkRxState (rx_data s) (rx_data_head s) (rx_data_tail s) f (tail_frame s) (eng s).

Definition set_cid (f : RXFrame) (c : nat) : RXFrame :=
  mkRXFrame c (length f) (udp_server f) (ip f) (port f).
Definition set_udp (f : RXFrame) (b : bool) : RXFrame :=
  mkRXFrame (cid f) (length f) b (ip f) (port f).
Definition set_ip (f : RXFrame) (a : list Z) : RXFrame :=
  mkRXFrame (cid f) (length f) (udp_server f) a (port f).
Definition set_port (f : RXFrame) (p : Z) : RXFrame :=
  mkRXFrame (cid f) (length f) (udp_server f) (ip f) p.

(** [if (rx_async_len < sizeof(rx_async)) rx_async[rx_async_len++] = c]. *)
Definition push_async (c : Z) (r : Rx) : Rx :=
  if (rx_async_len r <? List.length (rx_async r))%nat
  then with_async r (<[rx_async_len r := c]> (rx_async r)) (S (rx_async_len r))
  else r.

(** The index of the first [x] in [l], counting from [k]. *)
Fixpoint find_from (x : Z) (l : list Z) (k : nat) : option nat :=
  match l with
  | [] => None
  | y :: l' => if y =? x then Some k else find_from x l' (S k)
  end.

Section Machine.
Variable RX_DATA_SIZE FRAME_SIZE RX_INDEX_LIMIT : nat.
Variable frame_bytes : RXFrame -> list Z.
Variable frame_of_bytes : list Z -> RXFrame.
(** [max_for_type] of the type of [rx_async_left] (GSCore.h): its
    decrement wraps modulo [LEFT_MAX + 1], and [parseNumber] into it (the
    [uint8_t] or the [uint16_t] overload) rejects values above it. *)
Variable LEFT_MAX : Z.

Definition dec_left (l : Z) : Z := (l - 1) mod (LEFT_MAX + 1).

Definition parse_left (buf : list Z) : option Z :=
  match parseNumber16 buf 2 10 with
  | None => None
  | Some v => if v >? LEFT_MAX then None else Some v
  end.

(** The end of an <ESC>Z header: [<cid:1 hex><length:4 dec>].  The CID
    and the subtype below are single hex digits, at most 35, so the
    [uint8_t] and [uint16_t] overloads of [parseNumber] agree on them.
    A successful [parseNumber] stores its result even when a later one
    in the [&&] chain fails. *)
Definition finish_Z (r : Rx) : Rx :=
  let s := ring r in
  let hf := head_frame s in
  match parseNumber8 (rx_async r) 1 16 with
  | None => with_mode r GS_RX_IDLE
  | Some c =>
      let hf1 := set_cid hf (Z.to_nat c) in
      match parseNumber16 (drop 1 (rx_async r)) 4 10 with
      | None => with_mode (with_ring r (with_head_frame s hf1)) GS_RX_IDLE
      | Some len =>
          let s1 := with_head_frame s (set_udp (set_length hf1 len) false) in
          with_mode (with_ring r (bufferFrameHeader RX_DATA_SIZE FRAME_SIZE
                                    RX_INDEX_LIMIT frame_bytes frame_of_bytes s1))
            GS_RX_BULK
      end
  end.

(** The end of an <ESC>y header: [<cid><ip> <port>\t<length:4 dec>].  The
    two scans [while (p[n] != ' ') ++n] run over [rx_async]; [None] when a
    scan runs off the end of the array (the C++ code reads past it) or
    its [uint8_t] counter would wrap (it loops for ever). *)
Definition finish_y (r : Rx) : option Rx :=
  let a := rx_async r in
  match find_from 32 (drop 1 a) 0 with
  | None => None
  | Some iplen =>
    if (256 <=? iplen)%nat then None else
    let pstart := (1 + iplen + 1)%nat in
    match find_from 9 (drop pstart a) 0 with
    | None => None
    | Some portlen =>
      if (256 <=? portlen)%nat then None else
      let lstart := (pstart + portlen + 1)%nat in
      let s := ring r in
      let hf := head_frame s in
      let fail f := Some (with_mode (with_ring r (with_head_frame s f)) GS_RX_IDLE) in
      match parseNumber8 a 1 16 with
      | None => Some (with_mode r GS_RX_IDLE)
      | Some c =>
          let hf1 := set_cid hf (Z.to_nat c) in
          let (ipok, ipv) := parseIpAddress (drop 1 a) iplen in
          let hf2 := set_ip hf1 ipv in
          if negb ipok then fail hf2 else
          match parseNumber16 (drop pstart a) portlen 10 with
          | None => fail hf2
          | Some p =>
              let hf3 := set_port hf2 p in
              match parseNumber16 (drop lstart a) 4 10 with
              | None => fail hf3
              | Some len =>
                  let s1 := with_head_frame s (set_udp (set_length hf3 len) true) in
                  Some (with_mode (with_ring r (bufferFrameHeader RX_DATA_SIZE FRAME_SIZE
                          RX_INDEX_LIMIT frame_bytes frame_of_bytes s1)) GS_RX_BULK)
              end
          end
      end
    end
  end.

(** The end of an <ESC>A header: [<subtype:1 hex><length:2 dec>]. *)
Definition finish_A (r : Rx) : Rx :=
  match parseNumber8 (rx_async r) 1 16 with
  | None => with_mode r GS_RX_IDLE
  | Some st =>
      let r1 := with_subtype r st in
      match parse_left (drop 1 (rx_async r)) with
      | None => with_mode r1 GS_RX_IDLE
      | Some l => with_async (with_left (with_mode r1 GS_RX_ASYNC) l) (rx_async r) 0
      end
  end.

(** The end of an async payload: back to [GS_RX_IDLE], then processAsync
    on the [rx_async_len] bytes received (its result is only logged). *)
Definition finish_async (r : Rx) : Rx :=
  let r1 := with_mode r GS_RX_IDLE in
  let e := snd (processAsync (take (rx_async_len r) (rx_async r)) (rx_async_subtype r)
                  (eng (ring r))) in
  with_ring r1 (with_eng (ring r) e).

(** The header and payload states: store the byte, then count it down. *)
Definition count_down (r : Rx) (k : Rx -> option Rx) : option Rx :=
  let l := dec_left (rx_async_left r) in
  let r1 := with_left r l in
  if l =? 0 then k r1 else Some r1.

(** [GSCore::processIncoming(c)]: its result and the members afterwards;
    [None] only where [finish_y] is [None]. *)
Definition processIncoming (c : Z) (r : Rx) : option (bool * Rx) :=
  if c <? 0 then Some (false, r)
  else
    option_map (pair true)
    match rx_state r with
    | GS_RX_IDLE => Some (if c =? 27 then with_mode r GS_RX_ESC else r)
    | GS_RX_ESC =>
        Some (if c =? chr "Z"%char then
                with_left (with_async (with_mode r GS_RX_ESC_Z) (rx_async r) 0) 5
              else if c =? chr "A"%char then
                with_left (with_async (with_mode r GS_RX_ESC_A) (rx_async r) 0) 3
              else if c =? chr "y"%char then
                with_async (with_mode r GS_RX_ESC_y_1) (rx_async r) 0
              else with_mode r GS_RX_IDLE)
    | GS_RX_ESC_Z => count_down (push_async c r) (fun r1 => Some (finish_Z r1))
    | GS_RX_ESC_y_1 =>
        let r1 := push_async c r in
        Some (if c =? 32 then with_mode r1 GS_RX_ESC_y_2 else r1)
    | GS_RX_ESC_y_2 =>
        let r1 := push_async c r in
        Some (if c =? 9 then with_left (with_mode r1 GS_RX_ESC_y_3) 4 else r1)
    | GS_RX_ESC_y_3 => count_down (push_async c r) finish_y
    | GS_RX_ESC_A => count_down (push_async c r) (fun r1 => Some (finish_A r1))
    | GS_RX_ASYNC => count_down (push_async c r) (fun r1 => Some (finish_async r1))
    | GS_RX_BULK =>
        let s1 := bufferIncomingData RX_DATA_SIZE FRAME_SIZE RX_INDEX_LIMIT
                    frame_of_bytes c (ring r) in
        let n := (length (head_frame s1) - 1) mod 65536 in
        let r1 := with_ring r (with_head_frame s1 (set_length (head_frame s1) n)) in
        Some (if n =? 0 then with_mode r1 GS_RX_IDLE else r1)
    end.

(** Feeding logical bytes to processIncoming one after the other. *)
Fixpoint feed (cs : list Z) (r : Rx) : option Rx :=
  match cs with
  | [] => Some r
  | c :: cs' =>
      match processIncoming c r with
      | None => None
      | Some (_, r1) => feed cs' r1
      end
  end.

End Machine.

End Incoming.

(** ** Writing bulk data: [GSCore::writeData(cid, buf, len)] *)
Module Bulk.
Import Engine.

(** The digit character [printf] uses for a digit value (lower case). *)
Definition hex_char (d : Z) : Z := if d <? 10 then chr "0"%char + d else chr "a"%char + (d - 10).

(** The digits of [n] in [base], most significant first, prepended to
    [acc]; [fuel] bounds their number. *)
Fixpoint to_digits (fuel : nat) (base n : Z) (acc : list Z) : list Z :=
  match fuel with
  | O => acc
  | S f =>
      let acc' := hex_char (n mod base) :: acc in
      if n <? base then acc' else to_digits f base (n / base) acc'
  end.

(** [printf("%x", n)] and [printf("%04d", n)] for the unsigned values
    writeData formats. *)
Definition fmt_x (n : Z) : list Z := to_digits 20 16 n [].
Definition fmt_04d (n : Z) : list Z :=
  let ds := to_digits 20 10 n [] in repeat (chr "0"%char) (4 - List.length ds) ++ ds.

(** The 7 characters [snprintf(header, 8, "\x1bZ%x%04d", cid, len)]
    leaves before its NUL. *)
Definition data_header (c : nat) (len : nat) : list Z :=
  take 7 ([27; chr "Z"%char] ++ fmt_x (Z.of_nat c) ++ fmt_04d (Z.of_nat len)).

(** [writeData] sending the [List.length buf] bytes of [buf]: the result,
    the bytes handed to writeRaw (the first three header bytes, then,
    after an <ESC>O, the other four and the data) and the replies left.
    [replies] are the results of the successive [readDataResponse()]
    calls; when they run out, it times out and returns false.  Each
    recursive call is on a shorter buffer, so [fuel = len + 1] runs it to
    the end. *)
Fixpoint writeData_loop (fuel : nat) (c : nat) (buf : list Z) (replies : list bool)
    : bool * list Z * list bool :=
  match fuel with
  | O => (false, [], replies)
  | S f =>
      if (MAX_CID <? c)%nat then (false, [], replies)
      else if (1400 <? List.length buf)%nat then
        let '(ok1, w1, rs1) := writeData_loop f c (take 1400 buf) replies in
        if ok1 then
          let '(ok2, w2, rs2) := writeData_loop f c (drop 1400 buf) rs1 in
          (ok2, w1 ++ w2, rs2)
        else (false, w1, rs1)
      else
        let hdr := data_header c (List.length buf) in
        match replies with
        | [] => (false, take 3 hdr, [])
        | ok :: rs => if ok then (true, hdr ++ buf, rs) else (false, take 3 hdr, rs)
        end
  end.

Definition writeData (c : nat) (buf : list Z) (replies : list bool) : bool * list Z * list bool :=
  writeData_loop (S (List.length buf)) c buf replies.

End Bulk.

(** ** Notions used by the further statements *)
Module Notions.
Import Parse Spi Bulk.

(** The value of a sequence of digit values in [base], most significant
    first. *)
Definition horner (base : Z) (vs : list Z) : Z := fold_left (fun r d => r * base + d) vs 0.

(** The wire bytes the SPI branch of writeRaw sends for a data byte [b]:
    [ESC] and [b ^ SPI_ESC_XOR] for a reserved value, [b] itself
    otherwise. *)
Definition spi_encode (K : SpiCodes) (b : Z) : list Z :=
  if isSpiSpecial K b then [SPI_SPECIAL_ESC K; Z.lxor b (SPI_ESC_XOR K)] else [b].

(** The seven reserved wire values are distinct, as the case labels of
    the [switch] in processSpiSpecial and isSpiSpecial must be. *)
Definition codes_distinct (K : SpiCodes) : Prop :=
  NoDup [SPI_SPECIAL_ALL_ONE K; SPI_SPECIAL_ALL_ZERO K; SPI_SPECIAL_ACK K;
         SPI_SPECIAL_IDLE K; SPI_SPECIAL_XOFF K; SPI_SPECIAL_XON K; SPI_SPECIAL_ESC K].

(** A buffer cut into pieces of 1400 bytes and a last one of at most 1400. *)
Fixpoint chunks (fuel : nat) (buf : list Z) : list (list Z) :=
  match fuel with
  | O => [buf]
  | S f => if (1400 <? List.length buf)%nat then take 1400 buf :: chunks f (drop 1400 buf)
           else [buf]
  end.

(** The bytes writeData hands to writeRaw when every chunk is accepted. *)
Definition data_frames (c : nat) (buf : list Z) : list Z :=
  List.concat (map (fun ch => data_header c (List.length ch) ++ ch)
                   (chunks (List.length buf) buf)).

End Notions.

Module RingNotions.
Import Ring.

(** The bytes buffered in the ring, oldest first: the [ring_used] bytes
    from [rx_data_tail] on, going round. *)
Definition ring_contents (N : nat) (s : RxState) : list Z :=
  map (fun k => byte_at (rx_data s) ((rx_data_tail s + k) mod N)) (seq 0 (ring_used N s)).

(** Both cursors inside a ring of [N] bytes, held in an array of [N]. *)
Definition ring_wf (N : nat) (s : RxState) : Prop :=
  (0 < N)%nat /\ (rx_data_head s < N)%nat /\ (rx_data_tail s < N)%nat /\
  List.length (rx_data s) = N.

(** A 16-byte ring holding the 4 bytes "abcd" at slots 14, 15, 0, 1, of
    which the first 3 remain in a frame of CID 2. *)
Definition ex_ring : RxState :=
  mkRxState ([99; 100] ++ repeat 0 12 ++ [97; 98]) 2 14 no_frame
    (mkRXFrame 2 3 false [0; 0; 0; 0] 0) Facts.engine0.

End RingNotions.

(** ** Writing a UDP server frame: [GSCore::writeData(cid, ip, port, buf, len)] *)
Module BulkUdp.
Import Engine Bulk.

(** The characters [snprintf(out, size, ...)] stores for the text [t]:
    at most [size - 1] of them, then a NUL.  It returns [List.length t]
    whether or not they fit. *)
Definition snprintf_store (size : nat) (t : list Z) : list Z := take (size - 1) t ++ [0].

(** A [char] array of [size] bytes after [snprintf] into it: the stored
    characters, then bytes never written ([None]). *)
Definition snprintf_array (size : nat) (t : list Z) : list (option Z) :=
  let st := snprintf_store size t in map Some st ++ repeat None (size - List.length st).

(** The string a [char] array holds for [%s]: the bytes before the first NUL. *)
Fixpoint cstr (l : list Z) : list Z :=
  match l with
  | [] => []
  | c :: l' => if c =? 0 then [] else c :: cstr l'
  end.

(** [printf("%u", n)] and [printf("%d", n)] for a value that is not
    negative. *)
Definition fmt_u (n : Z) : list Z := to_digits 20 10 n [].

(** Reading [n] bytes from index [i] of an array: [None] when this reads
    past its end or reads a byte never written. *)
Fixpoint all_some (l : list (option Z)) : option (list Z) :=
  match l with
  | [] => Some []
  | None :: _ => None
  | Some x :: l' => option_map (cons x) (all_some l')
  end.

Definition read_array (a : list (option Z)) (i n : nat) : option (list Z) :=
  if (i + n <=? List.length a)%nat then all_some (take n (drop i a)) else None.

(** [ipbuf] after [snprintf(ipbuf, sizeof(ipbuf), "%d.%d.%d.%d",
    ip[0], ip[1], ip[2], ip[3])]; the octets are [uint8_t]. *)
Definition ipbuf (o1 o2 o3 o4 : Z) : list Z :=
  snprintf_store 16 (fmt_u o1 ++ [chr "."%char] ++ fmt_u o2 ++ [chr "."%char] ++
                     fmt_u o3 ++ [chr "."%char] ++ fmt_u o4).

(** The text of [snprintf(header, sizeof(header),
    "\x1bY%x%s:%u:%04d", cid, ipbuf, port, len)]; [headerlen] is its
    length. *)
Definition udp_header_text (c : nat) (o1 o2 o3 o4 port : Z) (len : nat) : list Z :=
  [27; chr "Y"%char] ++ fmt_x (Z.of_nat c) ++ cstr (ipbuf o1 o2 o3 o4) ++ [chr ":"%char] ++
  fmt_u port ++ [chr ":"%char] ++ fmt_04d (Z.of_nat len).

(** [writeData(cid, ip, port, buf, len)] sending the [List.length buf]
    bytes of [buf]: the result, the bytes handed to writeRaw and the
    replies left, or [None] when [writeRaw(header + 3, headerlen - 3)]
    reads past the 28 bytes of [header] (or a byte of it never written).
    [replies] are the results of the successive [readDataResponse()]
    calls, as for [Bulk.writeData]. *)
Definition writeDataUdp (c : nat) (o1 o2 o3 o4 port : Z) (buf : list Z) (replies : list bool)
    : option (bool * list Z * list bool) :=
  if (MAX_CID <? c)%nat then Some (false, [], replies)
  else if (1400 <? List.length buf)%nat then Some (false, [], replies)
  else
    let text := udp_header_text c o1 o2 o3 o4 port (List.length buf) in
    let headerlen := List.length text in
    let header := snprintf_array 28 text in
    match read_array header 0 3 with
    | None => None
    | Some h3 =>
        match replies with
        | [] => Some (false, h3, [])
        | ok :: rs =>
            if ok then
              match read_array header 3 (headerlen - 3) with
              | None => None
              | Some h => Some (true, h3 ++ h ++ buf, rs)
              end
            else Some (false, h3, rs)
        end
    end.

End BulkUdp.

(** * Properties *)
Module ResponseProofs.
Import Response.

(** C1: classification of completed reply lines.  "0" is SUCCESS with no
    argument, "0 foo" is UNKNOWN (unexpected argument), "OK" is SUCCESS,
    "217" is UNKNOWN (no valid 1- or 2-digit code followed by a space or
    nothing), and "3" with a NULL [connect_cid] is UNKNOWN; none of them
    writes [*connect_cid]. *)
Theorem processResponseLine_classification :
  (forall cc, processResponseLine (bytes "0") cc = (GS_SUCCESS, cc)) /\
  (forall cc, processResponseLine (bytes "0 foo") cc = (GS_UNKNOWN_RESPONSE, cc)) /\
  (forall cc, processResponseLine (bytes "OK") cc = (GS_SUCCESS, cc)) /\
  (forall cc, processResponseLine (bytes "217") cc = (GS_UNKNOWN_RESPONSE, cc)) /\
  processResponseLine (bytes "3") None = (GS_UNKNOWN_RESPONSE, None).
Proof. repeat split; reflexivity. Qed.

End ResponseProofs.

Module IpProofs.
Import Ip Facts.

Lemma ip_loop_true_scanned (s : list Z) :
  forall bound i ip, (i <= 3)%nat -> fst (ip_loop s bound i ip) = true ->
  Forall (fun c => is_ip_char c = true) (scanned s bound) /\
  (i + count_dots (scanned s bound) <= 3)%nat.
Proof.
  induction s as [|c s IH]; intros bound i ip Hi Hres; simpl in *.
  - split; [constructor | unfold count_dots; simpl; lia].
  - destruct (c =? 0) eqn:Hc0.
    { split; [constructor | unfold count_dots; simpl; lia]. }
    assert (Hstep : forall b', bound = b' ->
      match b' with Some O => False | _ => True end ->
      Forall (fun c0 => is_ip_char c0 = true) (c :: scanned s (option_map pred bound)) /\
      (i + count_dots (c :: scanned s (option_map pred bound)) <= 3)%nat).
    { intros b' Hb Hnz. subst b'.
      assert (Hres' : match ip_step c i ip with
                      | None => (false, ip)
                      | Some (i', ip') => ip_loop s (option_map pred bound) i' ip'
                      end.1 = true)
        by (destruct bound as [[|k]|]; [contradiction| exact Hres | exact Hres]).
      unfold ip_step in Hres'.
      destruct (c =? chr "."%char) eqn:Hdot.
      - destruct (4 <=? S i)%nat eqn:H4; [discriminate|].
        apply Nat.leb_gt in H4.
        destruct (IH _ (S i) _ ltac:(lia) Hres') as [Hf Hc].
        split.
        + constructor; [unfold is_ip_char; rewrite Hdot; apply orb_true_r | exact Hf].
        + unfold count_dots in *; cbn [List.filter]; rewrite Hdot; cbn [List.length]; lia.
      - destruct ((c <? chr "0"%char) || (chr "9"%char <? c)) eqn:Hrange; [discriminate|].
        destruct (octet_digit c (byte_at ip i)) as [v|]; [|discriminate].
        destruct (IH _ _ _ Hi Hres') as [Hf Hc].
        split.
        + constructor; [|exact Hf].
          unfold is_ip_char, is_digit.
          apply orb_false_iff in Hrange as [H1 H2].
          apply Z.ltb_ge in H1; apply Z.ltb_ge in H2.
          apply orb_true_intro; left; apply andb_true_intro; split; apply Z.leb_le; lia.
        + unfold count_dots in *; cbn [List.filter]; rewrite Hdot; exact Hc. }
    destruct bound as [[|k]|].
    + split; [constructor | unfold count_dots; simpl; lia].
    + apply (Hstep (Some (S k))); auto.
    + apply (Hstep None); auto.
Qed.

Lemma octet_fold_dec_octet_check :
  forallb (fun n => match octet_fold (dec_octet (Z.of_nat n)) 0 with
                    | Some v => (v =? Z.of_nat n) && forallb is_digit (dec_octet (Z.of_nat n))
                    | None => false
                    end) (seq 0 256) = true.
Proof. vm_compute. reflexivity. Qed.

Lemma octet_fold_dec_octet (v : Z) :
  0 <= v <= 255 ->
  octet_fold (dec_octet v) 0 = Some v /\ Forall (fun c => is_digit c = true) (dec_octet v).
Proof.
  intros Hv.
  pose proof octet_fold_dec_octet_check as Hc.
  rewrite forallb_forall in Hc.
  specialize (Hc (Z.to_nat v)).
  rewrite Z2Nat.id in Hc by lia.
  assert (Hin : In (Z.to_nat v) (seq 0 256)) by (apply in_seq; lia).
  specialize (Hc Hin).
  destruct (octet_fold (dec_octet v) 0) as [w|]; [|discriminate].
  apply andb_true_iff in Hc as [Hw Hd].
  apply Z.eqb_eq in Hw; subst w.
  split; [reflexivity|].
  apply List.Forall_forall; intros x Hx.
  rewrite forallb_forall in Hd; auto.
Qed.

Lemma byte_at_lookup (l : list Z) (i : nat) (v : Z) : l !! i = Some v -> byte_at l i = v.
Proof.
  revert i; induction l as [|x l IH]; intros [|i] H; simpl in *; try discriminate.
  - injection H; auto.
  - unfold byte_at; simpl; apply IH; exact H.
Qed.

Lemma ip_loop_digits (ds : list Z) :
  forall s i ip v0 v, (i < 4)%nat -> ip !! i = Some v0 ->
  Forall (fun c => is_digit c = true) ds -> octet_fold ds v0 = Some v ->
  ip_loop (ds ++ s) None i ip = ip_loop s None i (<[i := v]> ip).
Proof.
  induction ds as [|d ds IH]; intros s i ip v0 v Hi Hlk Hd Hf; simpl in *.
  - injection Hf as <-. rewrite list_insert_id by exact Hlk. reflexivity.
  - inversion Hd as [|? ? Hdig Hds]; subst.
    unfold is_digit in Hdig; apply andb_true_iff in Hdig as [Hd1 Hd2].
    apply Z.leb_le in Hd1; apply Z.leb_le in Hd2.
    change (chr "0"%char) with 48 in Hd1; change (chr "9"%char) with 57 in Hd2.
    assert (Hnz : (d =? 0) = false) by (apply Z.eqb_neq; lia).
    rewrite Hnz.
    destruct (octet_digit d v0) as [v'|] eqn:Hod; [|discriminate].
    unfold ip_step.
    assert (Hnd : (d =? chr "."%char) = false) by (apply Z.eqb_neq; change (chr "."%char) with 46; lia).
    assert (Hnr : ((d <? chr "0"%char) || (chr "9"%char <? d)) = false).
    { change (chr "0"%char) with 48; change (chr "9"%char) with 57.
      apply orb_false_iff; split; apply Z.ltb_ge; lia. }
    rewrite Hnd, Hnr, (byte_at_lookup _ _ _ Hlk), Hod.
    simpl.
    assert (Hlt : (i < length ip)%nat) by (apply lookup_lt_is_Some_1; eauto).
    rewrite (IH s i (<[i := v']> ip) v' v Hi) by
      (first [apply list_lookup_insert_eq; exact Hlt | assumption]).
    rewrite list_insert_insert_eq. reflexivity.
Qed.

Lemma parse_dotted (a b c d : Z) :
  0 <= a <= 255 -> 0 <= b <= 255 -> 0 <= c <= 255 -> 0 <= d <= 255 ->
  parseIpAddress (dotted a b c d) 0 = (true, [a; b; c; d]).
Proof.
  intros Ha Hb Hc Hd.
  destruct (octet_fold_dec_octet a Ha) as [Fa Da].
  destruct (octet_fold_dec_octet b Hb) as [Fb Db].
  destruct (octet_fold_dec_octet c Hc) as [Fc Dc].
  destruct (octet_fold_dec_octet d Hd) as [Fd Dd].
  unfold parseIpAddress, dotted; simpl.
  rewrite (ip_loop_digits _ _ 0 _ 0 a) by (auto; lia).
  simpl.
  rewrite (ip_loop_digits _ _ 1 _ 0 b) by (auto; lia).
  simpl.
  rewrite (ip_loop_digits _ _ 2 _ 0 c) by (auto; lia).
  simpl.
  rewrite <- (app_nil_r (dec_octet d)).
  rewrite (ip_loop_digits _ _ 3 _ 0 d) by (auto; lia).
  reflexivity.
Qed.

(** C5 (amended): [parseIpAddress] returns false whenever the characters
    it scans (up to a NUL, and at most [len] of them when [len] is not 0)
    contain one that is neither a digit nor '.', or more than three '.'
    (more than four octets); it accepts every dotted quad [a.b.c.d] with
    octets 0..255 written without leading zeros, with exactly those
    octets; and it does not require four non-empty octets: the empty
    string, "1.2" and "1..2" are accepted. *)
Theorem parseIpAddress_accepts_rejects :
  (forall (str : list Z) (len : nat), fst (parseIpAddress str len) = true ->
     Forall (fun c => is_ip_char c = true) (ip_input str len) /\
     (count_dots (ip_input str len) <= 3)%nat) /\
  (forall a b c d : Z, 0 <= a <= 255 -> 0 <= b <= 255 -> 0 <= c <= 255 ->
     0 <= d <= 255 -> parseIpAddress (dotted a b c d) 0 = (true, [a; b; c; d])) /\
  fst (parseIpAddress [] 0) = true /\
  fst (parseIpAddress (bytes "1.2") 0) = true /\
  fst (parseIpAddress (bytes "1..2") 0) = true.
Proof.
  split; [|split; [exact parse_dotted | repeat split; reflexivity]].
  intros str len H.
  destruct (ip_loop_true_scanned str _ 0 [0; 0; 0; 0] ltac:(lia) H) as [Hf Hc].
  split; [exact Hf | unfold ip_input; lia].
Qed.

(** Witness of C5 at "192.168.0.1" and at "1.2" with [len = 3]. *)
Lemma parseIpAddress_accepts_rejects_witness :
  parseIpAddress (dotted 192 168 0 1) 0 = (true, [192; 168; 0; 1]) /\
  fst (parseIpAddress (bytes "1.2") 3) = true /\
  (count_dots (ip_input (bytes "1.2") 3) <= 3)%nat.
Proof.
  split.
  - apply (proj1 (proj2 parseIpAddress_accepts_rejects)); lia.
  - split; [reflexivity|].
    exact (proj2 (proj1 parseIpAddress_accepts_rejects (bytes "1.2"%string) 3%nat eq_refl)).
Defined.

(** C5 counterexample: "1.2", which is not a dotted quad (one '.'), is
    accepted; so is "1.2.3.260", whose last octet is above 255 (it is
    stored as 260 mod 256 = 4). *)
Lemma parseIpAddress_accepts_two_octets :
  fst (parseIpAddress (bytes "1.2") 0) = true /\ count_dots (bytes "1.2") = 1%nat /\
  parseIpAddress (bytes "1.2.3.260") 0 = (true, [1; 2; 3; 4]).
Proof. repeat split; vm_compute; reflexivity. Qed.

End IpProofs.

Module EngineProofs.
Import Parse Engine Facts.

(** ** Event bits *)

Lemma has_event_testbit (ev k : Z) :
  0 <= k -> has_event ev (Z.shiftl 1 k) = Z.testbit ev k.
Proof.
  intros Hk. unfold has_event.
  destruct (Z.testbit ev k) eqn:T.
  - apply negb_true_iff, Z.eqb_neq. intros H.
    assert (Hb : Z.testbit (Z.land ev (Z.shiftl 1 k)) k = true).
    { rewrite Z.land_spec, Z.shiftl_1_l, Z.pow2_bits_eqb, T, Z.eqb_refl by lia.
      reflexivity. }
    rewrite H, Z.bits_0 in Hb. discriminate.
  - apply negb_false_iff, Z.eqb_eq. apply Z.bits_inj'. intros j Hj.
    rewrite Z.land_spec, Z.bits_0, Z.shiftl_1_l, Z.pow2_bits_eqb by lia.
    destruct (Z.eqb_spec k j) as [<-|]; [rewrite T; reflexivity | apply andb_false_r].
Qed.

Lemma testbit_set_flag (ev k j : Z) :
  0 <= k -> Z.testbit (Z.lor ev (Z.shiftl 1 k)) j = Z.testbit ev j || (k =? j).
Proof. intros Hk. rewrite Z.lor_spec, Z.shiftl_1_l, Z.pow2_bits_eqb by lia. reflexivity. Qed.

Lemma testbit_clear_flag (ev k j : Z) :
  0 <= k -> 0 <= j ->
  Z.testbit (Z.land ev (Z.lnot (Z.shiftl 1 k))) j = Z.testbit ev j && negb (k =? j).
Proof.
  intros Hk Hj. rewrite Z.land_spec, Z.lnot_spec, Z.shiftl_1_l, Z.pow2_bits_eqb by lia.
  reflexivity.
Qed.

(** The four event flags as bit tests. *)
Lemma has_event_flags (ev : Z) :
  has_event ev EVENT_ASSOCIATED = Z.testbit ev 0 /\
  has_event ev EVENT_DISASSOCIATED = Z.testbit ev 1 /\
  has_event ev EVENT_NCM_CONNECTED = Z.testbit ev 2 /\
  has_event ev EVENT_NCM_DISCONNECTED = Z.testbit ev 3.
Proof. unfold EVENT_ASSOCIATED, EVENT_DISASSOCIATED, EVENT_NCM_CONNECTED,
  EVENT_NCM_DISCONNECTED. repeat split; apply has_event_testbit; lia. Qed.

Ltac event_bits :=
  repeat match goal with
  | |- context [has_event ?ev EVENT_ASSOCIATED] => rewrite (proj1 (has_event_flags ev))
  | |- context [has_event ?ev EVENT_DISASSOCIATED] =>
      rewrite (proj1 (proj2 (has_event_flags ev)))
  | |- context [has_event ?ev EVENT_NCM_CONNECTED] =>
      rewrite (proj1 (proj2 (proj2 (has_event_flags ev))))
  | |- context [has_event ?ev EVENT_NCM_DISCONNECTED] =>
      rewrite (proj2 (proj2 (proj2 (has_event_flags ev))))
  end.

(** ** processDisconnect *)

Lemma processDisconnect_connections (cid : nat) (e : Engine) (j : nat) :
  connections (processDisconnect cid e) j =
  if (j =? cid)%nat && connected (connections e cid)
  then mkConnection false (error (connections e cid)) false
         (remote_ip (connections e cid)) (remote_port (connections e cid))
         (local_port (connections e cid))
  else connections e j.
Proof.
  unfold processDisconnect.
  destruct (connected (connections e cid)) eqn:C; cbn [negb].
  - destruct (cid =? ncm_auto_cid _)%nat; [destruct (has_event _ _)|]; cbn;
      destruct (j =? cid)%nat; reflexivity.
  - rewrite andb_false_r. reflexivity.
Qed.

Lemma processDisconnect_associated (cid : nat) (e : Engine) :
  associated (processDisconnect cid e) = associated e.
Proof.
  unfold processDisconnect.
  destruct (negb _); [reflexivity|].
  destruct (cid =? _)%nat; [destruct (has_event _ _)|]; reflexivity.
Qed.

Lemma processDisconnect_bits (cid : nat) (e : Engine) (j : Z) :
  0 <= j -> j <> 2 -> j <> 3 ->
  Z.testbit (events (processDisconnect cid e)) j = Z.testbit (events e) j.
Proof.
  intros Hj H2 H3. unfold processDisconnect.
  destruct (negb _); [reflexivity|].
  destruct (cid =? _)%nat; [|reflexivity].
  destruct (has_event _ _); cbn [events set_events set_ncm_auto_cid set_connection].
  - unfold EVENT_NCM_CONNECTED. rewrite testbit_clear_flag by lia.
    replace (2 =? j) with false by (symmetry; apply Z.eqb_neq; lia).
    apply andb_true_r.
  - unfold EVENT_NCM_DISCONNECTED. rewrite testbit_set_flag by lia.
    replace (3 =? j) with false by (symmetry; apply Z.eqb_neq; lia).
    apply orb_false_r.
Qed.

(** ** The loop of processDisassociation *)

Lemma set_error_connections (e : Engine) (cid j : nat) :
  connections (set_error e cid) j =
  if (j =? cid)%nat
  then mkConnection (connected (connections e cid)) true (ssl (connections e cid))
         (remote_ip (connections e cid)) (remote_port (connections e cid))
         (local_port (connections e cid))
  else connections e j.
Proof. reflexivity. Qed.

Lemma disconnect_all_connections (n : nat) :
  forall cid e j,
  connections (disconnect_all n cid e) j =
  if (cid <=? j)%nat && (j <? cid + n)%nat && connected (connections e j)
  then disconnected_with_error (connections e j)
  else connections e j.
Proof.
  induction n as [|n IH]; intros cid e j; cbn [disconnect_all].
  - destruct (Nat.leb_spec cid j), (Nat.ltb_spec j (cid + 0)); try lia; reflexivity.
  - set (e' := if connected (connections e cid)
               then processDisconnect cid (set_error e cid) else e).
    assert (Hs : forall k, connections e' k =
              if (k =? cid)%nat && connected (connections e cid)
              then disconnected_with_error (connections e cid)
              else connections e k).
    { intros k. unfold e'.
      destruct (connected (connections e cid)) eqn:C.
      - rewrite processDisconnect_connections, !set_error_connections,
          Nat.eqb_refl, C.
        destruct (k =? cid)%nat; reflexivity.
      - rewrite andb_false_r. reflexivity. }
    rewrite IH, !Hs.
    destruct (Nat.eqb_spec j cid) as [->|Hne].
    + rewrite Nat.leb_refl.
      destruct (Nat.leb_spec (S cid) cid); [lia|].
      destruct (Nat.ltb_spec cid (cid + S n)); [|lia].
      reflexivity.
    + cbn [andb].
      destruct (Nat.leb_spec (S cid) j), (Nat.ltb_spec j (S cid + n)),
        (Nat.leb_spec cid j), (Nat.ltb_spec j (cid + S n)); try lia; reflexivity.
Qed.

Lemma disconnect_all_associated (n : nat) :
  forall cid e, associated (disconnect_all n cid e) = associated e.
Proof.
  induction n as [|n IH]; intros cid e; cbn [disconnect_all]; [reflexivity|].
  rewrite IH. destruct (connected _); [|reflexivity].
  rewrite processDisconnect_associated. reflexivity.
Qed.

Lemma disconnect_all_bits (n : nat) :
  forall cid e j, 0 <= j -> j <> 2 -> j <> 3 ->
  Z.testbit (events (disconnect_all n cid e)) j = Z.testbit (events e) j.
Proof.
  induction n as [|n IH]; intros cid e j Hj H2 H3; cbn [disconnect_all]; [reflexivity|].
  rewrite IH by assumption. destruct (connected _); [|reflexivity].
  rewrite processDisconnect_bits by assumption. reflexivity.
Qed.

(** ** processDisassociation and processAssociation *)

Lemma processDisassociation_events (e : Engine) :
  associated e = true ->
  Z.testbit (events (processDisassociation e)) 0 = false /\
  Z.testbit (events (processDisassociation e)) 1 =
    (if Z.testbit (events e) 0 then Z.testbit (events e) 1 else true).
Proof.
  intros Ha. unfold processDisassociation. rewrite Ha. cbn [negb].
  rewrite !disconnect_all_bits by lia. cbn [events set_associated set_events].
  rewrite (proj1 (has_event_flags _)).
  unfold EVENT_ASSOCIATED, EVENT_DISASSOCIATED.
  destruct (Z.testbit (events e) 0) eqn:T0.
  - rewrite !testbit_clear_flag by lia. rewrite T0; simpl.
    rewrite andb_true_r. split; reflexivity.
  - rewrite !testbit_set_flag by lia. rewrite T0; simpl.
    rewrite orb_true_r. split; reflexivity.
Qed.

Lemma processDisassociation_connections (e : Engine) (j : nat) :
  associated e = true ->
  connections (processDisassociation e) j =
  if (j <=? MAX_CID)%nat && connected (connections e j)
  then disconnected_with_error (connections e j)
  else connections e j.
Proof.
  intros Ha. unfold processDisassociation. rewrite Ha. cbn [negb].
  rewrite disconnect_all_connections. cbn [connections set_associated set_events].
  destruct (Nat.ltb_spec j (0 + S MAX_CID)), (Nat.leb_spec j MAX_CID); try lia;
    reflexivity.
Qed.

Lemma processDisassociation_associated (e : Engine) :
  associated (processDisassociation e) = false.
Proof.
  unfold processDisassociation.
  destruct (associated e) eqn:Ha; cbn [negb]; [|exact Ha].
  rewrite disconnect_all_associated. reflexivity.
Qed.

Lemma processConnect_ncm (cid : nat) (rip rport lport : Z) (e : Engine) :
  let e1 := processConnect cid rip rport lport true e in
  connected (connections e1 cid) = true /\ ncm_auto_cid e1 = cid /\
  events e1 = Z.lor (events (if connected (connections e cid)
                             then processDisconnect cid e else e))
                    EVENT_NCM_CONNECTED.
Proof.
  cbn zeta. unfold processConnect. cbn. rewrite Nat.eqb_refl.
  repeat split; reflexivity.
Qed.

(** C3 (amended): on an associated engine, a disassociation leaves every
    CID [0..=MAX_CID] that was connected disconnected with its error flag
    set, and every other entry unchanged; the engine is no longer
    associated and no ASSOCIATED event is pending; the DISASSOCIATED
    flag (a single bit, so at most one event whatever the number of
    connections) is set, except when an ASSOCIATED event was still
    pending: that event is then cancelled and the DISASSOCIATED flag
    keeps its former value. *)
Theorem processDisassociation_cascade (e : Engine) :
  associated e = true ->
  let e' := processDisassociation e in
  (forall cid, (cid <= MAX_CID)%nat -> connected (connections e cid) = true ->
     connected (connections e' cid) = false /\ error (connections e' cid) = true) /\
  (forall cid, (MAX_CID < cid)%nat \/ connected (connections e cid) = false ->
     connections e' cid = connections e cid) /\
  associated e' = false /\
  has_event (events e') EVENT_ASSOCIATED = false /\
  has_event (events e') EVENT_DISASSOCIATED =
    (if has_event (events e) EVENT_ASSOCIATED
     then has_event (events e) EVENT_DISASSOCIATED else true).
Proof.
  intros Ha. cbn zeta. event_bits.
  destruct (processDisassociation_events e Ha) as [E0 E1].
  split; [|split; [|split; [|split]]].
  - intros cid Hle Hc.
    rewrite processDisassociation_connections by exact Ha.
    destruct (Nat.leb_spec cid MAX_CID); [|lia]. rewrite Hc.
    split; reflexivity.
  - intros cid Hcid.
    rewrite processDisassociation_connections by exact Ha.
    destruct Hcid as [Hlt|Hc].
    + destruct (Nat.leb_spec cid MAX_CID); [lia|]. reflexivity.
    + rewrite Hc, andb_false_r. reflexivity.
  - apply processDisassociation_associated.
  - exact E0.
  - exact E1.
Qed.

(** C3 witness: the engine with CIDs 1 and 3 connected. *)
Lemma processDisassociation_cascade_witness :
  associated engine_c3 = true /\
  connected (connections (processDisassociation engine_c3) 1) = false /\
  error (connections (processDisassociation engine_c3) 3) = true.
Proof.
  assert (Ha : associated engine_c3 = true) by reflexivity.
  destruct (processDisassociation_cascade engine_c3 Ha) as [H _].
  split; [exact Ha|].
  split; [exact (proj1 (H 1%nat ltac:(unfold MAX_CID; lia) eq_refl))
         |exact (proj2 (H 3%nat ltac:(unfold MAX_CID; lia) eq_refl))].
Defined.

(** C3 counterexample: associated, CIDs 1 and 3 connected, and an
    ASSOCIATED event not yet dispatched; after the disassociation both
    CIDs are down with their error flag set, but no DISASSOCIATED event
    is queued. *)
Lemma processDisassociation_cancels_pending_association :
  associated engine_c3 = true /\
  connected (connections engine_c3 1) = true /\
  connected (connections engine_c3 3) = true /\
  connections (processDisassociation engine_c3) 1 = disconnected_with_error conn_up /\
  connections (processDisassociation engine_c3) 3 = disconnected_with_error conn_up /\
  has_event (events (processDisassociation engine_c3)) EVENT_DISASSOCIATED = false.
Proof. repeat split; reflexivity. Qed.

(** C8: within one poll cycle, an association followed by a
    disassociation leaves no ASSOCIATED event pending and the
    DISASSOCIATED flag as the association left it (as it was before, when
    the engine was not associated); an NCM connect followed by the
    disconnect of the same CID leaves no NCM_CONNECTED event pending and
    the NCM_DISCONNECTED flag as the connect left it (as it was before,
    when the CID was not connected). *)
Theorem same_cycle_pairs_cancel :
  (forall e : Engine,
     let e1 := processAssociation e in
     let e2 := processDisassociation e1 in
     has_event (events e2) EVENT_ASSOCIATED = false /\
     has_event (events e2) EVENT_DISASSOCIATED = has_event (events e1) EVENT_DISASSOCIATED /\
     (associated e = false ->
      has_event (events e2) EVENT_DISASSOCIATED = has_event (events e) EVENT_DISASSOCIATED)) /\
  (forall (cid : nat) (rip rport lport : Z) (e : Engine),
     let e1 := processConnect cid rip rport lport true e in
     let e2 := processDisconnect cid e1 in
     has_event (events e2) EVENT_NCM_CONNECTED = false /\
     has_event (events e2) EVENT_NCM_DISCONNECTED =
       has_event (events e1) EVENT_NCM_DISCONNECTED /\
     (connected (connections e cid) = false ->
      has_event (events e2) EVENT_NCM_DISCONNECTED =
        has_event (events e) EVENT_NCM_DISCONNECTED)).
Proof.
  split.
  - intros e. cbn zeta. event_bits.
    assert (Ha1 : associated (processAssociation e) = true) by reflexivity.
    destruct (processDisassociation_events _ Ha1) as [E0 E1].
    assert (Hev : events (processAssociation e) =
                  Z.lor (events (if associated e then processDisassociation e else e))
                        EVENT_ASSOCIATED) by reflexivity.
    rewrite E1, Hev. unfold EVENT_ASSOCIATED.
    rewrite !testbit_set_flag by lia.
    change (0 =? 0) with true; change (0 =? 1) with false.
    rewrite orb_true_r, orb_false_r.
    split; [exact E0|]. split; [reflexivity|].
    intros Hna. rewrite Hna. reflexivity.
  - intros cid rip rport lport e. cbn zeta. event_bits.
    destruct (processConnect_ncm cid rip rport lport e) as [Hc [Hn He]].
    cbn zeta in Hc, Hn, He.
    set (e1 := processConnect cid rip rport lport true e) in *.
    unfold processDisconnect.
    rewrite Hc. cbn [negb events set_events set_ncm_auto_cid set_connection ncm_auto_cid].
    rewrite Hn, Nat.eqb_refl. event_bits.
    rewrite He. unfold EVENT_NCM_CONNECTED.
    rewrite testbit_set_flag by lia. rewrite Z.eqb_refl, orb_true_r.
    cbn [events set_events].
    rewrite !testbit_clear_flag by lia.
    change (2 =? 2) with true; change (2 =? 3) with false.
    cbn [negb]. rewrite andb_true_r.
    split; [apply andb_false_r|]. split; [reflexivity|].
    intros Hnc. rewrite Hnc, testbit_set_flag by lia.
    change (2 =? 3) with false. apply orb_false_r.
Qed.

(** C8 witness: an unassociated engine that associates and disassociates,
    and an idle CID 2 that NCM-connects and disconnects. *)
Lemma same_cycle_pairs_cancel_witness :
  associated engine0 = false /\
  has_event (events (processDisassociation (processAssociation engine0)))
    EVENT_DISASSOCIATED = false /\
  connected (connections engine0 2) = false /\
  has_event (events (processDisconnect 2 (processConnect 2 0 0 0 true engine0)))
    EVENT_NCM_DISCONNECTED = false.
Proof.
  destruct same_cycle_pairs_cancel as [HA HC].
  destruct (HA engine0) as [_ [_ HA3]].
  destruct (HC 2%nat 0 0 0 engine0) as [_ [_ HC3]].
  split; [reflexivity|]. split; [exact (HA3 eq_refl)|].
  split; [reflexivity|]. exact (HC3 eq_refl).
Defined.

Lemma byte_at_drop1 (l : list Z) : byte_at (drop 1 l) 0 = byte_at l 1.
Proof. destruct l as [|x [|y l]]; reflexivity. Qed.

(** C10: processAsync rejects a message (returns false and leaves the
    engine unchanged) whose subtype is above GS_ASYNC_MAX, whose payload
    is empty, whose first payload byte, parsed as one hex digit, is not
    the header's subtype, or whose arguments are not introduced by a
    space; it accepts a message only when the first payload byte parses
    to the subtype. *)
Theorem processAsync_rejects (payload : list Z) (subtype : Z) (e : Engine) :
  (subtype > GS_ASYNC_MAX \/ payload = [] \/
   parseNumber8 payload 1 16 <> Some subtype \/
   ((1 < length payload)%nat /\ byte_at payload 1 <> chr " "%char)) ->
  processAsync payload subtype e = (false, e) /\
  (fst (processAsync payload subtype e) = true -> parseNumber8 payload 1 16 = Some subtype).
Proof.
  intros H.
  assert (Hr : processAsync payload subtype e = (false, e)).
  { unfold processAsync.
    destruct (Z.gtb_spec subtype GS_ASYNC_MAX) as [Hg|Hg]; [reflexivity|].
    destruct (Nat.ltb_spec (length payload) 1) as [Hl|Hl]; [reflexivity|].
    destruct (parseNumber8 payload 1 16) as [st|] eqn:Hp; [|reflexivity].
    destruct (Z.eqb_spec st subtype) as [<-|]; [|reflexivity].
    cbn [negb].
    destruct H as [H|[H|[H|[H1 H2]]]].
    - lia.
    - subst payload. simpl in Hl. lia.
    - congruence.
    - rewrite byte_at_drop1, length_drop.
      destruct (Nat.eqb_spec (length payload - 1) 0); [lia|].
      destruct (Z.eqb_spec (byte_at payload 1) (chr " "%char)); [congruence|].
      reflexivity. }
  split; [exact Hr|]. rewrite Hr. discriminate.
Qed.

(** C10 witness: the payload "2" under the subtype 1 (mismatch). *)
Lemma processAsync_rejects_witness :
  parseNumber8 (bytes "2") 1 16 = Some 2 /\
  processAsync (bytes "2") 1 engine0 = (false, engine0).
Proof.
  split; [reflexivity|].
  apply (processAsync_rejects (bytes "2") 1 engine0).
  right; right; left. vm_compute. discriminate.
Defined.

End EngineProofs.

Module RingProofs.
Import Engine Ring Facts.

Lemma byte_at_nonneg (l : list Z) (i : nat) :
  Forall (fun b => 0 <= b) l -> 0 <= byte_at l i.
Proof.
  intros Hl. unfold byte_at.
  destruct (nth_in_or_default i l 0) as [Hin | ->]; [|lia].
  exact (proj1 (List.Forall_forall _ _) Hl _ Hin).
Qed.

Section Full.
Variables (SIZE FS LIMIT : nat) (fob : list Z -> RXFrame).

Lemma loadFrameHeader_fields (s : RxState) :
  rx_data_head (loadFrameHeader SIZE FS LIMIT fob s) = rx_data_head s /\
  rx_data (loadFrameHeader SIZE FS LIMIT fob s) = rx_data s /\
  eng (loadFrameHeader SIZE FS LIMIT fob s) = eng s.
Proof. repeat split. Qed.

(** One dropped byte: [readData] loads the next header when the tail
    frame is used up, then takes the byte at the tail. *)
Lemma dropData_one (s : RxState) :
  rx_data_tail s <> rx_data_head s ->
  Forall (fun b => 0 <= b) (rx_data s) ->
  let s1 := if length (tail_frame s) =? 0 then loadFrameHeader SIZE FS LIMIT fob s else s in
  rx_data_tail s1 <> rx_data_head s1 ->
  length (tail_frame s1) <> 0 ->
  dropData SIZE FS LIMIT fob 1 s =
  mkRxState (rx_data s) (rx_data_head s) ((rx_data_tail s1 + 1) mod SIZE)
    (head_frame s1)
    (set_length (tail_frame s1) ((length (tail_frame s1) - 1) mod 65536))
    (set_error (eng s) (cid (tail_frame s1))).
Proof.
  intros Hne Hpos s1 Hne1 Hlen.
  assert (Hg : getFrameHeader_any SIZE FS LIMIT fob s = (tail_frame s1, s1)).
  { unfold getFrameHeader_any, s1.
    destruct (length (tail_frame s) =? 0); [|reflexivity].
    destruct (Nat.eqb_spec (rx_data_tail s) (rx_data_head s)); [contradiction|reflexivity]. }
  assert (Hf : rx_data_head s1 = rx_data_head s /\ rx_data s1 = rx_data s /\ eng s1 = eng s).
  { unfold s1. destruct (length (tail_frame s) =? 0);
      [apply loadFrameHeader_fields | repeat split]. }
  destruct Hf as [Hh [Hd He]].
  cbn [dropData]. unfold readData_any. rewrite Hg.
  unfold frame_valid.
  destruct (Z.eqb_spec (length (tail_frame s1)) 0); [contradiction|]. cbn [negb].
  unfold getData.
  destruct (Nat.eqb_spec (rx_data_tail s1) (rx_data_head s1)); [contradiction|]. cbn [negb].
  assert (Hc : 0 <= byte_at (rx_data s1) (rx_data_tail s1))
    by (apply byte_at_nonneg; rewrite Hd; exact Hpos).
  apply Z.leb_le in Hc.
  unfold with_eng, with_tail. cbn [rx_data rx_data_head rx_data_tail head_frame tail_frame eng].
  rewrite Hd, Hh, He. rewrite Hd in Hc.
  rewrite Hc. cbv beta iota. rewrite Hc. reflexivity.
Qed.

(** A dropped byte that is not there: [readData] loads the next header
    record, which announces zero bytes, and returns -1. *)
Lemma dropData_empty_frame (s : RxState) :
  rx_data_tail s <> rx_data_head s ->
  let s1 := if length (tail_frame s) =? 0 then loadFrameHeader SIZE FS LIMIT fob s else s in
  length (tail_frame s1) = 0 ->
  dropData SIZE FS LIMIT fob 1 s = s1.
Proof.
  intros Hne s1 Hlen.
  assert (Hg : getFrameHeader_any SIZE FS LIMIT fob s = (tail_frame s1, s1)).
  { unfold getFrameHeader_any, s1.
    destruct (length (tail_frame s) =? 0); [|reflexivity].
    destruct (Nat.eqb_spec (rx_data_tail s) (rx_data_head s)); [contradiction|reflexivity]. }
  cbn [dropData]. unfold readData_any. rewrite Hg.
  unfold frame_valid. rewrite Hlen. reflexivity.
Qed.

(** C2 (amended): when the ring buffer is full ([next_head == tail]),
    [bufferIncomingData(c)] first drops one payload byte through the read
    path: if [tail_frame] is used up ([length == 0]), the next queued
    header record is loaded as [tail_frame] and the tail moves past it.
    If that record announces zero bytes, [readData] returns -1: nothing
    is dropped and no error flag is set.  Otherwise, when bytes remain
    between tail and head, the byte at the tail is taken (tail + 1,
    [tail_frame.length] minus one), the error flag of [tail_frame.cid] is
    set and every other connection is left alone.  In both cases [c] is
    then stored at the old head and the head advanced. *)
Theorem bufferIncomingData_full (c : Z) (s : RxState) :
  ((rx_data_head s + 1) mod SIZE = rx_data_tail s)%nat ->
  rx_data_tail s <> rx_data_head s ->
  Forall (fun b => 0 <= b) (rx_data s) ->
  let s1 := if length (tail_frame s) =? 0 then loadFrameHeader SIZE FS LIMIT fob s else s in
  let s' := bufferIncomingData SIZE FS LIMIT fob c s in
  (length (tail_frame s1) = 0 ->
   rx_data_tail s' = rx_data_tail s1 /\ tail_frame s' = tail_frame s1 /\ eng s' = eng s /\
   rx_data_head s' = ((rx_data_head s + 1) mod SIZE)%nat /\
   rx_data s' = <[rx_data_head s := c]> (rx_data s)) /\
  (length (tail_frame s1) <> 0 -> rx_data_tail s1 <> rx_data_head s1 ->
   rx_data_tail s' = ((rx_data_tail s1 + 1) mod SIZE)%nat /\
   tail_frame s' = set_length (tail_frame s1) ((length (tail_frame s1) - 1) mod 65536) /\
   error (connections (eng s') (cid (tail_frame s1))) = true /\
   (forall j, j <> cid (tail_frame s1) -> connections (eng s') j = connections (eng s) j) /\
   rx_data_head s' = ((rx_data_head s + 1) mod SIZE)%nat /\
   rx_data s' = <[rx_data_head s := c]> (rx_data s)).
Proof.
  intros Hfull Hne Hpos s1 s'.
  assert (Hf : rx_data_head s1 = rx_data_head s /\ rx_data s1 = rx_data s /\ eng s1 = eng s).
  { unfold s1. destruct (length (tail_frame s) =? 0);
      [apply loadFrameHeader_fields | repeat split]. }
  destruct Hf as [Hh [Hd He]].
  split.
  - intros Hz.
    assert (Hdrop : dropData SIZE FS LIMIT fob 1 s = s1) by exact (dropData_empty_frame s Hne Hz).
    unfold s', bufferIncomingData. rewrite Hfull, Nat.eqb_refl, Hdrop.
    cbn [with_data rx_data rx_data_head rx_data_tail tail_frame eng].
    rewrite Hh, Hd, He. repeat split.
  - intros Hnz Hne1.
    assert (Hd1 : dropData SIZE FS LIMIT fob 1 s =
      mkRxState (rx_data s) (rx_data_head s) ((rx_data_tail s1 + 1) mod SIZE)
        (head_frame s1)
        (set_length (tail_frame s1) ((length (tail_frame s1) - 1) mod 65536))
        (set_error (eng s) (cid (tail_frame s1))))
      by exact (dropData_one s Hne Hpos Hne1 Hnz).
    unfold s', bufferIncomingData. rewrite Hfull, Nat.eqb_refl, Hd1.
    cbn [with_data rx_data rx_data_head rx_data_tail tail_frame eng].
    repeat split.
    + unfold set_error, set_connection. cbn [connections].
      rewrite Nat.eqb_refl. reflexivity.
    + intros j Hj. unfold set_error, set_connection. cbn [connections].
      destruct (Nat.eqb_spec j (cid (tail_frame s1))); [contradiction|reflexivity].
Qed.

End Full.

(** C2 witness: the full ring [ring_c2] of 16 bytes, whose tail frame is
    used up with the next record (CID 2) at the tail. *)
Lemma bufferIncomingData_full_witness :
  rx_data_tail (bufferIncomingData 16 4 256 ex_frame_of_bytes 9 ring_c2) = 5%nat /\
  error (connections (eng (bufferIncomingData 16 4 256 ex_frame_of_bytes 9 ring_c2)) 2) = true.
Proof.
  destruct (bufferIncomingData_full 16 4 256 ex_frame_of_bytes 9 ring_c2
              eq_refl ltac:(discriminate) ltac:(repeat constructor; lia))
    as [_ Hfull].
  destruct (Hfull ltac:(vm_compute; discriminate) ltac:(vm_compute; discriminate))
    as [Ht [_ [He _]]].
  split; [exact Ht | exact He].
Defined.

(** C2 counterexample: on the full ring [ring_c2] the tail moves by five
    (past the four-byte record of CID 2 and one payload byte), not by one. *)
Lemma bufferIncomingData_full_moves_tail_past_header :
  ((rx_data_head ring_c2 + 1) mod 16 = rx_data_tail ring_c2)%nat /\
  rx_data_tail ring_c2 = 0%nat /\
  rx_data_tail (bufferIncomingData 16 4 256 ex_frame_of_bytes 9 ring_c2) = 5%nat.
Proof. repeat split; vm_compute; reflexivity. Qed.

(** C6 (code bug): when the head sits in the last [sizeof(RXFrame)] bytes
    and the tail is ahead of it, [bufferFrameHeader] calls
    [dropData(rx_data_tail - rx_data_tail)], which drops nothing; the head
    then jumps to 0 and, the free room being computed from there, the
    record is written over bytes of the tail frame that were never
    dropped.  On [ring_c6] (16-byte ring, 4-byte record, tail 15, head 13,
    the 14 bytes of CID 1 in slots 15, 0..12): the header of CID 3 is
    written into slots 0..3, the head moves to 4, the tail stays at 15 and
    the tail frame still counts 14 bytes, only 5 of which remain between
    tail and head; no error flag is set. *)
Theorem bufferFrameHeader_overwrites_live_data :
  let s' := bufferFrameHeader 16 4 256 ex_frame_bytes ex_frame_of_bytes ring_c6 in
  ring_used 16 ring_c6 = 14%nat /\
  take 4 (rx_data ring_c6) = [100; 101; 102; 103] /\
  take 4 (rx_data s') = ex_frame_bytes (head_frame ring_c6) /\
  rx_data_tail s' = 15%nat /\
  rx_data_head s' = 4%nat /\
  tail_frame s' = tail_frame ring_c6 /\
  length (tail_frame s') = 14 /\
  ring_used 16 s' = 5%nat /\
  eng s' = eng ring_c6.
Proof. vm_compute. repeat split; reflexivity. Qed.

End RingProofs.

Module SpiProofs.
Import Spi Facts.

Section Latch.
Variable K : SpiCodes.

Lemma process_wire_app (ws1 ws2 : list Z) (st : Framer) :
  process_wire K (ws1 ++ ws2) st = process_wire K ws2 (process_wire K ws1 st).
Proof. revert st; induction ws1 as [|w ws1 IH]; intros st; simpl; auto. Qed.

Lemma processSpiSpecial_all_one (st : Framer) :
  spi_prev_was_esc st = false ->
  snd (processSpiSpecial K (SPI_SPECIAL_ALL_ONE K) st) =
  if (errorcount st + 1) mod 256 >? 20
  then set_errorcount (set_unrecoverable st true) 0
  else set_errorcount st ((errorcount st + 1) mod 256).
Proof.
  intros He. unfold processSpiSpecial. rewrite He, Z.eqb_refl. cbn [negb].
  destruct (_ >? 20); reflexivity.
Qed.

Lemma processSpiSpecial_latched (c : Z) (st : Framer) :
  unrecoverableError st = true -> unrecoverableError (snd (processSpiSpecial K c st)) = true.
Proof.
  intros H. unfold processSpiSpecial. cbv zeta.
  repeat match goal with |- context [if ?b then _ else _] => destruct b end;
    cbn; first [exact H | reflexivity].
Qed.

Lemma process_wire_latched (ws : list Z) (st : Framer) :
  unrecoverableError st = true -> unrecoverableError (process_wire K ws st) = true.
Proof.
  revert st; induction ws as [|w ws IH]; intros st H; simpl; [exact H|].
  apply IH, processSpiSpecial_latched, H.
Qed.

Lemma processSpiSpecial_reset (c : Z) (st : Framer) :
  spi_prev_was_esc st = false -> c <> SPI_SPECIAL_ALL_ONE K ->
  errorcount (snd (processSpiSpecial K c st)) = 0.
Proof.
  intros He Hc. unfold processSpiSpecial. rewrite He.
  apply Z.eqb_neq in Hc. rewrite Hc. cbn [negb].
  repeat match goal with |- context [if ?b then _ else _] => destruct b end;
    reflexivity.
Qed.

Lemma processSpiSpecial_errorcount (c : Z) (st : Framer) :
  0 <= errorcount st <= 20 -> 0 <= errorcount (snd (processSpiSpecial K c st)) <= 20.
Proof.
  intros Hb.
  destruct (spi_prev_was_esc st) eqn:He.
  - unfold processSpiSpecial. rewrite He. exact Hb.
  - destruct (Z.eq_dec c (SPI_SPECIAL_ALL_ONE K)) as [->|Hc].
    + rewrite processSpiSpecial_all_one by exact He.
      rewrite Z.gtb_ltb. destruct (Z.ltb_spec 20 ((errorcount st + 1) mod 256)).
      * cbn. lia.
      * cbn. pose proof (Z.mod_pos_bound (errorcount st + 1) 256). lia.
    + rewrite processSpiSpecial_reset by assumption. lia.
Qed.

(** A run of [k] unescaped ALL_ONE bytes that stays within the threshold
    only counts. *)
Lemma process_wire_count (k : nat) :
  forall st, spi_prev_was_esc st = false -> 0 <= errorcount st ->
  errorcount st + Z.of_nat k <= 20 ->
  process_wire K (repeat (SPI_SPECIAL_ALL_ONE K) k) st =
  mkFramer false (spi_xoff st) (errorcount st + Z.of_nat k) (unrecoverableError st).
Proof.
  induction k as [|k IH]; intros st He H0 Hk; cbn [repeat process_wire].
  - destruct st; cbn in *. subst. rewrite Z.add_0_r. reflexivity.
  - rewrite processSpiSpecial_all_one by exact He.
    rewrite Z.mod_small by lia.
    destruct (Z.gtb_spec (errorcount st + 1) 20); [lia|].
    rewrite IH by (cbn; first [exact He | lia]). cbn. f_equal. lia.
Qed.

End Latch.

Lemma writeRaw_latched (K : SpiCodes) (R : Type) (pI : Z -> R -> R) (tr : Transport)
    (buf : list Z) (st : Framer) (r : R) (bus : Bus) :
  unrecoverableError st = true -> writeRaw K R pI tr buf st r bus = (st, r, bus).
Proof.
  intros H. destruct tr; cbn [writeRaw].
  - rewrite H. reflexivity.
  - destruct buf as [|b buf]; [reflexivity|].
    cbn [List.length Nat.add spi_write_loop].
    rewrite H. reflexivity.
  - reflexivity.
Qed.

(** C4: with prev-was-escape clear and the consecutive count in its range
    0..20, 21 ALL_ONE wire bytes latch [unrecoverableError] (20 of them,
    from a count of 0, do not); processSpiSpecial never clears the latch
    and keeps the count within 0..20; a byte other than ALL_ONE (not
    escaped) resets the count to 0; once latched, [readRaw] returns -1
    and [writeRaw] returns, both with the framer state and the transport
    untouched, whatever the transport; only [end()] clears the latch. *)
Theorem spi_fault_latch (K : SpiCodes) :
  (forall st, spi_prev_was_esc st = false -> 0 <= errorcount st <= 20 ->
     unrecoverableError (process_wire K (repeat (SPI_SPECIAL_ALL_ONE K) 21) st) = true) /\
  (forall st, spi_prev_was_esc st = false -> errorcount st = 0 ->
     unrecoverableError st = false ->
     unrecoverableError (process_wire K (repeat (SPI_SPECIAL_ALL_ONE K) 20) st) = false) /\
  (forall ws st, unrecoverableError st = true ->
     unrecoverableError (process_wire K ws st) = true) /\
  (forall c st, 0 <= errorcount st <= 20 ->
     0 <= errorcount (snd (processSpiSpecial K c st)) <= 20) /\
  (forall c st, spi_prev_was_esc st = false -> c <> SPI_SPECIAL_ALL_ONE K ->
     errorcount (snd (processSpiSpecial K c st)) = 0) /\
  (forall tr pin_low tries st bus, unrecoverableError st = true ->
     readRaw K tr pin_low tries st bus = (-1, st, bus)) /\
  (forall (R : Type) (pI : Z -> R -> R) tr buf st r bus, unrecoverableError st = true ->
     writeRaw K R pI tr buf st r bus = (st, r, bus)) /\
  (forall st, unrecoverableError (gs_end st) = false).
Proof.
  split; [|split; [|split; [|split; [|split; [|split; [|split]]]]]].
  - intros st He Hb.
    set (k := Z.to_nat (20 - errorcount st)).
    assert (Hsplit : repeat (SPI_SPECIAL_ALL_ONE K) 21 =
      repeat (SPI_SPECIAL_ALL_ONE K) k ++
      SPI_SPECIAL_ALL_ONE K :: repeat (SPI_SPECIAL_ALL_ONE K) (20 - k)).
    { change (SPI_SPECIAL_ALL_ONE K :: repeat (SPI_SPECIAL_ALL_ONE K) (20 - k))
        with (repeat (SPI_SPECIAL_ALL_ONE K) (S (20 - k))).
      rewrite <- repeat_app. f_equal. unfold k. lia. }
    rewrite Hsplit, process_wire_app, process_wire_count
      by first [exact He | unfold k; lia].
    cbn [process_wire].
    rewrite processSpiSpecial_all_one by reflexivity.
    cbn [errorcount].
    replace (errorcount st + Z.of_nat k) with 20 by (unfold k; lia).
    cbn. apply process_wire_latched. reflexivity.
  - intros st He H0 Hu.
    rewrite process_wire_count by first [exact He | lia]. cbn. exact Hu.
  - intros ws st H. apply process_wire_latched, H.
  - apply processSpiSpecial_errorcount.
  - apply processSpiSpecial_reset.
  - intros tr pin_low tries st bus H. unfold readRaw. rewrite H. reflexivity.
  - apply writeRaw_latched.
  - reflexivity.
Qed.

(** C4 witness: the example codes from a fresh framer. *)
Lemma spi_fault_latch_witness :
  unrecoverableError (process_wire ex_spi_codes (repeat 255 21) framer0) = true /\
  readRaw ex_spi_codes TSpi false 64
    (process_wire ex_spi_codes (repeat 255 21) framer0) (mkBus [65] []) =
  (-1, process_wire ex_spi_codes (repeat 255 21) framer0, mkBus [65] []).
Proof.
  destruct (spi_fault_latch ex_spi_codes) as [Ha [_ [_ [_ [_ [Hr _]]]]]].
  assert (Hl : unrecoverableError
                 (process_wire ex_spi_codes (repeat 255 21) framer0) = true)
    by exact (Ha framer0 eq_refl ltac:(cbn; lia)).
  split; [exact Hl | exact (Hr TSpi false 64%nat _ (mkBus [65] []) Hl)].
Defined.

End SpiProofs.

Module ReplyProofs.
Import Response Engine Reply Facts.

Section Accumulator.
Variables (MAX_RESPONSE_SIZE : nat) (keep_data has_callback : bool) (cap : nat).


Lemma shift_line_down_length (b : list Z) (ls rd : nat) :
  (1 <= ls <= rd)%nat -> (rd <= List.length b)%nat ->
  List.length (shift_line_down b ls rd) = List.length b.
Proof.
  intros H1 H2. unfold shift_line_down.
  rewrite !length_app, !length_take, !length_drop. lia.
Qed.

Lemma shift_line_down_kept (b : list Z) (ls rd : nat) :
  (1 <= ls <= rd)%nat -> (rd <= List.length b)%nat ->
  take (ls - 1) (shift_line_down b ls rd) = take (ls - 1) b /\
  take (rd - ls) (drop (ls - 1) (shift_line_down b ls rd)) = take (rd - ls) (drop ls b).
Proof.
  intros H1 H2. unfold shift_line_down.
  assert (La : List.length (take (ls - 1) b) = (ls - 1)%nat) by (rewrite length_take; lia).
  assert (Lb : List.length (take (rd - ls) (drop ls b)) = (rd - ls)%nat)
    by (rewrite length_take, length_drop; lia).
  split.
  - rewrite <- La at 1. rewrite take_app_length. reflexivity.
  - rewrite <- La at 1. rewrite drop_app_length.
    rewrite <- Lb at 1. rewrite take_app_length. reflexivity.
Qed.

Lemma kept_prefix_shorter (b : list Z) (n m : nat) :
  (n <= m)%nat -> take n b `prefix_of` take m b.
Proof.
  intros H. replace (take n b) with (take n (take m b)).
  - apply prefix_take.
  - rewrite take_take. f_equal. lia.
Qed.

(** One byte with [dropped_data] already set keeps the invariant and
    never lengthens the kept data. *)
Lemma reply_step_dropped (c : Z) (a : Acc) :
  dropped_data a = true -> acc_ok cap a ->
  let a' := state_of (reply_step MAX_RESPONSE_SIZE keep_data has_callback cap c a) in
  dropped_data a' = true /\ acc_ok cap a' /\ kept a' `prefix_of` kept a.
Proof.
  intros Hd [Hr Hl]. unfold reply_step, kept, acc_ok.
  destruct ((c =? CR) || (c =? LF)).
  - destruct (Nat.eqb_spec (read a - line_start a) 0).
    { cbn. repeat split; try lia; auto; try reflexivity. }
    destruct (skip_line a).
    { cbn. repeat split; try lia; auto; try reflexivity. }
    destruct (processResponseLine _ _) as [res cc].
    rewrite Hd. cbn [negb]. rewrite andb_false_r. cbn [andb].
    destruct res; cbn; (repeat split; try lia; auto; try reflexivity).
  - destruct (Nat.ltb_spec (read a) cap).
    { cbn. rewrite length_insert, take_insert, decide_False by lia.
      repeat split; try lia; auto; try reflexivity. }
    destruct (Nat.leb_spec MAX_RESPONSE_SIZE (read a - line_start a)).
    { cbn. repeat split; try lia; auto; try reflexivity. }
    destruct (Nat.ltb_spec 0 (line_start a)).
    + cbn. rewrite length_insert, shift_line_down_length by lia.
      repeat split; try lia; auto.
      rewrite take_insert, decide_False by lia.
      rewrite (proj1 (shift_line_down_kept (buf a) (line_start a) (read a)
                       ltac:(lia) ltac:(lia))).
      apply kept_prefix_shorter. lia.
    + cbn. repeat split; try lia; auto; try reflexivity.
Qed.

Lemma reply_run_dropped (cs : list Z) :
  forall a, dropped_data a = true -> acc_ok cap a ->
  let a' := state_of (reply_run MAX_RESPONSE_SIZE keep_data has_callback cap cs a) in
  dropped_data a' = true /\ kept a' `prefix_of` kept a.
Proof.
  induction cs as [|c cs IH]; intros a Hd Hok; cbn zeta; cbn [reply_run].
  - split; [exact Hd | reflexivity].
  - destruct (reply_step_dropped c a Hd Hok) as [Hd' [Hok' Hp]].
    destruct (reply_step MAX_RESPONSE_SIZE keep_data has_callback cap c a) as [a1|res a1] eqn:E; cbn [state_of] in *.
    + destruct (IH a1 Hd' Hok') as [H1 H2].
      split; [exact H1 | etransitivity; eassumption].
    + split; assumption.
Qed.

(** C7 (amended): while a reply line is accumulated and [buf] is full
    ([read == *len]): if the current line already holds
    MAX_RESPONSE_SIZE bytes or more, the byte is discarded and the line
    is marked to be skipped (and the result truncated), and at its CR/LF
    the whole line is removed; otherwise, when a previous line is kept,
    its last byte [buf[line_start - 1]] is evicted: [line_start] goes
    down by one, the bytes of the current line move down by one and the
    result is marked truncated ([dropped_data]); once it is marked, the
    kept data (the bytes before [line_start]) never grows again: after
    any further bytes it is a prefix of what it was. *)
Theorem readResponse_overflow :
  (forall c a, c <> CR -> c <> LF -> (cap <= read a)%nat ->
     (MAX_RESPONSE_SIZE <= read a - line_start a)%nat ->
     reply_step MAX_RESPONSE_SIZE keep_data has_callback cap c a =
     Continue (mkAcc (buf a) (read a) (line_start a) true true (connect_cid a) (engine a))) /\
  (forall c a, c = CR \/ c = LF -> skip_line a = true ->
     (read a - line_start a <> 0)%nat ->
     reply_step MAX_RESPONSE_SIZE keep_data has_callback cap c a =
     Continue (mkAcc (buf a) (line_start a) (line_start a) (dropped_data a) false
                 (connect_cid a) (engine a))) /\
  (forall c a, c <> CR -> c <> LF -> read a = cap -> List.length (buf a) = cap ->
     (read a - line_start a < MAX_RESPONSE_SIZE)%nat -> (0 < line_start a <= read a)%nat ->
     exists a', reply_step MAX_RESPONSE_SIZE keep_data has_callback cap c a = Continue a' /\
       read a' = read a /\ line_start a' = (line_start a - 1)%nat /\
       dropped_data a' = true /\ kept a' = take (line_start a - 1) (buf a) /\
       take (read a - line_start a) (drop (line_start a') (buf a')) =
       take (read a - line_start a) (drop (line_start a) (buf a))) /\
  (forall cs a, dropped_data a = true -> acc_ok cap a ->
     let a' := state_of (reply_run MAX_RESPONSE_SIZE keep_data has_callback cap cs a) in
     dropped_data a' = true /\ kept a' `prefix_of` kept a).
Proof.
  split; [|split; [|split]].
  - intros c a H1 H2 Hc Hm. unfold reply_step.
    apply Z.eqb_neq in H1, H2. rewrite H1, H2. cbn [orb].
    destruct (Nat.ltb_spec (read a) cap); [lia|].
    destruct (Nat.leb_spec MAX_RESPONSE_SIZE (read a - line_start a)); [|lia].
    reflexivity.
  - intros c a Hc Hs Hn. unfold reply_step.
    replace ((c =? CR) || (c =? LF)) with true
      by (destruct Hc as [->| ->]; reflexivity).
    destruct (Nat.eqb_spec (read a - line_start a) 0); [contradiction|].
    rewrite Hs. reflexivity.
  - intros c a H1 H2 Hr Hl Hm Hls. unfold reply_step.
    apply Z.eqb_neq in H1, H2. rewrite H1, H2. cbn [orb].
    destruct (Nat.ltb_spec (read a) cap); [lia|].
    destruct (Nat.leb_spec MAX_RESPONSE_SIZE (read a - line_start a)); [lia|].
    destruct (Nat.ltb_spec 0 (line_start a)); [|lia].
    eexists. split; [reflexivity|]. cbn.
    destruct (shift_line_down_kept (buf a) (line_start a) (read a)
                ltac:(lia) ltac:(lia)) as [K1 K2].
    rewrite list_insert_ge
      by (rewrite shift_line_down_length by lia; lia).
    repeat split; assumption.
  - exact reply_run_dropped.
Qed.

End Accumulator.

(** C7 witness: the full 5-byte buffer [acc_c7] ("ab\r\n" kept, "0"
    current) receiving "x". *)
Lemma readResponse_overflow_witness :
  exists a', reply_step 8 true false 5 (chr "x"%char) acc_c7 = Continue a' /\
    read a' = read acc_c7 /\ line_start a' = (line_start acc_c7 - 1)%nat /\
    dropped_data a' = true /\ kept a' = take (line_start acc_c7 - 1) (buf acc_c7) /\
    take (read acc_c7 - line_start acc_c7) (drop (line_start a') (buf a')) =
    take (read acc_c7 - line_start acc_c7) (drop (line_start acc_c7) (buf acc_c7)).
Proof.
  exact (proj1 (proj2 (proj2 (readResponse_overflow 8 true false 5)))
           (chr "x"%char) acc_c7 ltac:(discriminate) ltac:(discriminate)
           eq_refl eq_refl ltac:(cbn; lia) ltac:(cbn; lia)).
Defined.

(** C7 counterexample: on [acc_c7] the evicted byte is the last one of
    the kept line "ab\r\n" (its "\n"), not its oldest one: "a" stays. *)
Lemma readResponse_evicts_newest_byte :
  kept acc_c7 = bytes "ab" ++ [13; 10] /\
  kept (state_of (reply_step 8 true false 5 (chr "x"%char) acc_c7)) = bytes "ab" ++ [13] /\
  dropped_data (state_of (reply_step 8 true false 5 (chr "x"%char) acc_c7)) = true.
Proof. repeat split; vm_compute; reflexivity. Qed.

End ReplyProofs.

Module CommandProofs.
Import Command.

(** [memcpy] into an array at the end of a prefix [l1]. *)
Lemma write_bytes_app (bs : list Z) :
  forall l1 l2, (List.length bs <= List.length l2)%nat ->
  write_bytes (List.length l1) bs (l1 ++ l2) = l1 ++ bs ++ drop (List.length bs) l2.
Proof.
  induction bs as [|b bs IH]; intros l1 l2 Hl; cbn [write_bytes].
  - rewrite drop_0. reflexivity.
  - destruct l2 as [|y l2]; [cbn in Hl; lia|].
    rewrite insert_app_r_alt by lia. rewrite Nat.sub_diag. cbn [insert list_insert].
    replace (S (List.length l1)) with (List.length (l1 ++ [b]))
      by (rewrite length_app; cbn; lia).
    replace (l1 ++ b :: l2) with ((l1 ++ [b]) ++ l2) by (rewrite <- app_assoc; reflexivity).
    rewrite IH by (cbn in Hl; lia).
    rewrite <- app_assoc. reflexivity.
Qed.

Lemma writeCommand_short (s : list Z) :
  (List.length s <= 125)%nat -> writeCommand s = (s ++ [13; 10], false).
Proof.
  intros Hn. unfold writeCommand.
  rewrite (take_ge s) by lia.
  pose proof (write_bytes_app (s ++ [0]) [] (repeat 0 128)) as Hw.
  cbn [List.length app] in Hw. rewrite Hw by (rewrite length_app, repeat_length; cbn; lia).
  clear Hw.
  destruct (drop (List.length (s ++ [0])) (repeat 0 128)) as [|r0 [|r1 R]] eqn:Hd.
  1, 2: apply (f_equal (@List.length Z)) in Hd;
        rewrite length_drop, length_app, repeat_length in Hd; cbn in Hd; lia.
  destruct (Nat.ltb_spec (128 - 2) (List.length s)); [lia|].
  rewrite <- app_assoc. cbn [app].
  rewrite insert_app_r_alt by lia. rewrite Nat.sub_diag. cbn [insert list_insert].
  rewrite insert_app_r_alt by lia.
  replace (S (List.length s) - List.length s)%nat with 1%nat by lia.
  cbn [insert list_insert].
  rewrite take_app, take_ge by lia.
  replace (S (S (List.length s)) - List.length s)%nat with 2%nat by lia.
  reflexivity.
Qed.

Lemma writeCommand_long (s : list Z) :
  (126 <= List.length s)%nat ->
  writeCommand s = (take 125 s ++ [0; 13; 10], (126 <? List.length s)%nat).
Proof.
  intros Hn. unfold writeCommand.
  replace (Nat.min (List.length s) (128 - 2 - 1)) with 125%nat by lia.
  assert (Ht : List.length (take 125 s) = 125%nat) by (rewrite length_take; lia).
  pose proof (write_bytes_app (take 125 s ++ [0]) [] (repeat 0 128)) as Hw.
  cbn [List.length app] in Hw. rewrite Hw by (rewrite length_app, repeat_length; cbn; lia).
  clear Hw.
  destruct (drop (List.length (take 125 s ++ [0])) (repeat 0 128)) as [|r0 [|r1 [|r2 R]]] eqn:Hd.
  1, 2, 4: apply (f_equal (@List.length Z)) in Hd;
           rewrite length_drop, length_app, Ht, repeat_length in Hd; cbn in Hd; lia.
  change (128 - 2)%nat with 126%nat.
  destruct (Nat.ltb_spec 126 (List.length s)).
  - rewrite <- app_assoc. cbn [app].
    rewrite insert_app_r_alt by lia. rewrite Ht. cbn [insert list_insert Nat.sub].
    rewrite insert_app_r_alt by lia. rewrite Ht. cbn [insert list_insert Nat.sub].
    rewrite take_ge by (rewrite length_app, Ht; cbn; lia).
    reflexivity.
  - replace (List.length s) with 126%nat by lia.
    rewrite <- app_assoc. cbn [app].
    rewrite insert_app_r_alt by lia. rewrite Ht. cbn [insert list_insert Nat.sub].
    rewrite insert_app_r_alt by lia. rewrite Ht. cbn [insert list_insert Nat.sub].
    rewrite take_ge by (rewrite length_app, Ht; cbn; lia).
    reflexivity.
Qed.

(** C9 (amended): [writeCommand] sends bytes ending in "\r\n" with at
    most 126 bytes before it, which begin with the first [min n 125]
    characters of the [n]-character command; a command of at most 125
    characters is sent in full followed by "\r\n"; truncation is logged
    exactly when the formatted length exceeds 126. *)
Theorem writeCommand_framing (s : list Z) :
  (exists pre, fst (writeCommand s) = pre ++ [13; 10] /\
     (List.length pre <= 126)%nat /\
     take (Nat.min (List.length s) 125) pre = take 125 s) /\
  ((List.length s <= 125)%nat -> writeCommand s = (s ++ [13; 10], false)) /\
  snd (writeCommand s) = (126 <? List.length s)%nat.
Proof.
  destruct (Nat.le_gt_cases (List.length s) 125) as [Hs|Hl].
  - rewrite writeCommand_short by exact Hs.
    split; [|split; [reflexivity|]].
    + exists s. split; [reflexivity|]. split; [lia|].
      rewrite !take_ge by lia. reflexivity.
    + cbn [snd]. symmetry. apply Nat.ltb_ge. lia.
  - rewrite writeCommand_long by lia.
    assert (Ht : List.length (take 125 s) = 125%nat) by (rewrite length_take; lia).
    split; [|split; [lia | reflexivity]].
    exists (take 125 s ++ [0]). split; [rewrite <- app_assoc; reflexivity|].
    split; [rewrite length_app, Ht; cbn; lia|].
    replace (Nat.min (List.length s) 125) with 125%nat by lia.
    apply take_app_length'. symmetry. exact Ht.
Qed.

(** C9 witness: the command "AT". *)
Lemma writeCommand_framing_witness :
  (List.length (bytes "AT") <= 125)%nat /\
  writeCommand (bytes "AT") = (bytes "AT" ++ [13; 10], false).
Proof.
  split; [cbn; lia|].
  exact (proj1 (proj2 (writeCommand_framing (bytes "AT"))) ltac:(cbn; lia)).
Defined.

(** C9 counterexample: a 200-character command is sent as 128 bytes (125
    characters, a NUL and "\r\n"), not as its first 127 characters and
    "\r\n". *)
Lemma writeCommand_sends_125_chars_and_nul :
  fst (writeCommand (repeat 65 200)) = repeat 65 125 ++ [0; 13; 10] /\
  List.length (fst (writeCommand (repeat 65 200))) = 128%nat /\
  fst (writeCommand (repeat 65 200)) <> take 127 (repeat 65 200) ++ [13; 10].
Proof.
  split; [vm_compute; reflexivity|].
  split; [vm_compute; reflexivity|].
  vm_compute. discriminate.
Qed.

End CommandProofs.

(** * Further properties of the code *)

Module ParseExtra.
Import Parse Notions.

Lemma digit_value_range (c v : Z) : digit_value c = Some v -> 0 <= v <= 35.
Proof.
  intros E. unfold digit_value in E.
  change (chr "0"%char) with 48 in E; change (chr "9"%char) with 57 in E;
  change (chr "a"%char) with 97 in E; change (chr "z"%char) with 122 in E;
  change (chr "A"%char) with 65 in E; change (chr "Z"%char) with 90 in E.
  destruct (Z.leb_spec 48 c), (Z.leb_spec c 57), (Z.leb_spec 97 c), (Z.leb_spec c 122),
    (Z.leb_spec 65 c), (Z.leb_spec c 90); cbn in E; try discriminate;
    injection E as <-; lia.
Qed.

(** The loop on digits whose running value stays small: no guard fires
    and nothing wraps. *)
Lemma parse_loop_horner (base : Z) (ds vs : list Z) :
  2 <= base <= 10 -> Forall2 (fun c v => digit_value c = Some v) ds vs ->
  forall r, 0 <= r -> (r + 4) * 10 ^ Z.of_nat (List.length ds) <= 40000 ->
  parse_loop base ds (List.length ds) r = Some (fold_left (fun r d => r * base + d) vs r).
Proof.
  intros Hb Hf. induction Hf as [|c v ds vs Hcv Hf IH]; intros r Hr Hbound;
    [reflexivity|].
  cbn [List.length parse_loop hd tl fold_left] in *.
  rewrite Nat2Z.inj_succ, Z.pow_succ_r in Hbound by lia.
  assert (H10 : 0 < 10 ^ Z.of_nat (List.length ds)) by
    (apply Z.pow_pos_nonneg; lia).
  pose proof (digit_value_range _ _ Hcv) as Hv.
  set (X := 10 ^ Z.of_nat (List.length ds)) in *.
  assert (Hr10 : (r + 4) * 10 <= 40000).
  { apply Z.le_trans with ((r + 4) * (10 * X)); [|exact Hbound].
    apply Z.mul_le_mono_nonneg_l; lia. }
  destruct (Z.gtb_spec r (65535 / 10)) as [Hg|_]; [change (65535 / 10) with 6553 in Hg; lia|].
  rewrite Hcv.
  assert (Hrb : r * base <= r * 10) by (apply Z.mul_le_mono_nonneg_l; lia).
  assert (Hrb0 : 0 <= r * base) by (apply Z.mul_nonneg_nonneg; lia).
  rewrite (Z.mod_small (r * base)) by lia.
  rewrite Z.mod_small by lia.
  apply IH; [lia|].
  apply Z.le_trans with ((r + 4) * 10 * X); [|rewrite <- Z.mul_assoc; exact Hbound].
  apply Z.mul_le_mono_nonneg_r; lia.
Qed.

Lemma parse_loop_app (base : Z) (ds rest : list Z) (m : nat) :
  forall r r', parse_loop base ds (List.length ds) r = Some r' ->
  parse_loop base (ds ++ rest) (List.length ds + m) r = parse_loop base rest m r'.
Proof.
  induction ds as [|c ds IH]; intros r r' H; cbn in H |- *.
  - replace r' with r by congruence. reflexivity.
  - change (65535 / 10) with 6553 in H |- *.
    destruct (r >? 6553); [discriminate|].
    destruct (digit_value c); [|discriminate].
    apply IH. exact H.
Qed.

Lemma parse_loop_reject (base : Z) (i : nat) :
  forall buf len r, (i < len)%nat -> digit_value (byte_at buf i) = None ->
  parse_loop base buf len r = None.
Proof.
  induction i as [|i IH]; intros buf len r Hi Hd; destruct len as [|len]; try lia;
    cbn [parse_loop].
  - destruct (r >? 65535 / 10); [reflexivity|].
    replace (hd 0 buf) with (byte_at buf 0) by (destruct buf; reflexivity).
    rewrite Hd. reflexivity.
  - destruct (r >? 65535 / 10); [reflexivity|].
    destruct (digit_value (hd 0 buf)); [|reflexivity].
    apply IH; [lia|].
    replace (byte_at (tl buf) i) with (byte_at buf (S i)) by
      (destruct buf; unfold byte_at; cbn; [destruct i|]; reflexivity).
    exact Hd.
Qed.

Lemma parse_loop_take (base : Z) (len : nat) :
  forall buf r, parse_loop base (take len buf) len r = parse_loop base buf len r.
Proof.
  induction len as [|len IH]; intros buf r; [reflexivity|].
  destruct buf as [|c buf]; cbn [take parse_loop hd tl].
  - reflexivity.
  - destruct (r >? 65535 / 10); [reflexivity|].
    destruct (digit_value c); [apply IH | reflexivity].
Qed.

(** [parseNumber] with a base from 2 to 10 on at most four characters,
    each a digit or a letter: it returns the value of the digits in that
    base (a letter counting 10 + its place in the alphabet), with no
    check that a digit is below the base. *)
Theorem parseNumber16_value (base : Z) (ds vs : list Z) :
  2 <= base <= 10 -> (List.length ds <= 4)%nat ->
  Forall2 (fun c v => digit_value c = Some v) ds vs ->
  parseNumber16 ds (List.length ds) base = Some (horner base vs) /\
  (horner base vs <= 255 -> parseNumber8 ds (List.length ds) base = Some (horner base vs)).
Proof.
  intros Hb Hl Hf.
  assert (Hp : parseNumber16 ds (List.length ds) base = Some (horner base vs)).
  { unfold parseNumber16.
    destruct (Z.ltb_spec base 2); [lia|]. destruct (Z.ltb_spec 36 base); [lia|].
    cbn [orb]. apply parse_loop_horner; [lia|exact Hf|lia|].
    assert (H4 : 10 ^ Z.of_nat (List.length ds) <= 10 ^ 4)
      by (apply Z.pow_le_mono_r; lia).
    cbn in H4 |- *. lia. }
  split; [exact Hp|]. intros Hle.
  unfold parseNumber8. rewrite Hp.
  destruct (Z.gtb_spec (horner base vs) 255); [lia|reflexivity].
Qed.

(** Witness: "1f" in base 10 reads as 1 * 10 + 15 = 25; the letter is not
    checked against the base. *)
Lemma parseNumber16_value_witness :
  parseNumber16 (bytes "1f") 2 10 = Some 25.
Proof.
  exact (proj1 (parseNumber16_value 10 (bytes "1f") [1; 15]
    ltac:(lia) ltac:(cbn; lia) ltac:(repeat constructor))).
Defined.

(** The overflow guard of [parseNumber] compares the running value with
    [65535 / 10] before each step: a five-character decimal number whose
    first four digits are at most 6553 is accepted, and its value is
    taken modulo 65536 (so "65536" to "65539" read as 0 to 3). *)
Theorem parseNumber16_wraps (ds vs : list Z) (d v : Z) :
  List.length ds = 4%nat ->
  Forall2 (fun c v => digit_value c = Some v) ds vs ->
  horner 10 vs <= 6553 -> digit_value d = Some v ->
  parseNumber16 (ds ++ [d]) 5 10 = Some ((horner 10 vs * 10 + v) mod 65536).
Proof.
  intros Hl Hf Hp Hd.
  assert (Hv := digit_value_range _ _ Hd).
  assert (H0 : 0 <= horner 10 vs).
  { unfold horner. clear -Hf.
    assert (G : forall r, 0 <= r -> 0 <= fold_left (fun r d => r * 10 + d) vs r).
    { induction Hf as [|c w ds vs Hcw Hf IH]; intros r Hr; [exact Hr|].
      cbn [fold_left]. apply IH. pose proof (digit_value_range _ _ Hcw). lia. }
    apply G. lia. }
  unfold parseNumber16. cbn [Z.ltb Z.compare orb].
  replace 5%nat with (List.length ds + 1)%nat by lia.
  rewrite (parse_loop_app 10 ds [d] 1 0 (horner 10 vs)).
  - cbn [parse_loop hd tl].
    destruct (Z.gtb_spec (horner 10 vs) (65535 / 10)) as [Hg|_]; [change (65535 / 10) with 6553 in Hg; lia|].
    rewrite Hd. f_equal.
    rewrite (Z.mod_small (horner 10 vs * 10)) by lia. reflexivity.
  - apply parse_loop_horner; [lia|exact Hf|lia|]. rewrite Hl. cbn. lia.
Qed.

(** Witness: "65536" reads as 0. *)
Lemma parseNumber16_wraps_witness :
  parseNumber16 (bytes "6553" ++ bytes "6") 5 10 = Some 0.
Proof.
  exact (parseNumber16_wraps (bytes "6553") [6; 5; 5; 3] (chr "6"%char) 6
    eq_refl ltac:(repeat constructor) ltac:(vm_compute; discriminate) eq_refl).
Defined.

(** [parseNumber] looks at no byte past the [len] it is given, and it
    fails (for both widths) as soon as one of those [len] bytes is
    neither a digit nor a letter. *)
Theorem parseNumber_reads_len (buf : list Z) (len : nat) (base : Z) :
  parseNumber16 (take len buf) len base = parseNumber16 buf len base /\
  parseNumber8 (take len buf) len base = parseNumber8 buf len base /\
  (forall i, (i < len)%nat -> digit_value (byte_at buf i) = None ->
   parseNumber16 buf len base = None /\ parseNumber8 buf len base = None).
Proof.
  assert (Ht : parseNumber16 (take len buf) len base = parseNumber16 buf len base).
  { unfold parseNumber16. destruct (_ || _); [reflexivity|]. apply parse_loop_take. }
  split; [exact Ht|]. split; [unfold parseNumber8; rewrite Ht; reflexivity|].
  intros i Hi Hd.
  assert (Hn : parseNumber16 buf len base = None).
  { unfold parseNumber16. destruct (_ || _); [reflexivity|].
    apply (parse_loop_reject base i); assumption. }
  split; [exact Hn|]. unfold parseNumber8. rewrite Hn. reflexivity.
Qed.

(** Witness: "1:2" in base 10 fails on its second byte. *)
Lemma parseNumber_reads_len_witness :
  parseNumber16 (bytes "1:2") 3 10 = None.
Proof.
  exact (proj1 (proj2 (proj2 (parseNumber_reads_len (bytes "1:2") 3 10)) 1%nat
    ltac:(lia) eq_refl)).
Defined.

End ParseExtra.

Module EngineExtra.
Import Parse Engine Facts EngineProofs.

(** [processConnect(cid, ...)] leaves the entry of [cid] connected, with
    its error flag cleared and the given address and ports, and no other
    entry changed; the association is untouched; an NCM connect records
    [cid] as [ncm_auto_cid] and leaves an NCM_CONNECTED event pending; a
    plain connect of an idle CID touches neither the events nor
    [ncm_auto_cid]. *)
Theorem processConnect_entry (cid : nat) (rip rport lport : Z) (ncm : bool) (e : Engine) :
  let e' := processConnect cid rip rport lport ncm e in
  let c := connections e' cid in
  connected c = true /\ error c = false /\
  remote_ip c = rip /\ remote_port c = rport /\ local_port c = lport /\
  (forall j, j <> cid -> connections e' j = connections e j) /\
  associated e' = associated e /\
  (ncm = true -> ncm_auto_cid e' = cid /\ has_event (events e') EVENT_NCM_CONNECTED = true) /\
  (ncm = false -> connected (connections e cid) = false ->
   events e' = events e /\ ncm_auto_cid e' = ncm_auto_cid e).
Proof.
  cbn zeta.
  assert (He1 : forall j, j <> cid ->
            connections (if connected (connections e cid) then processDisconnect cid e else e) j
            = connections e j).
  { intros j Hj. destruct (connected (connections e cid)); [|reflexivity].
    rewrite processDisconnect_connections.
    destruct (Nat.eqb_spec j cid); [contradiction|reflexivity]. }
  assert (Ha1 : associated (if connected (connections e cid) then processDisconnect cid e else e)
                = associated e).
  { destruct (connected _); [apply processDisconnect_associated|reflexivity]. }
  unfold processConnect.
  set (e1 := if connected (connections e cid) then processDisconnect cid e else e) in *.
  destruct ncm; cbn [connections set_connection set_events set_ncm_auto_cid associated
                     events ncm_auto_cid connected error remote_ip remote_port local_port];
    rewrite Nat.eqb_refl.
  - refine (conj eq_refl (conj eq_refl (conj eq_refl (conj eq_refl (conj eq_refl
              (conj _ (conj Ha1 (conj _ _)))))))).
    + intros j Hj. destruct (Nat.eqb_spec j cid); [contradiction|]. apply He1, Hj.
    + intros _. split; [reflexivity|].
      event_bits. unfold EVENT_NCM_CONNECTED.
      rewrite testbit_set_flag by lia. apply orb_true_r.
    + discriminate.
  - refine (conj eq_refl (conj eq_refl (conj eq_refl (conj eq_refl (conj eq_refl
              (conj _ (conj Ha1 (conj _ _)))))))).
    + intros j Hj. destruct (Nat.eqb_spec j cid); [contradiction|]. apply He1, Hj.
    + discriminate.
    + intros _ Hc. unfold e1. rewrite Hc. split; reflexivity.
Qed.

(** [processDisconnect(cid)] does nothing on a CID that is not
    connected, so a second disconnect of the same CID changes nothing; on
    a connected one it clears [connected] (and [ssl]) and keeps the error
    flag, and it never changes another entry or the association. *)
Theorem processDisconnect_closes (cid : nat) (e : Engine) :
  let e' := processDisconnect cid e in
  (connected (connections e cid) = false -> e' = e) /\
  processDisconnect cid e' = e' /\
  connected (connections e' cid) = false /\
  error (connections e' cid) = error (connections e cid) /\
  (connected (connections e cid) = true -> ssl (connections e' cid) = false) /\
  (forall j, j <> cid -> connections e' j = connections e j) /\
  associated e' = associated e.
Proof.
  cbn zeta.
  assert (Hc : forall j, connections (processDisconnect cid e) j =
     if (j =? cid)%nat && connected (connections e cid)
     then mkConnection false (error (connections e cid)) false
            (remote_ip (connections e cid)) (remote_port (connections e cid))
            (local_port (connections e cid))
     else connections e j) by apply processDisconnect_connections.
  assert (Hoff : connected (connections (processDisconnect cid e) cid) = false).
  { rewrite Hc, Nat.eqb_refl. destruct (connected (connections e cid)) eqn:C;
      [reflexivity | exact C]. }
  split; [|split; [|split; [exact Hoff|split; [|split; [|split]]]]].
  - intros H. unfold processDisconnect. rewrite H. reflexivity.
  - unfold processDisconnect at 1. rewrite Hoff. reflexivity.
  - rewrite Hc, Nat.eqb_refl. destruct (connected _); reflexivity.
  - intros H. rewrite Hc, Nat.eqb_refl, H. reflexivity.
  - intros j Hj. rewrite Hc. destruct (Nat.eqb_spec j cid); [contradiction|reflexivity].
  - apply processDisconnect_associated.
Qed.

(** [processAssociation()] leaves the engine associated with an
    ASSOCIATED event pending; on an engine that was not associated it
    touches no connection; on one that already was, it first runs the
    disassociation: every connection [0..=MAX_CID] is closed, those that
    were open with their error flag set. *)
Theorem processAssociation_state (e : Engine) :
  let e' := processAssociation e in
  associated e' = true /\
  has_event (events e') EVENT_ASSOCIATED = true /\
  (associated e = false -> forall j, connections e' j = connections e j) /\
  (associated e = true -> forall j, (j <= MAX_CID)%nat ->
     connected (connections e' j) = false /\
     (connected (connections e j) = true -> error (connections e' j) = true)).
Proof.
  cbn zeta.
  split; [reflexivity|]. split.
  { event_bits. cbn [processAssociation events set_events].
    unfold EVENT_ASSOCIATED. rewrite testbit_set_flag by lia. apply orb_true_r. }
  split.
  - intros Ha j. unfold processAssociation. rewrite Ha. reflexivity.
  - intros Ha j Hj.
    assert (E : connections (processAssociation e) j = connections (processDisassociation e) j).
    { unfold processAssociation. rewrite Ha. reflexivity. }
    rewrite E, processDisassociation_connections by exact Ha.
    destruct (Nat.leb_spec j MAX_CID); [|lia].
    destruct (connected (connections e j)) eqn:C; cbn [andb].
    + split; reflexivity.
    + split; [exact C | discriminate].
Qed.

Lemma parseNumber8_one (c v : Z) (rest : list Z) :
  digit_value c = Some v -> parseNumber8 (c :: rest) 1 16 = Some v.
Proof.
  intros Hd. pose proof (ParseExtra.digit_value_range _ _ Hd) as Hv.
  unfold parseNumber8, parseNumber16. change ((16 <? 2) || (36 <? 16)) with false.
  cbv iota. cbn [parse_loop hd tl].
  change (0 >? 65535 / 10) with false. cbv iota. rewrite Hd.
  change ((0 * 16) mod 65536) with 0. rewrite Z.add_0_l, Z.mod_small by lia.
  destruct (Z.gtb_spec v 255); [lia|reflexivity].
Qed.

(** The argument-free <ESC>A messages, whose payload is the subtype's
    hex digit alone: only a disassociation (0x3) or an IP configuration
    failure (0x8) changes the engine, by a disassociation, and only an
    association success (0xc) by an association; the three boot messages
    (0x7, 0x9, 0xa) leave the engine alone and return [initializing];
    the others, including the subtypes that need an argument, are
    rejected. *)
Theorem processAsync_events (s : Z) (e : Engine) :
  0 <= s <= GS_ASYNC_MAX ->
  processAsync [Bulk.hex_char s] s e =
  if (s =? GS_ASYNC_DISASSO_EVT) || (s =? GS_ASYNC_ENOIP) then (true, processDisassociation e)
  else if s =? GS_ASYNC_NWCONN_SUCCESS then (true, processAssociation e)
  else if (s =? GS_ASYNC_BOOT_UNEXPEC) || (s =? GS_ASYNC_BOOT_INTERNAL)
          || (s =? GS_ASYNC_BOOT_EXTERNAL) then (initializing e, e)
  else (false, e).
Proof.
  unfold GS_ASYNC_MAX, GS_ASYNC_NWCONN_SUCCESS. intros Hs.
  assert (Hc : s = 0 \/ s = 1 \/ s = 2 \/ s = 3 \/ s = 4 \/ s = 5 \/ s = 6 \/ s = 7 \/
               s = 8 \/ s = 9 \/ s = 10 \/ s = 11 \/ s = 12) by lia.
  repeat destruct Hc as [->|Hc]; try (subst s); reflexivity.
Qed.

Lemma processAsync_events_witness :
  processAsync [Bulk.hex_char 3] 3 engine_c3 = (true, processDisassociation engine_c3).
Proof. exact (processAsync_events 3 engine_c3 ltac:(unfold GS_ASYNC_MAX, GS_ASYNC_NWCONN_SUCCESS; lia)). Defined.

End EngineExtra.

Module AsyncExtra.
Import Parse Engine Facts EngineProofs.

(** An <ESC>A socket failure (0x0) or disconnect (0x2) message
    ["<subtype> <cid>"] runs [processDisconnect] on the CID it names; for
    a CID in the table ([0..=MAX_CID]) that entry ends closed, and the
    socket failure does not set its error flag (processAsync compares the
    subtype with the synchronous code GS_SOCK_FAIL, not with
    GS_ASYNC_SOCK_FAIL). *)
Theorem processAsync_socket_close (s c v : Z) (e : Engine) :
  s = GS_ASYNC_SOCK_FAIL \/ s = GS_ASYNC_ECIDCLOSE -> digit_value c = Some v ->
  let r := processAsync [Bulk.hex_char s; chr " "%char; c] s e in
  r = (true, processDisconnect (Z.to_nat v) e) /\
  ((Z.to_nat v <= MAX_CID)%nat ->
   connected (connections (snd r) (Z.to_nat v)) = false /\
   error (connections (snd r) (Z.to_nat v)) = error (connections e (Z.to_nat v))).
Proof.
  intros Hs Hd. cbn zeta.
  assert (Hr : processAsync [Bulk.hex_char s; chr " "%char; c] s e =
               (true, processDisconnect (Z.to_nat v) e)).
  { unfold processAsync.
    destruct Hs as [-> | ->];
      [rewrite (EngineExtra.parseNumber8_one (Bulk.hex_char 0) 0 _ eq_refl)
      |rewrite (EngineExtra.parseNumber8_one (Bulk.hex_char 2) 2 _ eq_refl)];
      (cbn -[processDisconnect parseNumber8];
       rewrite (EngineExtra.parseNumber8_one c v [] Hd); reflexivity). }
  rewrite Hr. split; [reflexivity|]. intros _. cbn [snd].
  rewrite !processDisconnect_connections, Nat.eqb_refl.
  destruct (connected (connections e (Z.to_nat v))) eqn:C; cbn [andb].
  - split; reflexivity.
  - split; [exact C|reflexivity].
Qed.

Lemma processAsync_socket_close_witness :
  let r := processAsync [Bulk.hex_char 0; chr " "%char; chr "3"%char] 0 engine_c3 in
  r = (true, processDisconnect (Z.to_nat 3) engine_c3) /\
  ((Z.to_nat 3 <= MAX_CID)%nat ->
   connected (connections (snd r) (Z.to_nat 3)) = false /\
   error (connections (snd r) (Z.to_nat 3)) = error (connections engine_c3 (Z.to_nat 3))).
Proof.
  exact (processAsync_socket_close 0 (chr "3"%char) 3 engine_c3 (or_introl eq_refl) eq_refl).
Defined.

(** An <ESC>A connection success message ["1 <cid>"] (the network
    connection manager's connect) runs [processConnect] on the CID it
    names with zero address and ports.  The CID is parsed as one base-16
    digit with no check against MAX_CID, so a letter g..z is passed on as
    a CID 16..35, outside the table.  For a CID in the table
    ([0..=MAX_CID]) the entry ends connected and the CID is recorded as
    [ncm_auto_cid]. *)
Theorem processAsync_con_success (c v : Z) (e : Engine) :
  digit_value c = Some v ->
  let r := processAsync [chr "1"%char; chr " "%char; c] GS_ASYNC_CON_SUCCESS e in
  r = (true, processConnect (Z.to_nat v) 0 0 0 true e) /\ 0 <= v <= 35 /\
  ((Z.to_nat v <= MAX_CID)%nat ->
   connected (connections (snd r) (Z.to_nat v)) = true /\
   ncm_auto_cid (snd r) = Z.to_nat v).
Proof.
  intros Hd. cbn zeta.
  assert (Hr : processAsync [chr "1"%char; chr " "%char; c] GS_ASYNC_CON_SUCCESS e =
               (true, processConnect (Z.to_nat v) 0 0 0 true e)).
  { unfold processAsync.
    rewrite (EngineExtra.parseNumber8_one (chr "1"%char) 1 _ eq_refl).
    cbn -[processConnect parseNumber8].
    rewrite (EngineExtra.parseNumber8_one c v [] Hd). reflexivity. }
  rewrite Hr. split; [reflexivity|].
  split; [exact (ParseExtra.digit_value_range c v Hd)|]. intros _.
  cbn [snd]. unfold processConnect.
  cbn [connections set_connection connected ncm_auto_cid set_events set_ncm_auto_cid].
  rewrite Nat.eqb_refl. split; reflexivity.
Qed.

Lemma processAsync_con_success_witness :
  let r := processAsync [chr "1"%char; chr " "%char; chr "z"%char] GS_ASYNC_CON_SUCCESS engine_c3 in
  r = (true, processConnect (Z.to_nat 35) 0 0 0 true engine_c3) /\ 0 <= 35 <= 35 /\
  ((Z.to_nat 35 <= MAX_CID)%nat ->
   connected (connections (snd r) (Z.to_nat 35)) = true /\
   ncm_auto_cid (snd r) = Z.to_nat 35).
Proof. exact (processAsync_con_success (chr "z"%char) 35 engine_c3 eq_refl). Defined.

End AsyncExtra.

Module RingExtra.
Import Engine Ring Reading RingNotions RingProofs.

Section Queue.
Variables (N F L : nat) (fob : list Z -> RXFrame).

Lemma mod_once (a : nat) :
  (0 < N)%nat -> (a < 2 * N)%nat -> (a mod N = if a <? N then a else a - N)%nat.
Proof.
  intros HN Ha. destruct (Nat.ltb_spec a N); [apply Nat.mod_small; lia|].
  replace a with ((a - N) + 1 * N)%nat at 1 by lia.
  rewrite Nat.Div0.mod_add. apply Nat.mod_small. lia.
Qed.

Lemma ring_used_eq (s : RxState) :
  ring_wf N s ->
  ring_used N s = if (rx_data_tail s <=? rx_data_head s)%nat
                  then (rx_data_head s - rx_data_tail s)%nat
                  else (rx_data_head s + N - rx_data_tail s)%nat.
Proof.
  intros (HN & Hh & Ht & _). unfold ring_used. rewrite mod_once by lia.
  destruct (Nat.leb_spec (rx_data_tail s) (rx_data_head s));
    destruct (Nat.ltb_spec (rx_data_head s + N - rx_data_tail s) N); lia.
Qed.


Lemma byte_at_insert (l : list Z) (i j : nat) (x : Z) :
  byte_at (<[i := x]> l) j = if (j =? i)%nat && (i <? List.length l)%nat then x else byte_at l j.
Proof.
  unfold byte_at. rewrite !nth_lookup.
  destruct (Nat.eqb_spec j i) as [->|Hne]; cbn [andb].
  - destruct (Nat.ltb_spec i (List.length l)).
    + rewrite list_lookup_insert_eq by exact H. reflexivity.
    + rewrite list_insert_ge by lia. reflexivity.
  - rewrite list_lookup_insert_ne by congruence. reflexivity.
Qed.

(** Pushing at the head of a ring that is not full. *)
Lemma ring_push (s : RxState) (c : Z) :
  ring_wf N s -> ((rx_data_head s + 1) mod N <> rx_data_tail s)%nat ->
  let s' := with_data s (<[rx_data_head s := c]> (rx_data s)) ((rx_data_head s + 1) mod N) in
  ring_wf N s' /\ ring_contents N s' = ring_contents N s ++ [c].
Proof.
  intros W Hnf. pose proof W as (HN & Hh & Ht & Hl). cbn zeta.
  assert (W' : ring_wf N (with_data s (<[rx_data_head s := c]> (rx_data s))
                            ((rx_data_head s + 1) mod N))).
  { unfold ring_wf, with_data; cbn.
    rewrite length_insert. split; [lia|split; [apply Nat.mod_upper_bound; lia|split; lia]]. }
  split; [exact W'|].
  assert (Hu : ring_used N (with_data s (<[rx_data_head s := c]> (rx_data s))
                              ((rx_data_head s + 1) mod N)) = S (ring_used N s)).
  { rewrite (ring_used_eq _ W'), (ring_used_eq _ W). unfold with_data; cbn.
    rewrite mod_once in * by lia.
    destruct (Nat.ltb_spec (rx_data_head s + 1) N);
      destruct (Nat.leb_spec (rx_data_tail s) (rx_data_head s));
      destruct (Nat.leb_spec (rx_data_tail s) (rx_data_head s + 1));
      destruct (Nat.leb_spec (rx_data_tail s) (rx_data_head s + 1 - N)); lia. }
  unfold ring_contents. rewrite Hu, seq_S, map_app. cbn [map].
  unfold with_data; cbn [rx_data rx_data_tail].
  f_equal.
  - apply map_ext_in. intros k Hk. apply in_seq in Hk.
    rewrite byte_at_insert.
    enough (((rx_data_tail s + k) mod N =? rx_data_head s)%nat = false) as -> by reflexivity.
    assert (Hk' : (ring_used N s < N)%nat) by (apply Nat.mod_upper_bound; lia).
    apply Nat.eqb_neq. rewrite mod_once by lia.
    rewrite (ring_used_eq _ W) in Hk.
    destruct (Nat.ltb_spec (rx_data_tail s + k) N);
      destruct (Nat.leb_spec (rx_data_tail s) (rx_data_head s)); lia.
  - rewrite byte_at_insert, Hl.
    replace ((rx_data_tail s + (0 + ring_used N s)) mod N)%nat with (rx_data_head s).
    + rewrite Nat.eqb_refl. destruct (Nat.ltb_spec (rx_data_head s) N); [reflexivity|lia].
    + rewrite (ring_used_eq _ W).
      destruct (Nat.leb_spec (rx_data_tail s) (rx_data_head s)); rewrite mod_once by lia;
        [destruct (Nat.ltb_spec (rx_data_tail s + (0 + (rx_data_head s - rx_data_tail s))) N)
        |destruct (Nat.ltb_spec (rx_data_tail s + (0 + (rx_data_head s + N - rx_data_tail s))) N)];
        lia.
Qed.

(** Popping at the tail of a ring that is not empty. *)
Lemma ring_pop (s : RxState) (f : RXFrame) :
  ring_wf N s -> rx_data_tail s <> rx_data_head s ->
  ring_wf N (with_tail s ((rx_data_tail s + 1) mod N) f) /\
  ring_contents N s = byte_at (rx_data s) (rx_data_tail s)
                      :: ring_contents N (with_tail s ((rx_data_tail s + 1) mod N) f) /\
  ring_used N (with_tail s ((rx_data_tail s + 1) mod N) f) = (ring_used N s - 1)%nat.
Proof.
  intros W Hne. pose proof W as (HN & Hh & Ht & Hl).
  assert (W' : ring_wf N (with_tail s ((rx_data_tail s + 1) mod N) f)).
  { unfold ring_wf, with_tail; cbn. split; [lia|split; [lia|split; [|exact Hl]]].
    apply Nat.mod_upper_bound; lia. }
  assert (Hu : ring_used N (with_tail s ((rx_data_tail s + 1) mod N) f) = (ring_used N s - 1)%nat).
  { rewrite (ring_used_eq _ W'), (ring_used_eq _ W). unfold with_tail; cbn.
    rewrite mod_once by lia.
    destruct (Nat.ltb_spec (rx_data_tail s + 1) N);
      destruct (Nat.leb_spec (rx_data_tail s) (rx_data_head s));
      destruct (Nat.leb_spec (rx_data_tail s + 1) (rx_data_head s));
      destruct (Nat.leb_spec (rx_data_tail s + 1 - N) (rx_data_head s)); lia. }
  split; [exact W'|split; [|exact Hu]].
  assert (Hpos : ring_used N s = S (ring_used N s - 1)).
  { rewrite (ring_used_eq _ W).
    destruct (Nat.leb_spec (rx_data_tail s) (rx_data_head s)); lia. }
  unfold ring_contents at 1. rewrite Hpos. cbn [seq map].
  rewrite Nat.add_0_r, (Nat.mod_small (rx_data_tail s)) by lia. f_equal.
  unfold ring_contents. rewrite Hu, <- seq_shift, map_map.
  apply map_ext. intros k. unfold with_tail; cbn [rx_data rx_data_tail].
  rewrite Nat.Div0.add_mod_idemp_l. f_equal. f_equal. lia.
Qed.

(** [bufferIncomingData(c)] on a ring that is not full ([next_head !=
    rx_data_tail]) appends [c] to the buffered bytes, keeps both cursors
    inside the ring, and leaves the tail, both frame headers and the
    connections untouched: nothing is dropped. *)
Theorem bufferIncomingData_push (c : Z) (s : RxState) :
  ring_wf N s -> ((rx_data_head s + 1) mod N <> rx_data_tail s)%nat ->
  let s' := bufferIncomingData N F L fob c s in
  ring_wf N s' /\ ring_contents N s' = ring_contents N s ++ [c] /\
  rx_data_tail s' = rx_data_tail s /\ tail_frame s' = tail_frame s /\
  head_frame s' = head_frame s /\ eng s' = eng s.
Proof.
  intros W Hnf. cbn zeta.
  assert (E : bufferIncomingData N F L fob c s =
              with_data s (<[rx_data_head s := c]> (rx_data s)) ((rx_data_head s + 1) mod N)).
  { unfold bufferIncomingData. destruct (Nat.eqb_spec ((rx_data_head s + 1) mod N) (rx_data_tail s));
      [contradiction|reflexivity]. }
  rewrite E. destruct (ring_push s c W Hnf) as [W' Hc].
  split; [exact W'|split; [exact Hc|]]. repeat split.
Qed.

(** [getData()] on a ring that holds bytes takes the oldest buffered
    byte: it returns the first of the buffered bytes, leaves the rest
    buffered, keeps both cursors inside the ring and counts the byte off
    [tail_frame.length] (a [uint16_t]), leaving the head and [head_frame]
    alone. *)
Theorem getData_pop (s : RxState) :
  ring_wf N s -> rx_data_tail s <> rx_data_head s ->
  let (b, s') := getData N s in
  ring_contents N s = b :: ring_contents N s' /\ ring_wf N s' /\
  length (tail_frame s') = (length (tail_frame s) - 1) mod 65536 /\
  cid (tail_frame s') = cid (tail_frame s) /\
  rx_data_head s' = rx_data_head s /\ head_frame s' = head_frame s.
Proof.
  intros W Hne.
  destruct (ring_pop s (set_length (tail_frame s) ((length (tail_frame s) - 1) mod 65536)) W Hne)
    as [W' [Hc _]].
  assert (E : getData N s =
    (byte_at (rx_data s) (rx_data_tail s),
     with_tail s ((rx_data_tail s + 1) mod N)
       (set_length (tail_frame s) ((length (tail_frame s) - 1) mod 65536)))).
  { unfold getData. destruct (Nat.eqb_spec (rx_data_tail s) (rx_data_head s));
      [contradiction|reflexivity]. }
  rewrite E.
  exact (conj Hc (conj W' (conj eq_refl (conj eq_refl (conj eq_refl eq_refl))))).
Qed.

Lemma getFrameHeader_valid (c : nat) (s s1 : RxState) (f : RXFrame) :
  getFrameHeader N F L fob (Some c) s = (f, s1) -> frame_valid f = true ->
  f = tail_frame s1 /\ cid (tail_frame s1) = c.
Proof.
  intros H V. unfold getFrameHeader in H. cbv zeta in H.
  destruct (length (tail_frame s) =? 0); [destruct (negb _)|].
  - destruct (Nat.eqb_spec (cid (tail_frame (loadFrameHeader N F L fob s))) c);
      injection H as <- <-; [auto | discriminate V].
  - injection H as <- <-. discriminate V.
  - destruct (Nat.eqb_spec (cid (tail_frame s)) c);
      injection H as <- <-; [auto | discriminate V].
Qed.





End Queue.

Lemma bufferIncomingData_push_witness :
  let s' := bufferIncomingData 16 4 16 ex_frame_of_bytes 101 ex_ring in
  ring_wf 16 s' /\ ring_contents 16 s' = ring_contents 16 ex_ring ++ [101] /\
  rx_data_tail s' = rx_data_tail ex_ring /\ tail_frame s' = tail_frame ex_ring /\
  head_frame s' = head_frame ex_ring /\ eng s' = eng ex_ring.
Proof.
  exact (bufferIncomingData_push 16 4 16 ex_frame_of_bytes 101 ex_ring
           ltac:(unfold ring_wf; cbn; lia) ltac:(cbn; lia)).
Defined.

Lemma getData_pop_witness :
  let (b, s') := getData 16 ex_ring in
  ring_contents 16 ex_ring = b :: ring_contents 16 s' /\ ring_wf 16 s' /\
  length (tail_frame s') = (length (tail_frame ex_ring) - 1) mod 65536 /\
  cid (tail_frame s') = cid (tail_frame ex_ring) /\
  rx_data_head s' = rx_data_head ex_ring /\ head_frame s' = head_frame ex_ring.
Proof.
  exact (getData_pop 16 ex_ring ltac:(unfold ring_wf; cbn; lia) ltac:(cbn; lia)).
Defined.



End RingExtra.

Module SpiExtra.
Import Spi Notions Facts.

Section Codes.
Variable K : SpiCodes.
Hypothesis Hd : codes_distinct K.

Lemma codes_neq :
  SPI_SPECIAL_ESC K <> SPI_SPECIAL_ALL_ONE K /\ SPI_SPECIAL_ESC K <> SPI_SPECIAL_ALL_ZERO K /\
  SPI_SPECIAL_ESC K <> SPI_SPECIAL_ACK K /\ SPI_SPECIAL_ESC K <> SPI_SPECIAL_IDLE K /\
  SPI_SPECIAL_ESC K <> SPI_SPECIAL_XOFF K /\ SPI_SPECIAL_ESC K <> SPI_SPECIAL_XON K /\
  SPI_SPECIAL_IDLE K <> SPI_SPECIAL_ALL_ONE K.
Proof.
  pose proof Hd as H0. unfold codes_distinct in H0.
  repeat match goal with
         | H : NoDup (_ :: _) |- _ => inversion_clear H
         end.
  repeat split; intros E;
    match goal with
    | H : _ ∉ _ |- False =>
        solve [apply H, list_elem_of_In; rewrite E; cbn; tauto]
    end.
Qed.

(** An IDLE byte from the module never changes [spi_xoff] or the latch. *)
Lemma processSpiSpecial_idle (st : Framer) :
  spi_xoff (snd (processSpiSpecial K (SPI_SPECIAL_IDLE K) st)) = spi_xoff st /\
  unrecoverableError (snd (processSpiSpecial K (SPI_SPECIAL_IDLE K) st)) = unrecoverableError st /\
  spi_prev_was_esc (snd (processSpiSpecial K (SPI_SPECIAL_IDLE K) st)) = false.
Proof.
  destruct codes_neq as (_ & _ & _ & _ & _ & _ & Hi).
  unfold processSpiSpecial. destruct (spi_prev_was_esc st) eqn:He; [repeat split|].
  rewrite (proj2 (Z.eqb_neq _ _) Hi), Z.eqb_refl. cbn [negb].
  destruct (SPI_SPECIAL_IDLE K =? SPI_SPECIAL_ALL_ZERO K);
    [|destruct (SPI_SPECIAL_IDLE K =? SPI_SPECIAL_ACK K)];
    cbn; auto.
Qed.

Lemma processSpiSpecial_esc (st : Framer) :
  spi_prev_was_esc st = false ->
  processSpiSpecial K (SPI_SPECIAL_ESC K) st = (-1, set_esc (set_errorcount st 0) true).
Proof.
  destruct codes_neq as (H1 & H2 & H3 & H4 & H5 & H6 & _). intros He.
  unfold processSpiSpecial. rewrite He.
  rewrite (proj2 (Z.eqb_neq _ _) H1), (proj2 (Z.eqb_neq _ _) H2), (proj2 (Z.eqb_neq _ _) H3),
    (proj2 (Z.eqb_neq _ _) H4), (proj2 (Z.eqb_neq _ _) H5), (proj2 (Z.eqb_neq _ _) H6), Z.eqb_refl.
  reflexivity.
Qed.

Lemma processSpiSpecial_plain (c : Z) (st : Framer) :
  spi_prev_was_esc st = false -> isSpiSpecial K c = false ->
  processSpiSpecial K c st = (c, set_errorcount st 0).
Proof.
  intros He Hs. unfold isSpiSpecial in Hs.
  repeat rewrite orb_false_iff in Hs.
  unfold processSpiSpecial. rewrite He.
  destruct Hs as [[[[[[-> ->] ->] ->] ->] ->] ->]. reflexivity.
Qed.

(** [readRaw()] over SPI decodes what the SPI branch of [writeRaw] sends:
    when the module clocks out the encoding of a byte [b] (ESC and [b ^
    SPI_ESC_XOR] for a reserved value, [b] itself otherwise), readRaw
    returns [b], with the escape flag and the ALL_ONE count cleared,
    having clocked out one IDLE byte per wire byte.  It needs two tries
    for an escaped byte: with one (a poll within MINIMUM_POLL_INTERVAL)
    it returns -1 after the ESC. *)
Theorem readRaw_spi_decode (b : Z) (tries : nat) (st : Framer) (rest out : list Z) :
  0 <= b -> spi_prev_was_esc st = false -> unrecoverableError st = false -> (2 <= tries)%nat ->
  readRaw K TSpi false tries st (mkBus (spi_encode K b ++ rest) out) =
  (b, set_errorcount st 0,
   mkBus rest (out ++ repeat (SPI_SPECIAL_IDLE K) (List.length (spi_encode K b)))).
Proof.
  intros Hb He Hu Ht. destruct tries as [|[|t]]; [lia|lia|].
  unfold readRaw. rewrite Hu. unfold spi_encode.
  destruct (isSpiSpecial K b) eqn:Sp.
  - cbn -[processSpiSpecial]. rewrite processSpiSpecial_esc by exact He.
    cbn -[processSpiSpecial]. unfold processSpiSpecial at 1. cbn [spi_prev_was_esc set_esc].
    rewrite Z.lxor_assoc, Z.lxor_nilpotent, Z.lxor_0_r.
    destruct (Z.eqb_spec b (-1)); [lia|]. cbn [andb].
    rewrite <- app_assoc. destruct st; cbn in He; subst; reflexivity.
  - cbn -[processSpiSpecial]. rewrite processSpiSpecial_plain by assumption.
    destruct (Z.eqb_spec b (-1)); [lia|]. reflexivity.
Qed.

Section Writer.
Variable R : Type.
Variable pI : Z -> R -> R.

(** One exchange with a module that has nothing queued. *)
Lemma exchange_idle (x : Z) (st : Framer) (r : R) (out : list Z) :
  exchange K R pI x st r (mkBus [] out) =
  (snd (processSpiSpecial K (SPI_SPECIAL_IDLE K) st),
   pI (fst (processSpiSpecial K (SPI_SPECIAL_IDLE K) st)) r, mkBus [] (out ++ [x])).
Proof.
  unfold exchange, transferSpi. cbn [incoming sent].
  destruct (processSpiSpecial K (SPI_SPECIAL_IDLE K) st). reflexivity.
Qed.

Lemma spi_write_loop_idle (buf : list Z) :
  forall fuel tries st r out,
  (List.length buf <= fuel)%nat -> (0 < tries)%nat ->
  spi_xoff st = false -> unrecoverableError st = false ->
  let res := spi_write_loop K R pI fuel buf tries st r (mkBus [] out) in
  snd res = mkBus [] (out ++ flat_map (spi_encode K) buf) /\
  spi_xoff (fst (fst res)) = false /\ unrecoverableError (fst (fst res)) = false.
Proof.
  induction buf as [|b buf IH]; intros fuel tries st r out Hf Ht Hx Hu; cbn zeta.
  - destruct fuel; cbn; rewrite app_nil_r; auto.
  - destruct fuel as [|f]; cbn [List.length] in Hf; [lia|].
    destruct tries as [|tries]; [lia|].
    cbn [spi_write_loop Nat.eqb]. rewrite Hu, Hx.
    cbn [flat_map]. unfold spi_encode at 1.
    destruct (isSpiSpecial K b).
    + rewrite exchange_idle.
      destruct (processSpiSpecial_idle st) as (Hx1 & Hu1 & _).
      rewrite exchange_idle.
      destruct (processSpiSpecial_idle (snd (processSpiSpecial K (SPI_SPECIAL_IDLE K) st)))
        as (Hx2 & Hu2 & _).
      cbv iota beta.
      destruct (IH f (S tries)
                 (snd (processSpiSpecial K (SPI_SPECIAL_IDLE K)
                   (snd (processSpiSpecial K (SPI_SPECIAL_IDLE K) st))))
                 (pI (fst (processSpiSpecial K (SPI_SPECIAL_IDLE K)
                   (snd (processSpiSpecial K (SPI_SPECIAL_IDLE K) st))))
                 (pI (fst (processSpiSpecial K (SPI_SPECIAL_IDLE K) st)) r))
                 ((out ++ [SPI_SPECIAL_ESC K]) ++ [Z.lxor b (SPI_ESC_XOR K)]))
        as (Hb & Hx3 & Hu3); [lia|lia|congruence|congruence|].
      split; [rewrite Hb, <- !app_assoc; reflexivity | split; assumption].
    + rewrite exchange_idle.
      destruct (processSpiSpecial_idle st) as (Hx1 & Hu1 & _).
      cbv iota beta.
      destruct (IH f (S tries) (snd (processSpiSpecial K (SPI_SPECIAL_IDLE K) st))
                 (pI (fst (processSpiSpecial K (SPI_SPECIAL_IDLE K) st)) r)
                 (out ++ [b])) as (Hb & Hx3 & Hu3); [lia|lia|congruence|congruence|].
      split; [rewrite Hb, <- !app_assoc; reflexivity | split; assumption].
Qed.

(** [writeRaw(buf, len)] over SPI to a module that has nothing to send
    (it clocks out IDLE) and has not sent XOFF: every byte of [buf] goes
    out in order, a reserved value as ESC and [b ^ SPI_ESC_XOR], any
    other byte as itself, and nothing else is sent; XOFF stays clear and
    the latch stays open. *)
Theorem writeRaw_spi_encodes (buf : list Z) (st : Framer) (r : R) (out : list Z) :
  spi_xoff st = false -> unrecoverableError st = false ->
  let res := writeRaw K R pI TSpi buf st r (mkBus [] out) in
  snd res = mkBus [] (out ++ flat_map (spi_encode K) buf) /\
  spi_xoff (fst (fst res)) = false /\ unrecoverableError (fst (fst res)) = false.
Proof.
  intros Hx Hu. apply spi_write_loop_idle; [lia|lia|exact Hx|exact Hu].
Qed.

Lemma spi_write_loop_xoff (b : Z) (buf : list Z) (tries : nat) :
  forall fuel st r out, (tries <= fuel)%nat ->
  spi_xoff st = true -> unrecoverableError st = false ->
  let res := spi_write_loop K R pI fuel (b :: buf) tries st r (mkBus [] out) in
  snd res = mkBus [] (out ++ repeat (SPI_SPECIAL_IDLE K) tries) /\ spi_xoff (fst (fst res)) = true.
Proof.
  induction tries as [|tries IH]; intros fuel st r out Hf Hx Hu; cbn zeta.
  - destruct fuel; cbn; rewrite app_nil_r; auto.
  - destruct fuel as [|f]; [lia|].
    cbn [spi_write_loop Nat.eqb]. rewrite Hu, Hx. rewrite exchange_idle.
    destruct (processSpiSpecial_idle st) as (Hx1 & Hu1 & _).
    cbv iota beta. replace (S tries - 1)%nat with tries by lia.
    destruct (IH f (snd (processSpiSpecial K (SPI_SPECIAL_IDLE K) st))
                 (pI (fst (processSpiSpecial K (SPI_SPECIAL_IDLE K) st)) r)
                 (out ++ [SPI_SPECIAL_IDLE K]))
      as (Hb & Hx2); [lia|congruence|congruence|].
    split; [rewrite Hb, <- app_assoc; reflexivity | assumption].
Qed.

(** [writeRaw(buf, len)] over SPI after the module sent XOFF, when the
    module keeps clocking out IDLE (no XON): writeRaw sends 1024 IDLE
    bytes, none of [buf], and returns; the data is dropped without any
    error being reported, and XOFF is still set. *)
Theorem writeRaw_spi_xoff_drops (b : Z) (buf : list Z) (st : Framer) (r : R) (out : list Z) :
  spi_xoff st = true -> unrecoverableError st = false ->
  let res := writeRaw K R pI TSpi (b :: buf) st r (mkBus [] out) in
  snd res = mkBus [] (out ++ repeat (SPI_SPECIAL_IDLE K) 1024) /\ spi_xoff (fst (fst res)) = true.
Proof.
  intros Hx Hu. apply spi_write_loop_xoff; [cbn [List.length]; lia|exact Hx|exact Hu].
Qed.

End Writer.

End Codes.

Lemma readRaw_spi_decode_witness :
  readRaw ex_spi_codes TSpi false 64 framer0 (mkBus (spi_encode ex_spi_codes 250 ++ [65]) []) =
  (250, set_errorcount framer0 0,
   mkBus [65] ([] ++ repeat (SPI_SPECIAL_IDLE ex_spi_codes)
                      (List.length (spi_encode ex_spi_codes 250)))).
Proof.
  exact (readRaw_spi_decode ex_spi_codes
           ltac:(apply (bool_decide_unpack _); vm_compute; exact I)
           250 64 framer0 [65] [] ltac:(lia) eq_refl eq_refl ltac:(lia)).
Defined.

Lemma writeRaw_spi_encodes_witness :
  let res := writeRaw ex_spi_codes (list Z) cons TSpi [65; 250] framer0 [] (mkBus [] []) in
  snd res = mkBus [] ([] ++ flat_map (spi_encode ex_spi_codes) [65; 250]) /\
  spi_xoff (fst (fst res)) = false /\ unrecoverableError (fst (fst res)) = false.
Proof.
  exact (writeRaw_spi_encodes ex_spi_codes
           ltac:(apply (bool_decide_unpack _); vm_compute; exact I)
           (list Z) cons [65; 250] framer0 [] [] eq_refl eq_refl).
Defined.

Lemma writeRaw_spi_xoff_drops_witness :
  let res := writeRaw ex_spi_codes (list Z) cons TSpi [65] (mkFramer false true 0 false) []
               (mkBus [] []) in
  snd res = mkBus [] ([] ++ repeat (SPI_SPECIAL_IDLE ex_spi_codes) 1024) /\
  spi_xoff (fst (fst res)) = true.
Proof.
  exact (writeRaw_spi_xoff_drops ex_spi_codes
           ltac:(apply (bool_decide_unpack _); vm_compute; exact I)
           (list Z) cons 65 [] (mkFramer false true 0 false) [] [] eq_refl eq_refl).
Defined.

End SpiExtra.

Module IncomingExtra.
Import Parse Engine Ring Incoming Bulk Notions RingNotions.

Lemma hex_char_digit (d : Z) : 0 <= d <= 15 -> digit_value (hex_char d) = Some d /\ 0 <= hex_char d.
Proof.
  intros H.
  assert (d = 0 \/ d = 1 \/ d = 2 \/ d = 3 \/ d = 4 \/ d = 5 \/ d = 6 \/ d = 7 \/ d = 8 \/
          d = 9 \/ d = 10 \/ d = 11 \/ d = 12 \/ d = 13 \/ d = 14 \/ d = 15) as Hc by lia.
  repeat destruct Hc as [->|Hc]; try (subst d); (split; [reflexivity | apply Z.leb_le; reflexivity]).
Qed.

Lemma to_digits_S (f : nat) (base n : Z) (acc : list Z) :
  to_digits (S f) base n acc =
  if n <? base then hex_char (n mod base) :: acc
  else to_digits f base (n / base) (hex_char (n mod base) :: acc).
Proof. reflexivity. Qed.

Lemma fmt_04d_digits (n : Z) :
  0 <= n <= 9999 ->
  fmt_04d n = map hex_char [n / 1000; n / 100 mod 10; n / 10 mod 10; n mod 10].
Proof.
  intros Hn. unfold fmt_04d. rewrite to_digits_S.
  destruct (Z.ltb_spec n 10).
  { cbn [List.length Nat.sub repeat app map].
    replace (n / 1000) with 0 by (rewrite ?Z.div_div by lia; Z.to_euclidean_division_equations; lia). replace (n / 100 mod 10) with 0 by (rewrite ?Z.div_div by lia; Z.to_euclidean_division_equations; lia).
    replace (n / 10 mod 10) with 0 by (rewrite ?Z.div_div by lia; Z.to_euclidean_division_equations; lia). reflexivity. }
  rewrite to_digits_S. destruct (Z.ltb_spec (n / 10) 10).
  { cbn [List.length Nat.sub repeat app map].
    replace (n / 1000) with 0 by (rewrite ?Z.div_div by lia; Z.to_euclidean_division_equations; lia). replace (n / 100 mod 10) with 0 by (rewrite ?Z.div_div by lia; Z.to_euclidean_division_equations; lia). reflexivity. }
  rewrite to_digits_S. destruct (Z.ltb_spec (n / 10 / 10) 10).
  { cbn [List.length Nat.sub repeat app map].
    replace (n / 1000) with 0 by (rewrite ?Z.div_div by lia; Z.to_euclidean_division_equations; lia). replace (n / 10 / 10 mod 10) with (n / 100 mod 10) by (rewrite ?Z.div_div by lia; Z.to_euclidean_division_equations; lia).
    reflexivity. }
  rewrite to_digits_S. destruct (Z.ltb_spec (n / 10 / 10 / 10) 10);
    [|exfalso; rewrite !Z.div_div in * by lia; Z.to_euclidean_division_equations; lia].
  cbn [List.length Nat.sub repeat app map].
  replace (n / 10 / 10 / 10 mod 10) with (n / 1000) by (rewrite ?Z.div_div by lia; Z.to_euclidean_division_equations; lia).
  replace (n / 10 / 10 mod 10) with (n / 100 mod 10) by (rewrite ?Z.div_div by lia; Z.to_euclidean_division_equations; lia). reflexivity.
Qed.


Lemma fmt_x_small (c : Z) : 0 <= c <= 15 -> fmt_x c = [hex_char c].
Proof.
  intros Hc. unfold fmt_x. rewrite to_digits_S.
  destruct (Z.ltb_spec c 16); [|lia]. rewrite Z.mod_small by lia. reflexivity.
Qed.

Lemma data_header_digits (c n : nat) :
  (c <= 15)%nat -> Z.of_nat n <= 9999 ->
  data_header c n =
  [27; chr "Z"%char; hex_char (Z.of_nat c)] ++
  map hex_char [Z.of_nat n / 1000; Z.of_nat n / 100 mod 10; Z.of_nat n / 10 mod 10; Z.of_nat n mod 10].
Proof.
  intros Hc Hn. unfold data_header.
  rewrite fmt_x_small by lia. rewrite fmt_04d_digits by lia. reflexivity.
Qed.

Lemma four_digits (n : Z) :
  0 <= n <= 9999 ->
  fold_left (fun r d => r * 10 + d) [n / 1000; n / 100 mod 10; n / 10 mod 10; n mod 10] 0 = n.
Proof.
  intros Hn. cbn [fold_left].
  Z.to_euclidean_division_equations; nia.
Qed.

Section Header.
Variables (N F L : nat) (fb : RXFrame -> list Z) (fob : list Z -> RXFrame) (LEFT_MAX : Z).

Lemma idle_esc (r : Rx) :
  rx_state r = GS_RX_IDLE -> processIncoming N F L fb fob LEFT_MAX 27 r = Some (true, with_mode r GS_RX_ESC).
Proof. intros H. unfold processIncoming. rewrite H. reflexivity. Qed.

Lemma esc_Z (r : Rx) :
  rx_state r = GS_RX_ESC ->
  processIncoming N F L fb fob LEFT_MAX (chr "Z"%char) r =
  Some (true, with_left (with_async (with_mode r GS_RX_ESC_Z) (rx_async r) 0) 5).
Proof. intros H. unfold processIncoming. rewrite H. reflexivity. Qed.

Lemma dec_left_pos (l : Z) : 1 <= l <= LEFT_MAX + 1 -> dec_left LEFT_MAX l = l - 1.
Proof. intros H. unfold dec_left. apply Z.mod_small. lia. Qed.

Lemma escZ_step (x : Z) (r : Rx) :
  0 <= x -> rx_state r = GS_RX_ESC_Z -> (rx_async_len r < List.length (rx_async r))%nat ->
  1 <= rx_async_left r <= LEFT_MAX + 1 ->
  processIncoming N F L fb fob LEFT_MAX x r =
  Some (true, if rx_async_left r =? 1
              then finish_Z N F L fb fob
                     (mkRx GS_RX_ESC_Z (<[rx_async_len r := x]> (rx_async r)) (S (rx_async_len r))
                        (rx_async_left r - 1) (rx_async_subtype r) (ring r))
              else mkRx GS_RX_ESC_Z (<[rx_async_len r := x]> (rx_async r)) (S (rx_async_len r))
                     (rx_async_left r - 1) (rx_async_subtype r) (ring r)).
Proof.
  intros Hx Hs Hl Hleft. unfold processIncoming.
  destruct (Z.ltb_spec x 0); [lia|]. rewrite Hs. unfold count_down, push_async.
  destruct (Nat.ltb_spec (rx_async_len r) (List.length (rx_async r))); [|lia].
  destruct r as [st a alen left sub s]; cbn in *. subst st.
  rewrite dec_left_pos by lia.
  destruct (Z.eqb_spec (left - 1) 0), (Z.eqb_spec left 1); try lia; reflexivity.
Qed.


Lemma feed_cons (x : Z) (cs : list Z) (r : Rx) :
  feed N F L fb fob LEFT_MAX (x :: cs) r =
  match processIncoming N F L fb fob LEFT_MAX x r with
  | None => None
  | Some (_, r1) => feed N F L fb fob LEFT_MAX cs r1
  end.
Proof. reflexivity. Qed.

(** From [GS_RX_IDLE], processIncoming fed the seven header bytes writeData
    sends for a CID of at most 15 and a length of at most 9999 ends in
    [GS_RX_BULK] with the five header characters stored in [rx_async] and
    [rx_async_left] at 0, and buffers a frame header with that CID and
    length, [udp_server] false, and the IP and port the head frame had. *)
Lemma feed_data_header (c n : nat) (r : Rx) :
  (c <= 15)%nat -> Z.of_nat n <= 9999 ->
  rx_state r = GS_RX_IDLE -> (5 <= List.length (rx_async r))%nat -> 4 <= LEFT_MAX ->
  feed N F L fb fob LEFT_MAX (data_header c n) r =
  Some (mkRx GS_RX_BULK (drop 2 (data_header c n) ++ drop 5 (rx_async r)) 5 0 (rx_async_subtype r)
     (bufferFrameHeader N F L fb fob
        (with_head_frame (ring r)
           (mkRXFrame c (Z.of_nat n) false (ip (head_frame (ring r))) (port (head_frame (ring r))))))).
Proof.
  intros Hc Hn Hs Ha HL.
  rewrite data_header_digits by assumption.
  pose proof (hex_char_digit (Z.of_nat c) ltac:(lia)) as [D0 P0].
  pose proof (four_digits (Z.of_nat n) ltac:(lia)) as Hv.
  assert (B1 : 0 <= Z.of_nat n / 1000 <= 15) by (Z.to_euclidean_division_equations; lia).
  assert (B2 : 0 <= Z.of_nat n / 100 mod 10 <= 15) by (Z.to_euclidean_division_equations; lia).
  assert (B3 : 0 <= Z.of_nat n / 10 mod 10 <= 15) by (Z.to_euclidean_division_equations; lia).
  assert (B4 : 0 <= Z.of_nat n mod 10 <= 15) by (Z.to_euclidean_division_equations; lia).
  destruct (hex_char_digit _ B1) as [D1 P1], (hex_char_digit _ B2) as [D2 P2],
    (hex_char_digit _ B3) as [D3 P3], (hex_char_digit _ B4) as [D4 P4].
  set (d1 := Z.of_nat n / 1000) in *. set (d2 := Z.of_nat n / 100 mod 10) in *.
  set (d3 := Z.of_nat n / 10 mod 10) in *. set (d4 := Z.of_nat n mod 10) in *.
  cbn [map app drop].
  set (x0 := hex_char (Z.of_nat c)) in *. set (x1 := hex_char d1) in *.
  set (x2 := hex_char d2) in *. set (x3 := hex_char d3) in *. set (x4 := hex_char d4) in *.
  clearbody x0 x1 x2 x3 x4 d1 d2 d3 d4.
  destruct r as [st a alen left sub s]; cbn in Hs, Ha; subst st.
  destruct a as [|y0 [|y1 [|y2 [|y3 [|y4 a]]]]]; cbn in Ha; try lia.
  rewrite feed_cons, idle_esc by reflexivity. cbv beta iota.
  rewrite feed_cons, esc_Z by reflexivity. cbv beta iota.
  do 4 (rewrite feed_cons, escZ_step by (reflexivity || (cbn; lia));
    rewrite (proj2 (Z.eqb_neq _ 1)) by (cbn; lia); cbn -[finish_Z feed]).
  rewrite feed_cons, escZ_step by (reflexivity || (cbn; lia)).
  rewrite (proj2 (Z.eqb_eq _ 1)) by (cbn; lia); cbn -[finish_Z feed].
  assert (P : parse_loop 10 (x1 :: x2 :: x3 :: x4 :: a) 4 0 = Some (Z.of_nat n)).
  { change (x1 :: x2 :: x3 :: x4 :: a) with ([x1; x2; x3; x4] ++ a).
    change 4%nat with (List.length [x1; x2; x3; x4] + 0)%nat.
    rewrite (ParseExtra.parse_loop_app 10 [x1; x2; x3; x4] a 0 0 (Z.of_nat n)); [reflexivity|].
    rewrite <- Hv. apply ParseExtra.parse_loop_horner; [lia | | lia | cbn; lia].
    repeat (constructor; [assumption|]). constructor. }
  unfold finish_Z. cbn [rx_async ring feed].
  rewrite (EngineExtra.parseNumber8_one x0 (Z.of_nat c)) by exact D0.
  unfold parseNumber16. cbn [drop]. change ((10 <? 2) || (36 <? 10)) with false. cbv iota.
  rewrite P. rewrite Nat2Z.id. replace (5 - 1 - 1 - 1 - 1 - 1) with 0 by lia.
  reflexivity.
Qed.

End Header.

Lemma feed_data_header_witness :
  let r := mkRx GS_RX_IDLE [0; 0; 0; 0; 0; 0] 0 0 0 ex_ring in
  (3 <= 15)%nat /\ Z.of_nat 12 <= 9999 /\ rx_state r = GS_RX_IDLE /\
  (5 <= List.length (rx_async r))%nat /\ 4 <= 255 /\
  feed 16 4 16 ex_frame_bytes ex_frame_of_bytes 255 (data_header 3 12) r =
  Some (mkRx GS_RX_BULK (drop 2 (data_header 3 12) ++ drop 5 (rx_async r)) 5 0 (rx_async_subtype r)
     (bufferFrameHeader 16 4 16 ex_frame_bytes ex_frame_of_bytes
        (with_head_frame (ring r)
           (mkRXFrame 3 (Z.of_nat 12) false (ip (head_frame (ring r))) (port (head_frame (ring r))))))).
Proof.
  cbv zeta. split; [lia|]. split; [lia|]. split; [reflexivity|]. split; [cbn; lia|]. split; [lia|].
  apply (feed_data_header 16 4 16 ex_frame_bytes ex_frame_of_bytes 255 3 12); first [reflexivity | cbn; lia].
Defined.

End IncomingExtra.

Module BulkRxExtra.
Import Engine Ring Incoming RingNotions RingExtra.

Section Payload.
Variables (N F L : nat) (fb : RXFrame -> list Z) (fob : list Z -> RXFrame) (LEFT_MAX : Z).

Lemma readData_any_head_frame (s : RxState) :
  head_frame (snd (readData_any N F L fob s)) = head_frame s.
Proof.
  unfold readData_any, getFrameHeader_any, getData, loadFrameHeader.
  repeat (case_match; simplify_eq/=); reflexivity.
Qed.

Lemma dropData_head_frame (n : nat) (s : RxState) :
  head_frame (dropData N F L fob n s) = head_frame s.
Proof.
  revert s. induction n as [|n IH]; intros s; [reflexivity|].
  cbn [dropData]. pose proof (readData_any_head_frame s) as H.
  destruct (readData_any N F L fob s) as [[c id] s1]. cbn in H.
  rewrite IH. destruct (0 <=? c); exact H.
Qed.

Lemma bufferIncomingData_head_frame (c : Z) (s : RxState) :
  head_frame (bufferIncomingData N F L fob c s) = head_frame s.
Proof.
  unfold bufferIncomingData. cbv zeta.
  destruct (_ =? _)%nat; [exact (dropData_head_frame 1 s)|reflexivity].
Qed.

Lemma ring_contents_length (s : RxState) : List.length (ring_contents N s) = ring_used N s.
Proof. unfold ring_contents. rewrite length_map, length_seq. reflexivity. Qed.

Lemma ring_not_full (s : RxState) :
  ring_wf N s -> (ring_used N s + 1 < N)%nat -> ((rx_data_head s + 1) mod N <> rx_data_tail s)%nat.
Proof.
  intros W Hu. pose proof W as (HN & Hh & Ht & _). rewrite (ring_used_eq N s W) in Hu.
  rewrite mod_once by lia.
  destruct (Nat.ltb_spec (rx_data_head s + 1) N);
    destruct (Nat.leb_spec (rx_data_tail s) (rx_data_head s)) in Hu; lia.
Qed.

Lemma bulk_push_step (b : Z) (r : Rx) :
  0 <= b -> rx_state r = GS_RX_BULK -> ring_wf N (ring r) ->
  (ring_used N (ring r) + 1 < N)%nat ->
  1 <= length (head_frame (ring r)) <= 65535 ->
  let s := ring r in
  let s1 := with_head_frame (with_data s (<[rx_data_head s := b]> (rx_data s)) ((rx_data_head s + 1) mod N))
              (set_length (head_frame s) (length (head_frame s) - 1)) in
  processIncoming N F L fb fob LEFT_MAX b r =
    Some (true, mkRx (if length (head_frame s) =? 1 then GS_RX_IDLE else GS_RX_BULK)
                  (rx_async r) (rx_async_len r) (rx_async_left r) (rx_async_subtype r) s1) /\
  ring_wf N s1 /\ ring_contents N s1 = ring_contents N s ++ [b] /\
  ring_used N s1 = S (ring_used N s) /\
  rx_data_tail s1 = rx_data_tail s /\ tail_frame s1 = tail_frame s /\ eng s1 = eng s.
Proof.
  intros Hb Hs W Hu Hl. cbv zeta.
  pose proof (ring_not_full _ W Hu) as Hnf.
  destruct (ring_push N (ring r) b W Hnf) as [W' C']. cbv zeta in W', C'.
  assert (E : bufferIncomingData N F L fob b (ring r) =
              with_data (ring r) (<[rx_data_head (ring r) := b]> (rx_data (ring r)))
                ((rx_data_head (ring r) + 1) mod N)).
  { unfold bufferIncomingData. destruct (Nat.eqb_spec ((rx_data_head (ring r) + 1) mod N)
      (rx_data_tail (ring r))); [contradiction|reflexivity]. }
  split; [|split; [exact W'|split; [exact C'|split; [|repeat split]]]].
  - unfold processIncoming. destruct (Z.ltb_spec b 0); [lia|]. rewrite Hs. cbv zeta.
    rewrite E. cbn [option_map].
    rewrite (Z.mod_small (length _ - 1)) by (cbn; lia).
    destruct r as [st a alen left sub s]; cbn in *. subst st.
    destruct (Z.eqb_spec (length (head_frame s) - 1) 0), (Z.eqb_spec (length (head_frame s)) 1);
      try lia; reflexivity.
  - rewrite <- !ring_contents_length. change (ring_contents N (with_head_frame _ _)) with
      (ring_contents N (with_data (ring r) (<[rx_data_head (ring r) := b]> (rx_data (ring r)))
                ((rx_data_head (ring r) + 1) mod N))).
    rewrite C', length_app. cbn. lia.
Qed.

(** In [GS_RX_BULK], a byte [c >= 0] is buffered with
    [bufferIncomingData(c)] and counted off the head frame's [uint16_t]
    length: the length becomes [(length - 1) mod 65536] and the state
    goes back to [GS_RX_IDLE] exactly when that is 0.  The head frame is
    the one the header announced, whatever bufferIncomingData drops to
    make room; a frame announced with length 0 stays in [GS_RX_BULK] with
    65535 bytes still to come. *)
Theorem processIncoming_bulk_count (c : Z) (r : Rx) :
  0 <= c -> rx_state r = GS_RX_BULK ->
  let n := (length (head_frame (ring r)) - 1) mod 65536 in
  processIncoming N F L fb fob LEFT_MAX c r =
    Some (true, mkRx (if n =? 0 then GS_RX_IDLE else GS_RX_BULK)
                  (rx_async r) (rx_async_len r) (rx_async_left r) (rx_async_subtype r)
                  (with_head_frame (bufferIncomingData N F L fob c (ring r))
                     (set_length (head_frame (ring r)) n))).
Proof.
  intros Hc Hs. destruct r as [st a alen left sub s]; cbn in Hs |- *. subst st.
  unfold processIncoming. destruct (Z.ltb_spec c 0); [lia|]. cbv zeta.
  rewrite !bufferIncomingData_head_frame. cbn [option_map].
  destruct (_ =? 0); reflexivity.
Qed.

(** In [GS_RX_BULK], with room in the ring for all of them and no more
    bytes than the head frame has left, the payload bytes are appended to
    the buffered bytes in order, nothing is dropped, the head frame's
    length goes down by their number, and the state is [GS_RX_IDLE]
    exactly when the frame is complete. *)
Theorem feed_bulk_payload (bs : list Z) (r : Rx) :
  rx_state r = GS_RX_BULK -> ring_wf N (ring r) -> Forall (fun b => 0 <= b) bs ->
  (ring_used N (ring r) + List.length bs < N)%nat ->
  1 <= length (head_frame (ring r)) <= 65535 ->
  Z.of_nat (List.length bs) <= length (head_frame (ring r)) ->
  exists s',
    feed N F L fb fob LEFT_MAX bs r =
      Some (mkRx (if Z.of_nat (List.length bs) =? length (head_frame (ring r))
                  then GS_RX_IDLE else GS_RX_BULK)
              (rx_async r) (rx_async_len r) (rx_async_left r) (rx_async_subtype r) s') /\
    ring_wf N s' /\ ring_contents N s' = ring_contents N (ring r) ++ bs /\
    head_frame s' = set_length (head_frame (ring r))
                      (length (head_frame (ring r)) - Z.of_nat (List.length bs)) /\
    rx_data_tail s' = rx_data_tail (ring r) /\ tail_frame s' = tail_frame (ring r) /\
    eng s' = eng (ring r).
Proof.
  revert r. induction bs as [|b bs IH]; intros r Hs W Hb Hu Hl Hn.
  - exists (ring r). cbn [feed List.length].
    destruct (Z.eqb_spec (Z.of_nat 0) (length (head_frame (ring r)))); [lia|].
    destruct r as [st a alen left sub s]; cbn in Hs |- *. subst st.
    rewrite app_nil_r, Z.sub_0_r. split; [reflexivity|split; [exact W|split; [reflexivity|]]].
    split; [unfold set_length; destruct (head_frame s); reflexivity|repeat split].
  - inversion_clear Hb as [|? ? Hb0 Hbs]. cbn [List.length] in Hu, Hn.
    destruct (bulk_push_step b r Hb0 Hs W ltac:(lia) Hl) as (E & W1 & C1 & U1 & T1 & TF1 & E1).
    rewrite IncomingExtra.feed_cons, E.
    set (s1 := with_head_frame _ _) in *.
    destruct bs as [|b' bs'].
    + exists s1. cbn [feed List.length]. split; [|split; [exact W1|split; [exact C1|]]].
      * destruct (Z.eqb_spec (length (head_frame (ring r))) 1),
          (Z.eqb_spec (Z.of_nat 1) (length (head_frame (ring r)))); try lia; reflexivity.
      * split; [|exact (conj T1 (conj TF1 E1))]. reflexivity.
    + destruct (Z.eqb_spec (length (head_frame (ring r))) 1); [cbn [List.length] in Hn; lia|].
      assert (Hhf : length (head_frame s1) = length (head_frame (ring r)) - 1) by reflexivity.
      set (r1 := mkRx GS_RX_BULK _ _ _ _ s1).
      destruct (IH r1 eq_refl W1 Hbs ltac:(cbn [r1 ring]; lia)
                  ltac:(change (ring r1) with s1; rewrite Hhf; lia)
                  ltac:(change (ring r1) with s1; rewrite Hhf; cbn [List.length] in *; lia))
        as (s' & E' & W' & C' & H' & T' & TF' & E1').
      exists s'. cbn [r1 ring rx_async rx_async_len rx_async_left rx_async_subtype] in *.
      rewrite E'. split; [|split; [exact W'|split]].
      * cbn [head_frame s1 with_head_frame set_length length] in E' |- *.
        destruct (Z.eqb_spec (Z.of_nat (List.length (b' :: bs'))) (length (head_frame (ring r)) - 1)),
          (Z.eqb_spec (Z.of_nat (List.length (b :: b' :: bs'))) (length (head_frame (ring r))));
          cbn [List.length] in *; try lia; reflexivity.
      * rewrite C', C1, <- app_assoc. reflexivity.
      * split; [|split; [congruence|split; congruence]].
        rewrite H'. cbn [s1 head_frame with_head_frame set_length length cid udp_server ip port].
        unfold set_length. cbn [List.length]. f_equal. lia.
Qed.

End Payload.

Lemma processIncoming_bulk_count_witness :
  let r := mkRx GS_RX_BULK [0; 0; 0; 0; 0] 5 0 0
             (with_head_frame ex_ring (mkRXFrame 3 0 false [0; 0; 0; 0] 0)) in
  processIncoming 16 4 16 ex_frame_bytes ex_frame_of_bytes 255 65 r =
    Some (true, mkRx GS_RX_BULK (rx_async r) (rx_async_len r) (rx_async_left r)
                  (rx_async_subtype r)
                  (with_head_frame (bufferIncomingData 16 4 16 ex_frame_of_bytes 65 (ring r))
                     (set_length (head_frame (ring r)) 65535))).
Proof.
  exact (processIncoming_bulk_count 16 4 16 ex_frame_bytes ex_frame_of_bytes 255 65
           (mkRx GS_RX_BULK [0; 0; 0; 0; 0] 5 0 0
              (with_head_frame ex_ring (mkRXFrame 3 0 false [0; 0; 0; 0] 0)))
           ltac:(lia) eq_refl).
Defined.

Lemma feed_bulk_payload_witness :
  let r := mkRx GS_RX_BULK [0; 0; 0; 0; 0] 5 0 0
             (with_head_frame ex_ring (mkRXFrame 2 3 false [0; 0; 0; 0] 0)) in
  let bs := [1; 2; 3] in
  rx_state r = GS_RX_BULK /\ ring_wf 16 (ring r) /\ Forall (fun b => 0 <= b) bs /\
  (ring_used 16 (ring r) + List.length bs < 16)%nat /\
  1 <= length (head_frame (ring r)) <= 65535 /\
  Z.of_nat (List.length bs) <= length (head_frame (ring r)) /\
  exists s',
    feed 16 4 16 ex_frame_bytes ex_frame_of_bytes 255 bs r =
      Some (mkRx (if Z.of_nat (List.length bs) =? length (head_frame (ring r))
                  then GS_RX_IDLE else GS_RX_BULK)
              (rx_async r) (rx_async_len r) (rx_async_left r) (rx_async_subtype r) s') /\
    ring_wf 16 s' /\ ring_contents 16 s' = ring_contents 16 (ring r) ++ bs /\
    head_frame s' = set_length (head_frame (ring r))
                      (length (head_frame (ring r)) - Z.of_nat (List.length bs)) /\
    rx_data_tail s' = rx_data_tail (ring r) /\ tail_frame s' = tail_frame (ring r) /\
    eng s' = eng (ring r).
Proof.
  cbv zeta.
  assert (W : ring_wf 16 (with_head_frame ex_ring (mkRXFrame 2 3 false [0; 0; 0; 0] 0)))
    by (unfold ring_wf; cbn; lia).
  assert (Hf : Forall (fun b => 0 <= b) [1; 2; 3]) by (repeat constructor; lia).
  assert (Hu : (ring_used 16 (with_head_frame ex_ring (mkRXFrame 2 3 false [0; 0; 0; 0]%Z 0%Z))
                + List.length [1; 2; 3]%Z < 16)%nat) by (vm_compute; lia).
  split; [reflexivity|split; [exact W|split; [exact Hf|split; [exact Hu|]]]].
  split; [cbn; lia|split; [cbn; lia|]].
  apply (feed_bulk_payload 16 4 16 ex_frame_bytes ex_frame_of_bytes 255); first [reflexivity | exact W | exact Hf | exact Hu | cbn; lia].
Defined.

End BulkRxExtra.

Module BulkExtra.
Import Engine Bulk Notions.

Lemma chunks_small (g : nat) (l : list Z) :
  (List.length l <= 1400)%nat -> chunks g l = [l].
Proof.
  intros H. destruct g as [|g]; [reflexivity|]. cbn [chunks].
  destruct (Nat.ltb_spec 1400 (List.length l)); [lia|reflexivity].
Qed.

Lemma chunks_big (g : nat) (l : list Z) :
  (1400 < List.length l)%nat -> (List.length l <= g)%nat ->
  exists g', (List.length (drop 1400 l) <= g')%nat /\
             chunks g l = take 1400 l :: chunks g' (drop 1400 l).
Proof.
  intros H Hg. destruct g as [|g]; [lia|]. exists g. cbn [chunks].
  destruct (Nat.ltb_spec 1400 (List.length l)); [|lia].
  split; [rewrite length_drop; lia|reflexivity].
Qed.

Lemma writeData_loop_accepted (c : nat) (f : nat) :
  (c <= MAX_CID)%nat ->
  forall (buf : list Z) (g : nat) (rest : list bool),
  (List.length buf < f)%nat -> (List.length buf <= g)%nat ->
  writeData_loop f c buf (repeat true (List.length (chunks g buf)) ++ rest) =
  (true, List.concat (map (fun ch => data_header c (List.length ch) ++ ch) (chunks g buf)), rest).
Proof.
  intros Hc. induction f as [|f IH]; intros buf g rest Hf Hg; [lia|].
  cbn [writeData_loop]. destruct (Nat.ltb_spec MAX_CID c) as [Hc'|_]; [lia|].
  destruct (Nat.ltb_spec 1400 (List.length buf)) as [Hb|Hb].
  - destruct (chunks_big g buf Hb Hg) as (g' & Hg' & E). rewrite E.
    cbn [List.length repeat app map List.concat].
    assert (Ht : List.length (take 1400 buf) = 1400%nat) by (rewrite length_take; lia).
    pose proof (IH (take 1400 buf) 1400%nat (repeat true (List.length (chunks g' (drop 1400 buf))) ++ rest)
                  ltac:(lia) ltac:(lia)) as E1.
    rewrite chunks_small in E1 by lia. cbn [List.length repeat app map List.concat] in E1.
    rewrite app_nil_r in E1. rewrite E1.
    rewrite (IH (drop 1400 buf) g' rest ltac:(rewrite length_drop; lia) Hg').
    reflexivity.
  - rewrite chunks_small by lia. cbn [List.length repeat app map List.concat].
    rewrite app_nil_r. reflexivity.
Qed.

Lemma writeData_loop_stopped (c : nat) (f : nat) :
  (c <= MAX_CID)%nat ->
  forall (buf : list Z) (g j : nat) (rs : list bool),
  (List.length buf < f)%nat -> (List.length buf <= g)%nat ->
  (j < List.length (chunks g buf))%nat -> hd false rs = false ->
  writeData_loop f c buf (repeat true j ++ rs) =
  (false, List.concat (map (fun ch => data_header c (List.length ch) ++ ch) (take j (chunks g buf)))
          ++ take 3 (data_header c (List.length (nth j (chunks g buf) []))), tl rs).
Proof.
  intros Hc. induction f as [|f IH]; intros buf g j rs Hf Hg Hj Hrs; [lia|].
  cbn [writeData_loop]. destruct (Nat.ltb_spec MAX_CID c) as [Hc'|_]; [lia|].
  destruct (Nat.ltb_spec 1400 (List.length buf)) as [Hb|Hb].
  - destruct (chunks_big g buf Hb Hg) as (g' & Hg' & E). rewrite E in Hj |- *.
    assert (Ht : List.length (take 1400 buf) = 1400%nat) by (rewrite length_take; lia).
    destruct j as [|j].
    + pose proof (IH (take 1400 buf) 1400%nat 0%nat rs ltac:(lia) ltac:(lia)) as E1.
      rewrite chunks_small in E1 by lia. cbn [List.length take nth map List.concat app repeat] in E1 |- *.
      rewrite (E1 ltac:(lia) Hrs). reflexivity.
    + cbn [repeat app]. cbn [List.length] in Hj.
      pose proof (writeData_loop_accepted c f Hc (take 1400 buf) 1400%nat
                    (repeat true j ++ rs) ltac:(lia) ltac:(lia)) as E1.
      rewrite chunks_small in E1 by lia. cbn [List.length repeat app map List.concat] in E1.
      rewrite app_nil_r in E1. rewrite E1.
      rewrite (IH (drop 1400 buf) g' j rs ltac:(rewrite length_drop; lia) Hg' ltac:(lia) Hrs).
      cbn [take map List.concat nth]. rewrite <- !app_assoc. reflexivity.
  - rewrite chunks_small in Hj |- * by lia. cbn [List.length] in Hj.
    destruct j as [|j]; [|lia]. cbn [repeat app take map List.concat nth].
    destruct rs as [|[|] rest]; cbn in Hrs |- *; [reflexivity|discriminate|reflexivity].
Qed.

(** writeData to a CID of at most [MAX_CID] that gets an accepting reply
    for each piece (the buffer cut in pieces of 1400 bytes) returns true,
    sends exactly each piece's 7-byte <ESC>Z header followed by its bytes,
    in order, and reads no reply beyond one per piece. *)
Theorem writeData_accepted (c : nat) (buf : list Z) (rest : list bool) :
  (c <= MAX_CID)%nat ->
  writeData c buf (repeat true (List.length (chunks (List.length buf) buf)) ++ rest) =
  (true, data_frames c buf, rest).
Proof.
  intros Hc. unfold writeData, data_frames.
  apply writeData_loop_accepted; [exact Hc|lia|lia].
Qed.

(** When the reply for piece [j] is a refusal, or the replies run out
    there (a timeout), writeData returns false right away: it has sent the
    earlier pieces whole and only the first three header bytes of piece
    [j], sends nothing of the later pieces and reads no further reply. *)
Theorem writeData_stops (c : nat) (buf : list Z) (j : nat) (rs : list bool) :
  (c <= MAX_CID)%nat -> (j < List.length (chunks (List.length buf) buf))%nat ->
  hd false rs = false ->
  writeData c buf (repeat true j ++ rs) =
  (false, List.concat (map (fun ch => data_header c (List.length ch) ++ ch)
                           (take j (chunks (List.length buf) buf)))
          ++ take 3 (data_header c (List.length (nth j (chunks (List.length buf) buf) []))),
   tl rs).
Proof.
  intros Hc Hj Hrs. unfold writeData.
  apply writeData_loop_stopped; [exact Hc|lia|lia|exact Hj|exact Hrs].
Qed.

Lemma writeData_accepted_witness :
  (3 <= MAX_CID)%nat /\
  writeData 3 (repeat 7%Z 1500) (repeat true (List.length (chunks (List.length (repeat 7%Z 1500)) (repeat 7%Z 1500))) ++ [false]) =
  (true, data_frames 3 (repeat 7%Z 1500), [false]).
Proof. split; [unfold MAX_CID; lia|]. apply writeData_accepted. unfold MAX_CID; lia. Defined.

Lemma writeData_stops_witness :
  (3 <= MAX_CID)%nat /\ (1 < List.length (chunks (List.length (repeat 7%Z 1500)) (repeat 7%Z 1500)))%nat /\
  hd false [false; true] = false /\
  writeData 3 (repeat 7%Z 1500) (repeat true 1 ++ [false; true]) =
  (false, List.concat (map (fun ch => data_header 3 (List.length ch) ++ ch)
                           (take 1 (chunks (List.length (repeat 7%Z 1500)) (repeat 7%Z 1500))))
          ++ take 3 (data_header 3 (List.length (nth 1 (chunks (List.length (repeat 7%Z 1500)) (repeat 7%Z 1500)) []))),
   tl [false; true]).
Proof.
  assert (H1 : (3 <= MAX_CID)%nat) by (unfold MAX_CID; lia).
  assert (H2 : (1 < List.length (chunks (List.length (repeat 7%Z 1500)) (repeat 7%Z 1500)))%nat)
    by (vm_compute; lia).
  split; [exact H1|split; [exact H2|split; [reflexivity|]]].
  apply writeData_stops; [exact H1|exact H2|reflexivity].
Defined.

End BulkExtra.

Module UdpExtra.
Import Engine Bulk BulkUdp.

Lemma all_some_map (l : list Z) : all_some (map Some l) = Some l.
Proof. induction l as [|x l IH]; [reflexivity|]. cbn. rewrite IH. reflexivity. Qed.

Lemma read_array_some (l : list Z) (k i n : nat) :
  (i + n <= List.length l)%nat ->
  read_array (map Some l ++ repeat None k) i n = Some (take n (drop i l)).
Proof.
  intros H. unfold read_array. rewrite length_app, length_map, repeat_length.
  destruct (Nat.leb_spec (i + n) (List.length l + k)); [|lia].
  rewrite drop_app_le by (rewrite length_map; lia).
  rewrite take_app_le by (rewrite length_drop, length_map; lia).
  rewrite List.skipn_map, List.firstn_map. apply all_some_map.
Qed.

Lemma snprintf_array_length (size : nat) (t : list Z) :
  (0 < size)%nat -> List.length (snprintf_array size t) = size.
Proof.
  intros H. unfold snprintf_array, snprintf_store.
  rewrite length_app, length_map, repeat_length, length_app, length_take. cbn. lia.
Qed.

Lemma udp_header_text_min (c : nat) (o1 o2 o3 o4 port : Z) (len : nat) :
  (c <= MAX_CID)%nat -> (3 <= List.length (udp_header_text c o1 o2 o3 o4 port len))%nat.
Proof.
  intros Hc. unfold udp_header_text.
  rewrite IncomingExtra.fmt_x_small by (unfold MAX_CID in Hc; lia).
  rewrite !length_app. cbn [List.length]. lia.
Qed.

Lemma writeDataUdp_cases (c : nat) (o1 o2 o3 o4 port : Z) (buf : list Z) (rs : list bool) :
  (c <= MAX_CID)%nat -> (List.length buf <= 1400)%nat ->
  writeDataUdp c o1 o2 o3 o4 port buf (true :: rs) =
  (let text := udp_header_text c o1 o2 o3 o4 port (List.length buf) in
   if (List.length text <=? 27)%nat then Some (true, text ++ buf, rs)
   else if (List.length text =? 28)%nat then Some (true, take 27 text ++ [0] ++ buf, rs)
   else None).
Proof.
  intros Hc Hb. unfold writeDataUdp.
  destruct (Nat.ltb_spec MAX_CID c); [lia|]. destruct (Nat.ltb_spec 1400 (List.length buf)); [lia|].
  pose proof (udp_header_text_min c o1 o2 o3 o4 port (List.length buf) Hc) as H3.
  set (t := udp_header_text c o1 o2 o3 o4 port (List.length buf)) in *. cbv zeta.
  assert (Hst : forall k, read_array (snprintf_array 28 t) 0 k = read_array
     (map Some (take 27 t ++ [0]) ++ repeat None (28 - List.length (take 27 t ++ [0]))) 0 k)
    by reflexivity.
  assert (Hst' : forall k, read_array (snprintf_array 28 t) 3 k = read_array
     (map Some (take 27 t ++ [0]) ++ repeat None (28 - List.length (take 27 t ++ [0]))) 3 k)
    by reflexivity.
  assert (Hl : List.length (take 27 t ++ [0]) = (Nat.min 27 (List.length t) + 1)%nat)
    by (rewrite length_app, length_take; reflexivity).
  rewrite Hst, read_array_some by lia. rewrite drop_0.
  rewrite take_app_le by (rewrite length_take; lia). rewrite take_take.
  replace (Nat.min 3 27) with 3%nat by reflexivity.
  destruct (Nat.leb_spec (List.length t) 27).
  - rewrite Hst', read_array_some by lia. rewrite (take_ge t 27) by lia.
    rewrite drop_app_le by lia. rewrite take_app_le by (rewrite length_drop; lia).
    rewrite app_assoc, take_take_drop. rewrite (take_ge t) by lia. reflexivity.
  - destruct (Nat.eqb_spec (List.length t) 28).
    + rewrite Hst', read_array_some by lia.
      rewrite drop_app_le by (rewrite length_take; lia).
      rewrite (take_ge (drop 3 (take 27 t) ++ [0])) by (rewrite length_app, length_drop, length_take; cbn [List.length]; lia).
      pose proof (take_drop 3 (take 27 t)) as E. rewrite take_take in E. cbn [Nat.min] in E.
      rewrite !app_assoc, E. reflexivity.
    + unfold read_array at 1. rewrite snprintf_array_length by lia.
      destruct (Nat.leb_spec (3 + (List.length t - 3)) 28); [lia|]. reflexivity.
Qed.

Lemma to_digits_pos (f : nat) :
  forall (n : Z) (acc : list Z), 0 <= n -> Forall (fun x => 0 < x) acc ->
  Forall (fun x => 0 < x) (to_digits f 10 n acc).
Proof.
  induction f as [|f IH]; intros n acc Hn Hacc; [exact Hacc|].
  rewrite IncomingExtra.to_digits_S.
  assert (Hd : 0 < hex_char (n mod 10)).
  { unfold hex_char. pose proof (Z.mod_pos_bound n 10 ltac:(lia)).
    destruct (Z.ltb_spec (n mod 10) 10); [|lia]. change (chr "0"%char) with 48. lia. }
  destruct (Z.ltb_spec n 10); [constructor; assumption|].
  apply IH; [apply Z.div_pos; lia|constructor; assumption].
Qed.

Lemma to_digits_length (k : nat) :
  forall (f : nat) (n : Z) (acc : list Z),
  10 ^ Z.of_nat k <= n < 10 ^ Z.of_nat (S k) -> (k < f)%nat ->
  List.length (to_digits f 10 n acc) = (List.length acc + S k)%nat.
Proof.
  induction k as [|k IH]; intros f n acc Hn Hf; (destruct f as [|f]; [lia|]);
    rewrite IncomingExtra.to_digits_S.
  - cbn in Hn. destruct (Z.ltb_spec n 10); [|lia]. cbn [List.length]. lia.
  - rewrite !Nat2Z.inj_succ, !Z.pow_succ_r in Hn by lia.
    pose proof (Z.pow_pos_nonneg 10 (Z.of_nat k) ltac:(lia) ltac:(lia)).
    destruct (Z.ltb_spec n 10); [nia|].
    rewrite (IH f (n / 10) (hex_char (n mod 10) :: acc)); [cbn [List.length]; lia| |lia].
    rewrite Nat2Z.inj_succ, Z.pow_succ_r by lia.
    set (P := 10 ^ Z.of_nat k) in *. Z.to_euclidean_division_equations. lia.
Qed.

Lemma cstr_nul (l : list Z) : Forall (fun x => 0 < x) l -> cstr (l ++ [0]) = l.
Proof.
  induction 1 as [|x l Hx _ IH]; [reflexivity|]. cbn [app cstr].
  destruct (Z.eqb_spec x 0); [lia|]. rewrite IH. reflexivity.
Qed.

Lemma fmt_u_octet (o : Z) :
  100 <= o <= 255 -> List.length (fmt_u o) = 3%nat /\ Forall (fun x => 0 < x) (fmt_u o).
Proof.
  intros Ho. unfold fmt_u. split.
  - apply (to_digits_length 2); cbn; lia.
  - apply to_digits_pos; [lia|constructor].
Qed.

Lemma udp_header_text_long (c : nat) (o1 o2 o3 o4 port : Z) (len : nat) :
  (c <= MAX_CID)%nat -> 100 <= o1 <= 255 -> 100 <= o2 <= 255 -> 100 <= o3 <= 255 ->
  100 <= o4 <= 255 -> 1000 <= port <= 65535 -> Z.of_nat len <= 9999 ->
  List.length (udp_header_text c o1 o2 o3 o4 port len) = if port <? 10000 then 28%nat else 29%nat.
Proof.
  intros Hc H1 H2 H3 H4 Hp Hl.
  destruct (fmt_u_octet o1 H1) as [L1 P1], (fmt_u_octet o2 H2) as [L2 P2],
    (fmt_u_octet o3 H3) as [L3 P3], (fmt_u_octet o4 H4) as [L4 P4].
  assert (Hdot : Forall (fun x => 0 < x) [chr "."%char]) by (constructor; [reflexivity|constructor]).
  unfold udp_header_text, ipbuf, snprintf_store.
  set (d := fmt_u o1 ++ [chr "."%char] ++ fmt_u o2 ++ [chr "."%char] ++ fmt_u o3 ++
            [chr "."%char] ++ fmt_u o4).
  assert (Ld : List.length d = 15%nat) by (unfold d; rewrite !length_app, L1, L2, L3, L4; reflexivity).
  assert (Pd : Forall (fun x => 0 < x) d) by (unfold d; repeat apply Forall_app_2; assumption).
  replace (16 - 1)%nat with 15%nat by reflexivity. rewrite take_ge by lia. rewrite cstr_nul by exact Pd.
  rewrite IncomingExtra.fmt_x_small by (unfold MAX_CID in Hc; lia).
  rewrite IncomingExtra.fmt_04d_digits by lia.
  rewrite !length_app, Ld. cbn [List.length map].
  unfold fmt_u. destruct (Z.ltb_spec port 10000).
  - rewrite (to_digits_length 3 20 port []) by (cbn; lia). reflexivity.
  - rewrite (to_digits_length 4 20 port []) by (cbn; lia). reflexivity.
Qed.

(** writeData to a UDP server, with an accepting reply, sends
    [headerlen] bytes of header, where [headerlen] is the length of the
    full text "\x1bY<cid>ip:port:<len>", although [header] only holds 27
    characters and a NUL: a text of at most 27 characters is sent whole,
    one of 28 goes out with a NUL in place of its last character, and a
    longer one makes [writeRaw(header + 3, headerlen - 3)] read past the
    end of [header]. *)
Theorem writeDataUdp_header (c : nat) (o1 o2 o3 o4 port : Z) (buf : list Z) (rs : list bool) :
  (c <= MAX_CID)%nat -> (List.length buf <= 1400)%nat ->
  writeDataUdp c o1 o2 o3 o4 port buf (true :: rs) =
  (let text := udp_header_text c o1 o2 o3 o4 port (List.length buf) in
   if (List.length text <=? 27)%nat then Some (true, text ++ buf, rs)
   else if (List.length text =? 28)%nat then Some (true, take 27 text ++ [0] ++ buf, rs)
   else None).
Proof. intros Hc Hb. exact (writeDataUdp_cases c o1 o2 o3 o4 port buf rs Hc Hb). Qed.

(** With an IP address whose four octets all have three digits, and a
    port of at least 1000, the UDP server header is never sent intact:
    for a 4-digit port its last length digit goes out as a NUL, and for a
    5-digit port writeData reads past the end of [header]. *)
Theorem writeDataUdp_long_address (c : nat) (o1 o2 o3 o4 port : Z) (buf : list Z) (rs : list bool) :
  (c <= MAX_CID)%nat -> 100 <= o1 <= 255 -> 100 <= o2 <= 255 -> 100 <= o3 <= 255 ->
  100 <= o4 <= 255 -> 1000 <= port <= 65535 -> (List.length buf <= 1400)%nat ->
  writeDataUdp c o1 o2 o3 o4 port buf (true :: rs) =
  if port <? 10000
  then Some (true, take 27 (udp_header_text c o1 o2 o3 o4 port (List.length buf)) ++ [0] ++ buf, rs)
  else None.
Proof.
  intros Hc H1 H2 H3 H4 Hp Hb. rewrite (writeDataUdp_cases c o1 o2 o3 o4 port buf rs Hc Hb).
  cbv zeta. rewrite (udp_header_text_long c o1 o2 o3 o4 port (List.length buf)) by lia.
  destruct (port <? 10000); reflexivity.
Qed.

Lemma writeDataUdp_header_witness :
  let buf : list Z := [1; 2; 3] in
  (2 <= MAX_CID)%nat /\ (List.length buf <= 1400)%nat /\
  writeDataUdp 2 192 168 1 10 8080 buf [true] =
  (let text := udp_header_text 2 192 168 1 10 8080 (List.length buf) in
   if (List.length text <=? 27)%nat then Some (true, text ++ buf, [])
   else if (List.length text =? 28)%nat then Some (true, take 27 text ++ [0] ++ buf, [])
   else None).
Proof.
  cbv zeta. split; [unfold MAX_CID; lia|]. split; [cbn; lia|].
  apply (writeDataUdp_header 2 192 168 1 10 8080 [1; 2; 3] []); [unfold MAX_CID; lia|cbn; lia].
Defined.

Lemma writeDataUdp_long_address_witness :
  let buf : list Z := [1; 2; 3] in
  (2 <= MAX_CID)%nat /\ (100 <= 192 <= 255) /\ (100 <= 168 <= 255) /\ (100 <= 100 <= 255) /\
  (100 <= 200 <= 255) /\ (1000 <= 8080 <= 65535) /\ (List.length buf <= 1400)%nat /\
  writeDataUdp 2 192 168 100 200 8080 buf [true] =
  if 8080 <? 10000
  then Some (true, take 27 (udp_header_text 2 192 168 100 200 8080 (List.length buf)) ++ [0] ++ buf, [])
  else None.
Proof.
  cbv zeta. split; [unfold MAX_CID; lia|].
  do 5 (split; [lia|]). split; [cbn; lia|].
  apply (writeDataUdp_long_address 2 192 168 100 200 8080 [1; 2; 3] []);
    first [unfold MAX_CID; lia | lia | cbn; lia].
Defined.

End UdpExtra.
